(** * CERT Disaster App: record validation and persistence pipeline

    A shallow embedding of [cert_disaster_app.py]: the three field
    validators (Python [re] patterns), [boolean_converter], the prompt loop
    [edit_prompt_and_validation], and the three paths that write to the
    [households] table ([import_csv], [edit_record], [add_record]).

    Modelling conventions.
    - A Python [str] is a [string] whose characters are code points below
      256 (Latin-1).  [str.strip], [str.lower], [str.isdigit] and the [re]
      classes [\d], [\s], [.] are written out for that range.
    - Python values that flow through a DataFrame cell, a prompt result or
      a table cell are the tagged type [value]; [None], [NaN] and SQL [NULL]
      are the single constructor [VNull].
    - Uncaught exceptions are results ([Raise]); nothing in the program
      catches them except the [try] around [pd.to_numeric].
    - [input()] reads from an explicit list of lines; [datetime.now()]
      truncated to seconds is an explicit integer argument.
    - How [pd.to_numeric] reads a number in a text belongs to the library:
      it is a variable of the development, which holds for every such
      reading.
    - A key of the table is an integer without bound: the table never
      runs out of keys. *)

From Stdlib Require Import ZArith QArith List String Ascii Bool Lia.
From Stdlib Require Import Numbers.DecimalString.
Import ListNotations.

Local Open Scope Z_scope.
Local Open Scope string_scope.
Local Open Scope list_scope.

(** ** Characters and strings *)

Definition code (c : ascii) : N := N_of_ascii c.

Definition in_range (lo hi : N) (c : ascii) : bool :=
  (N.leb lo (code c) && N.leb (code c) hi)%bool.

(** [\d] of a [str] pattern: the decimal digits. *)
Definition is_digit (c : ascii) : bool := in_range 48 57 c.

Definition is_upper (c : ascii) : bool := in_range 65 90 c.

Definition is_lower (c : ascii) : bool := in_range 97 122 c.

Definition is_alpha (c : ascii) : bool := (is_upper c || is_lower c)%bool.

(** [\s] of a [str] pattern and the characters [str.strip] removes:
    tab..carriage return, the four separators 28..31, space, NEL and the
    no-break space. *)
Definition is_space (c : ascii) : bool :=
  (in_range 9 13 c || in_range 28 32 c
   || N.eqb (code c) 133 || N.eqb (code c) 160)%bool.

(** [str.isdigit] on one character: the decimal digits and the three
    superscript digits of Latin-1, which [int] does not accept. *)
Definition isdigit_char (c : ascii) : bool :=
  (is_digit c || N.eqb (code c) 178 || N.eqb (code c) 179
   || N.eqb (code c) 185)%bool.

Definition lower_char (c : ascii) : ascii :=
  if (is_upper c
      || (in_range 192 222 c && negb (N.eqb (code c) 215)))%bool
  then ascii_of_N (code c + 32) else c.

Fixpoint lower (s : string) : string :=
  match s with
  | EmptyString => EmptyString
  | String c s' => String (lower_char c) (lower s')
  end.

Fixpoint lstrip (s : string) : string :=
  match s with
  | EmptyString => EmptyString
  | String c s' => if is_space c then lstrip s' else s
  end.

Fixpoint rstrip (s : string) : string :=
  match s with
  | EmptyString => EmptyString
  | String c s' =>
      match rstrip s' with
      | EmptyString => if is_space c then EmptyString else String c EmptyString
      | t => String c t
      end
  end.

Definition strip (s : string) : string := rstrip (lstrip s).

Fixpoint string_forallb (p : ascii -> bool) (s : string) : bool :=
  match s with
  | EmptyString => true
  | String c s' => (p c && string_forallb p s')%bool
  end.

Definition is_blank (s : string) : bool := String.eqb s EmptyString.

(** [x in xs] for a list of strings. *)
Definition str_in (x : string) (xs : list string) : bool :=
  existsb (String.eqb x) xs.

(** ** Regular expressions

    Python's [re] searches by backtracking; whether [pattern.match] returns
    a match object depends only on whether some way of matching exists, so
    the boolean the validators take from it is membership in the pattern's
    language.  The matcher below decides that membership with derivatives. *)

Inductive regex : Type :=
| Void
| Eps
| Cls (p : ascii -> bool)
| Cat (r1 r2 : regex)
| Alt (r1 r2 : regex)
| Star (r : regex).

Definition Lit (c : ascii) : regex := Cls (Ascii.eqb c).

(** [r+] *)
Definition Plus (r : regex) : regex := Cat r (Star r).

(** [r?] *)
Definition Opt (r : regex) : regex := Alt r Eps.

(** [r{n}] *)
Fixpoint Rep (n : nat) (r : regex) : regex :=
  match n with
  | O => Eps
  | S n' => Cat r (Rep n' r)
  end.

Fixpoint Seq (rs : list regex) : regex :=
  match rs with
  | [] => Eps
  | r :: rs' => Cat r (Seq rs')
  end.

Fixpoint nullable (r : regex) : bool :=
  match r with
  | Void => false
  | Eps => true
  | Cls _ => false
  | Cat r1 r2 => (nullable r1 && nullable r2)%bool
  | Alt r1 r2 => (nullable r1 || nullable r2)%bool
  | Star _ => true
  end.

Definition cat' (r1 r2 : regex) : regex :=
  match r1 with
  | Void => Void
  | Eps => r2
  | _ => Cat r1 r2
  end.

Definition alt' (r1 r2 : regex) : regex :=
  match r1, r2 with
  | Void, _ => r2
  | _, Void => r1
  | _, _ => Alt r1 r2
  end.

Fixpoint deriv (c : ascii) (r : regex) : regex :=
  match r with
  | Void => Void
  | Eps => Void
  | Cls p => if p c then Eps else Void
  | Cat r1 r2 =>
      if nullable r1
      then alt' (cat' (deriv c r1) r2) (deriv c r2)
      else cat' (deriv c r1) r2
  | Alt r1 r2 => alt' (deriv c r1) (deriv c r2)
  | Star r1 => cat' (deriv c r1) (Star r1)
  end.

Fixpoint re_accepts (r : regex) (s : list ascii) : bool :=
  match s with
  | [] => nullable r
  | c :: s' => re_accepts (deriv c r) s'
  end.

(** The declarative reading of a pattern. *)
Inductive re_lang : regex -> list ascii -> Prop :=
| L_eps : re_lang Eps []
| L_cls p c : p c = true -> re_lang (Cls p) [c]
| L_cat r1 r2 s1 s2 :
    re_lang r1 s1 -> re_lang r2 s2 -> re_lang (Cat r1 r2) (s1 ++ s2)
| L_alt_l r1 r2 s : re_lang r1 s -> re_lang (Alt r1 r2) s
| L_alt_r r1 r2 s : re_lang r2 s -> re_lang (Alt r1 r2) s
| L_star_nil r : re_lang (Star r) []
| L_star_app r s1 s2 :
    re_lang r s1 -> re_lang (Star r) s2 -> re_lang (Star r) (s1 ++ s2).

Definition newline : ascii := ascii_of_N 10.

(** [.] without DOTALL: anything but a line feed. *)
Definition dot (c : ascii) : bool := negb (Ascii.eqb c newline).

(** The text before one final line feed, if the text ends with one. *)
Fixpoint chop_newline (s : list ascii) : option (list ascii) :=
  match s with
  | [] => None
  | [c] => if Ascii.eqb c newline then Some [] else None
  | c :: s' =>
      match chop_newline s' with
      | Some t => Some (c :: t)
      | None => None
      end
  end.

(** [bool(P.match(s))] for a pattern [^r$]: [^] is the start of the text,
    and [$] is the end of the text or the position just before a line feed
    that ends the text. *)
Definition re_match (r : regex) (s : string) : bool :=
  let l := list_ascii_of_string s in
  (re_accepts r l
   || match chop_newline l with
      | Some t => re_accepts r t
      | None => false
      end)%bool.

(** [^\d+\s+.+,\s*[A-Za-z .]+,\s*[A-Z]{2}\s+\d{5}$] *)
Definition city_char (c : ascii) : bool :=
  (is_alpha c || Ascii.eqb c " " || Ascii.eqb c ".")%bool.

Definition ADDRESS_REGEX : regex :=
  Seq [ Plus (Cls is_digit); Plus (Cls is_space); Plus (Cls dot); Lit ",";
        Star (Cls is_space); Plus (Cls city_char); Lit ",";
        Star (Cls is_space); Rep 2 (Cls is_upper);
        Plus (Cls is_space); Rep 5 (Cls is_digit) ].

(** [^\s*(\(\d{3}\)|\d{3})[-\s.]?\d{3}[-\s.]?\d{4}\s*$] *)
Definition phone_sep (c : ascii) : bool :=
  (Ascii.eqb c "-" || is_space c || Ascii.eqb c ".")%bool.

Definition PHONE_REGEX : regex :=
  Seq [ Star (Cls is_space);
        Alt (Seq [Lit "("; Rep 3 (Cls is_digit); Lit ")"])
            (Rep 3 (Cls is_digit));
        Opt (Cls phone_sep); Rep 3 (Cls is_digit);
        Opt (Cls phone_sep); Rep 4 (Cls is_digit);
        Star (Cls is_space) ].

(** [^[A-Za-z0-9._%+-]+@[A-Za-z0-9.-]+\.[A-Za-z]{2,}$] *)
Definition email_local_char (c : ascii) : bool :=
  (is_alpha c || is_digit c || Ascii.eqb c "." || Ascii.eqb c "_"
   || Ascii.eqb c "%" || Ascii.eqb c "+" || Ascii.eqb c "-")%bool.

Definition email_domain_char (c : ascii) : bool :=
  (is_alpha c || is_digit c || Ascii.eqb c "." || Ascii.eqb c "-")%bool.

Definition EMAIL_REGEX : regex :=
  Seq [ Plus (Cls email_local_char); Lit "@";
        Plus (Cls email_domain_char); Lit ".";
        Rep 2 (Cls is_alpha); Star (Cls is_alpha) ].


(** ** Values, exceptions and results *)

(** A float other than NaN: the rational it denotes, or an infinity. *)
Inductive float64 : Type :=
| Finite (q : Q)
| Infinite (negative : bool).

(** What a DataFrame cell, a prompt result or a table cell can hold:
    [None] or NaN, an [int], a [float] that is not NaN, a [str]. *)
Inductive value : Type :=
| VNull
| VInt (z : Z)
| VReal (x : float64)
| VText (s : string).

Inductive exn : Type :=
| TypeError
| ValueError
| EOFError
| OverflowError
| IntegrityError.

Inductive result (A : Type) : Type :=
| Ok (a : A)
| Raise (e : exn).

Arguments Ok {A} a.
Arguments Raise {A} e.

Definition bind {A B : Type} (m : result A) (k : A -> result B) : result B :=
  match m with
  | Ok a => k a
  | Raise e => Raise e
  end.

Fixpoint mapM {A B : Type} (f : A -> result B) (l : list A)
  : result (list B) :=
  match l with
  | [] => Ok []
  | a :: l' =>
      bind (f a) (fun b => bind (mapM f l') (fun bs => Ok (b :: bs)))
  end.

(** [pd.isna(v)] / [Series.notna()] on one cell. *)
Definition isna (v : value) : bool :=
  match v with
  | VNull => true
  | _ => false
  end.

Definition notna (v : value) : bool := negb (isna v).

(** Python's [v == n] for an integer literal [n]: an [int] or a [float]
    compares by number, a [str] or [None] is never equal to it. *)
Definition eq_int (v : value) (n : Z) : bool :=
  match v with
  | VInt z => Z.eqb z n
  | VReal (Finite q) => Qeq_bool q (inject_Z n)
  | _ => false
  end.

(** ** The validators *)

(** [validate_address]: [ADDRESS_REGEX.match] raises [TypeError] on a cell
    that is not a [str] (a blank cell is the float NaN). *)
Definition validate_address (address : value) : result bool :=
  match address with
  | VText s => Ok (re_match ADDRESS_REGEX s)
  | _ => Raise TypeError
  end.

(** [pd.isna(x) or str(x).strip() == ""]: the text of a number is never
    blank. *)
Definition blank_cell (x : value) : bool :=
  match x with
  | VNull => true
  | VText s => is_blank (strip s)
  | _ => false
  end.

Definition validate_phone (phone : value) : result bool :=
  if blank_cell phone then Ok true
  else match phone with
       | VText s => Ok (re_match PHONE_REGEX s)
       | _ => Raise TypeError
       end.

Definition validate_email (email : value) : result bool :=
  if blank_cell email then Ok true
  else match email with
       | VText s => Ok (re_match EMAIL_REGEX s)
       | _ => Raise TypeError
       end.

(** ** [boolean_converter] *)

Definition BOOLEAN_MAP : list (string * value) :=
  [ ("yes", VInt 1); ("y", VInt 1); ("true", VInt 1); ("1", VInt 1);
    ("no", VInt 0); ("n", VInt 0); ("false", VInt 0); ("0", VInt 0);
    (EmptyString, VNull); ("nan", VNull) ].

Fixpoint dict_get (k : string) (d : list (string * value)) : option value :=
  match d with
  | [] => None
  | (k', v) :: d' => if String.eqb k k' then Some v else dict_get k d'
  end.

(** [Series.map(dict)] on one element: a key that is not in the dict gives
    NaN. *)
Definition map_dict (d : list (string * value)) (k : string) : value :=
  match dict_get k d with
  | Some v => v
  | None => VNull
  end.

Definition str_of_Z (z : Z) : string := NilZero.string_of_int (Z.to_int z).

(** [boolean_converter] on one cell.  [astype(str)] turns NaN into the text
    [nan] and an integer into its decimal text; the text of a float always
    has a point, an exponent or is [inf], so it is never a key. *)
Definition boolean_converter (cell : value) : value :=
  match cell with
  | VNull => map_dict BOOLEAN_MAP (lower (strip "nan"))
  | VInt z => map_dict BOOLEAN_MAP (lower (strip (str_of_Z z)))
  | VReal _ => VNull
  | VText s => map_dict BOOLEAN_MAP (lower (strip s))
  end.

(** ** Numbers: [int(s)] and [pd.to_numeric] *)

Definition digit_val (c : ascii) : Z := Z.of_N (code c) - 48.

Fixpoint digits_val (acc : Z) (s : string) : Z :=
  match s with
  | EmptyString => acc
  | String c s' => digits_val (10 * acc + digit_val c) s'
  end.

Definition all_digits (s : string) : bool :=
  (negb (is_blank s) && string_forallb is_digit s)%bool.

(** [s.isdigit()] *)
Definition isdigit (s : string) : bool :=
  (negb (is_blank s) && string_forallb isdigit_char s)%bool.

(** The longest text [int] converts: beyond [sys.int_info]'s default limit
    of 4300 digits it raises [ValueError]. *)
Definition max_str_digits : Z := 4300.

(** [int(s)] for a text on which [isdigit] holds: a superscript digit is
    not a decimal digit and raises [ValueError], and so does a text of
    more than [max_str_digits] digits. *)
Definition int_of_str (s : string) : result Z :=
  if (all_digits s && Z.leb (Z.of_nat (String.length s)) max_str_digits)%bool
  then Ok (digits_val 0 s) else Raise ValueError.

(** What reading a text as a number gives: an [int], a [float], or NaN. *)
Inductive number : Type :=
| Int (z : Z)
| Float (x : float64)
| NaN.

Definition value_of_number (n : number) : value :=
  match n with
  | Int z => VInt z
  | Float x => VReal x
  | NaN => VNull
  end.

Section Pandas.

(** [pd.to_numeric] on an element that is a [str]: the number the library
    reads in the text, or nothing when it refuses the text.  Which texts
    it takes (signs, points, exponents, blanks around the digits, [inf],
    [nan]) is the library's matter; nothing below depends on it. *)
Variable text_number : string -> option number.

(** [pd.to_numeric(col, errors="raise")] on one cell: numbers and NaN pass
    through, a text is read as a number or raises. *)
Definition to_numeric (cell : value) : result value :=
  match cell with
  | VText s =>
      match text_number s with
      | Some n => Ok (value_of_number n)
      | None => Raise ValueError
      end
  | _ => Ok cell
  end.

(** ** Rows, the DataFrame and the [households] table *)

Definition CSV_COLUMNS : list string :=
  [ "address"; "adults"; "children"; "pets"; "dogs"; "critical_meds";
    "meds_need_refrigerated"; "has_special_needs"; "has_propane_tank";
    "has_natural_gas"; "phone"; "email"; "has_medical_training";
    "know_neighbors"; "has_neighbors_key"; "wants_newsletter";
    "can_cert_contact" ].

(** The seventeen survey columns of one row, in the order of
    [CSV_COLUMNS]. *)
Record fields : Type := mkFields {
  address : value;
  adults : value;
  children : value;
  pets : value;
  dogs : value;
  critical_meds : value;
  meds_need_refrigerated : value;
  has_special_needs : value;
  has_propane_tank : value;
  has_natural_gas : value;
  phone : value;
  email : value;
  has_medical_training : value;
  know_neighbors : value;
  has_neighbors_key : value;
  wants_newsletter : value;
  can_cert_contact : value
}.

(** What [pd.read_csv] returns: the header and the rows of cells. *)
Record dataframe : Type := mkDataFrame {
  df_columns : list string;
  df_rows : list (list value)
}.

Fixpoint index_of (name : string) (cols : list string) : option nat :=
  match cols with
  | [] => None
  | c :: cols' =>
      if String.eqb name c then Some O
      else option_map S (index_of name cols')
  end.

(** [row[name]] *)
Definition cell (cols : list string) (row : list value) (name : string)
  : value :=
  match index_of name cols with
  | Some i => nth i row VNull
  | None => VNull
  end.

Definition row_fields (cols : list string) (row : list value) : fields :=
  {| address := cell cols row "address";
     adults := cell cols row "adults";
     children := cell cols row "children";
     pets := cell cols row "pets";
     dogs := cell cols row "dogs";
     critical_meds := cell cols row "critical_meds";
     meds_need_refrigerated := cell cols row "meds_need_refrigerated";
     has_special_needs := cell cols row "has_special_needs";
     has_propane_tank := cell cols row "has_propane_tank";
     has_natural_gas := cell cols row "has_natural_gas";
     phone := cell cols row "phone";
     email := cell cols row "email";
     has_medical_training := cell cols row "has_medical_training";
     know_neighbors := cell cols row "know_neighbors";
     has_neighbors_key := cell cols row "has_neighbors_key";
     wants_newsletter := cell cols row "wants_newsletter";
     can_cert_contact := cell cols row "can_cert_contact" |}.

(** One row of [households]; the timestamps are seconds. *)
Record household : Type := mkHousehold {
  id : Z;
  data : fields;
  created_at : Z;
  updated_at : Z
}.

(** The committed content of the table and the next AUTOINCREMENT key. *)
Record store : Type := mkStore {
  rows : list household;
  next_id : Z
}.

Definition empty_store : store := {| rows := []; next_id := 1 |}.

(** A signed 64-bit integer, SQLite's INTEGER. *)
Definition int64 (z : Z) : bool := (Z.leb (- 2 ^ 63) z && Z.ltb z (2 ^ 63))%bool.

(** A REAL offered to a column of INTEGER affinity becomes an INTEGER
    when it is a whole number strictly between the smallest and the
    largest INTEGER; otherwise it stays a REAL. *)
Definition real_affinity (q : Q) : value :=
  let z := Z.div (Qnum q) (Zpos (Qden q)) in
  if (Z.eqb (Z.modulo (Qnum q) (Zpos (Qden q))) 0
      && Z.ltb (- 2 ^ 63) z && Z.ltb z (2 ^ 63 - 1))%bool
  then VInt z else VReal (Finite q).

(** The blanks SQLite skips around a number. *)
Definition sqlite_space (c : ascii) : bool :=
  (in_range 9 13 c || N.eqb (code c) 32)%bool.

Fixpoint take_while (p : ascii -> bool) (s : string) : string :=
  match s with
  | EmptyString => EmptyString
  | String c s' => if p c then String c (take_while p s') else EmptyString
  end.

Fixpoint drop_while (p : ascii -> bool) (s : string) : string :=
  match s with
  | EmptyString => EmptyString
  | String c s' => if p c then drop_while p s' else s
  end.

(** An optional sign: whether it is a minus, and what follows it. *)
Definition sign_of (s : string) : bool * string :=
  match s with
  | String "-" s' => (true, s')
  | String "+" s' => (false, s')
  | _ => (false, s)
  end.

Definition signed (negative : bool) (z : Z) : Z := if negative then - z else z.

(** [m] times ten to the power [e]. *)
Definition scale10 (m e : Z) : Q :=
  if Z.leb 0 e then inject_Z (m * 10 ^ e)
  else Qmake m (Pos.pow 10 (Z.to_pos (- e))).

(** The number SQLite reads in a text, when the whole text is one: blanks,
    a sign, digits with at most one point among them, an exponent, blanks;
    at least one digit before the exponent, and at least one in it.  The
    result is the integer of a text that has neither point nor exponent,
    the real otherwise. *)
Definition sqlite_number (s : string) : option (Z + Q) :=
  let (negative, s1) := sign_of (drop_while sqlite_space s) in
  let ip := take_while is_digit s1 in
  let s2 := drop_while is_digit s1 in
  let '(point, fp, s3) :=
    match s2 with
    | String "." t => (true, take_while is_digit t, drop_while is_digit t)
    | _ => (false, EmptyString, s2)
    end in
  let m := signed negative (digits_val 0 (ip ++ fp)) in
  let shift := - Z.of_nat (String.length fp) in
  if is_blank (ip ++ fp) then None
  else
    match s3 with
    | String c t =>
        if (Ascii.eqb c "e" || Ascii.eqb c "E")%bool
        then
          let (eneg, t1) := sign_of t in
          let ed := take_while is_digit t1 in
          if (negb (is_blank ed)
              && is_blank (drop_while sqlite_space (drop_while is_digit t1)))%bool
          then Some (inr (scale10 m (shift + signed eneg (digits_val 0 ed))))
          else None
        else if is_blank (drop_while sqlite_space s3)
        then Some (if point then inr (scale10 m shift) else inl m)
        else None
    | EmptyString => Some (if point then inr (scale10 m shift) else inl m)
    end.

(** What a column of INTEGER affinity keeps of a value: a REAL or a text
    that is a number is turned into an INTEGER when that loses nothing;
    a text that is no number, among them the empty text, stays as it
    is. *)
Definition integer_affinity (v : value) : value :=
  match v with
  | VReal (Finite q) => real_affinity q
  | VText s =>
      match sqlite_number s with
      | Some (inl z) => if int64 z then VInt z else VReal (Finite (inject_Z z))
      | Some (inr q) => real_affinity q
      | None => v
      end
  | _ => v
  end.

(** The values as SQLite keeps them: all columns but [address], [phone]
    and [email] are declared INTEGER.  Those three are TEXT; the program
    never offers them anything but a text or null, which they keep as
    it is. *)
Definition stored (f : fields) : fields :=
  {| address := address f;
     adults := integer_affinity (adults f);
     children := integer_affinity (children f);
     pets := integer_affinity (pets f);
     dogs := integer_affinity (dogs f);
     critical_meds := integer_affinity (critical_meds f);
     meds_need_refrigerated := integer_affinity (meds_need_refrigerated f);
     has_special_needs := integer_affinity (has_special_needs f);
     has_propane_tank := integer_affinity (has_propane_tank f);
     has_natural_gas := integer_affinity (has_natural_gas f);
     phone := phone f;
     email := email f;
     has_medical_training := integer_affinity (has_medical_training f);
     know_neighbors := integer_affinity (know_neighbors f);
     has_neighbors_key := integer_affinity (has_neighbors_key f);
     wants_newsletter := integer_affinity (wants_newsletter f);
     can_cert_contact := integer_affinity (can_cert_contact f) |}.

(** The NOT NULL columns of [init_db] (the timestamps are never null). *)
Definition not_null_ok (f : fields) : bool :=
  (notna (address f) && notna (adults f) && notna (children f)
   && notna (pets f) && notna (critical_meds f)
   && notna (has_special_needs f) && notna (has_propane_tank f)
   && notna (has_natural_gas f))%bool.

(** Binding a parameter: [sqlite3] refuses an [int] outside the signed
    64-bit range with [OverflowError]; a [float], a [str] and [None] are
    always taken. *)
Definition binds (v : value) : bool :=
  match v with
  | VInt z => int64 z
  | _ => true
  end.

Definition binds_all (f : fields) : bool :=
  (binds (address f) && binds (adults f) && binds (children f)
   && binds (pets f) && binds (dogs f) && binds (critical_meds f)
   && binds (meds_need_refrigerated f) && binds (has_special_needs f)
   && binds (has_propane_tank f) && binds (has_natural_gas f)
   && binds (phone f) && binds (email f) && binds (has_medical_training f)
   && binds (know_neighbors f) && binds (has_neighbors_key f)
   && binds (wants_newsletter f) && binds (can_cert_contact f))%bool.

(** One [INSERT INTO households (...) VALUES (...)]: the parameters are
    bound, then the row is checked and written. *)
Definition insert (st : store) (f : fields) (created updated : Z)
  : result store :=
  if negb (binds_all f) then Raise OverflowError
  else if not_null_ok f
  then Ok {| rows := rows st ++
                     [ {| id := next_id st; data := stored f;
                          created_at := created; updated_at := updated |} ];
             next_id := next_id st + 1 |}
  else Raise IntegrityError.

(** [connection.executemany(INSERT ..., csv_data)]: the rows one after the
    other inside one transaction. *)
Fixpoint executemany (st : store) (csv_data : list (fields * Z * Z))
  : result store :=
  match csv_data with
  | [] => Ok st
  | (f, c, u) :: rest => bind (insert st f c u) (fun st' => executemany st' rest)
  end.

(** [SELECT * FROM households WHERE id = ?] *)
Definition get (st : store) (record_id : Z) : option household :=
  find (fun h => Z.eqb (id h) record_id) (rows st).

(** [UPDATE households SET <the 17 columns>, updated_at = ? WHERE id = ?];
    [created_at] is not among the columns it sets. *)
Definition update (st : store) (record_id : Z) (f : fields) (updated : Z)
  : result store :=
  if negb (binds_all f) then Raise OverflowError
  else if (negb (existsb (fun h => Z.eqb (id h) record_id) (rows st))
           || not_null_ok f)%bool
  then Ok {| rows := map (fun h =>
                            if Z.eqb (id h) record_id
                            then {| id := id h; data := stored f;
                                    created_at := created_at h;
                                    updated_at := updated |}
                            else h) (rows st);
             next_id := next_id st |}
  else Raise IntegrityError.

(** ** [import_csv] *)

(** What an operation prints before it returns without writing. *)
Inductive notice : Type :=
| NoFilePath
| ReadError
| MissingColumns (missing_columns : list string)
| BadAddress (invalid : list (nat * value))
| BadPhone (invalid : list (nat * value))
| BadEmail (invalid : list (nat * value))
| BadNumbers
| DogsWithoutPets (invalid : list (nat * (value * value)))
| RefrigeratedWithoutMeds (invalid : list (nat * (value * value)))
| NotFound.

Inductive outcome : Type :=
| Done
| Rejected (n : notice)
| Uncaught (e : exn).

(** The rows with their DataFrame index. *)
Definition indexed {A : Type} (l : list A) : list (nat * A) :=
  combine (seq 0 (List.length l)) l.

(** [df[~df[flag]][[column]]]: index and cell of the rows whose flag is
    false. *)
Definition invalid_rows {A : Type} (column : fields -> A)
  (recs : list fields) (valid : list bool) : list (nat * A) :=
  map (fun x => (fst x, column (fst (snd x))))
      (filter (fun x => negb (snd (snd x))) (indexed (combine recs valid))).

(** [df[mask][[c1, c2]]] *)
Definition select_rows {A : Type} (mask : fields -> bool)
  (columns : fields -> A) (recs : list fields) : list (nat * A) :=
  map (fun x => (fst x, columns (snd x)))
      (filter (fun x => mask (snd x)) (indexed recs)).

Definition is_nil {A : Type} (l : list A) : bool :=
  match l with
  | [] => true
  | _ => false
  end.

(** The two [pd.to_numeric] assignments on one row. *)
Definition numeric_row (r : fields) : result fields :=
  bind (to_numeric (adults r)) (fun a =>
  bind (to_numeric (children r)) (fun c =>
  Ok {| address := address r; adults := a; children := c;
        pets := pets r; dogs := dogs r;
        critical_meds := critical_meds r;
        meds_need_refrigerated := meds_need_refrigerated r;
        has_special_needs := has_special_needs r;
        has_propane_tank := has_propane_tank r;
        has_natural_gas := has_natural_gas r;
        phone := phone r; email := email r;
        has_medical_training := has_medical_training r;
        know_neighbors := know_neighbors r;
        has_neighbors_key := has_neighbors_key r;
        wants_newsletter := wants_newsletter r;
        can_cert_contact := can_cert_contact r |})).

(** The loop over [boolean_data] on one row. *)
Definition boolean_row (r : fields) : fields :=
  {| address := address r; adults := adults r; children := children r;
     pets := boolean_converter (pets r);
     dogs := boolean_converter (dogs r);
     critical_meds := boolean_converter (critical_meds r);
     meds_need_refrigerated := boolean_converter (meds_need_refrigerated r);
     has_special_needs := boolean_converter (has_special_needs r);
     has_propane_tank := boolean_converter (has_propane_tank r);
     has_natural_gas := boolean_converter (has_natural_gas r);
     phone := phone r; email := email r;
     has_medical_training := boolean_converter (has_medical_training r);
     know_neighbors := boolean_converter (know_neighbors r);
     has_neighbors_key := boolean_converter (has_neighbors_key r);
     wants_newsletter := boolean_converter (wants_newsletter r);
     can_cert_contact := boolean_converter (can_cert_contact r) |}.

(** [(df["pets"] == 0) & df["dogs"].notna()] *)
Definition dogs_without_pets (r : fields) : bool :=
  (eq_int (pets r) 0 && notna (dogs r))%bool.

(** [(df["critical_meds"] == 0) & df["meds_need_refrigerated"].notna()] *)
Definition refrigerated_without_meds (r : fields) : bool :=
  (eq_int (critical_meds r) 0 && notna (meds_need_refrigerated r))%bool.

(** [[column for column in CSV_COLUMNS if column not in input_df.columns]] *)
Definition missing_columns_of (input_df : dataframe) : list string :=
  filter (fun column => negb (str_in column (df_columns input_df)))
         CSV_COLUMNS.

(** The rows of the frame, each as its seventeen survey cells. *)
Definition raw_rows (input_df : dataframe) : list fields :=
  map (row_fields (df_columns input_df)) (df_rows input_df).

(** The end of [import_csv], from the two conditional checks on: the
    frame with its boolean columns converted is checked, stamped and
    inserted.  An exception raised by [executemany] is not caught: the
    program ends before [commit] and the table keeps its committed
    content. *)
Definition finish_import (st : store) (converted : list fields)
  (time_stamp : Z) : outcome * store :=
  let invalid_dogs_input :=
    select_rows dogs_without_pets (fun r => (pets r, dogs r)) converted in
  if negb (is_nil invalid_dogs_input)
  then (Rejected (DogsWithoutPets invalid_dogs_input), st)
  else
  let invalid_refrigerated_meds_input :=
    select_rows refrigerated_without_meds
      (fun r => (critical_meds r, meds_need_refrigerated r)) converted in
  if negb (is_nil invalid_refrigerated_meds_input)
  then (Rejected (RefrigeratedWithoutMeds invalid_refrigerated_meds_input), st)
  else
  let csv_data := map (fun r => (r, time_stamp, time_stamp)) converted in
  match executemany st csv_data with
  | Raise e => (Uncaught e, st)
  | Ok st' => (Done, st')
  end.

(** The body of [import_csv] from the column check on.  Each column
    assignment is written row by row: the new cell depends on the old cell
    of the same row only.  An exception outside the [try] ends the
    program. *)
Definition import_frame (st : store) (input_df : dataframe) (time_stamp : Z)
  : outcome * store :=
  let missing_columns := missing_columns_of input_df in
  if negb (is_nil missing_columns)
  then (Rejected (MissingColumns missing_columns), st)
  else
  let recs := raw_rows input_df in
  match mapM (fun r => validate_address (address r)) recs with
  | Raise e => (Uncaught e, st)
  | Ok valid_address =>
  let invalid := invalid_rows address recs valid_address in
  if negb (is_nil invalid) then (Rejected (BadAddress invalid), st) else
  match mapM (fun r => validate_phone (phone r)) recs with
  | Raise e => (Uncaught e, st)
  | Ok valid_phone =>
  let invalid := invalid_rows phone recs valid_phone in
  if negb (is_nil invalid) then (Rejected (BadPhone invalid), st) else
  match mapM (fun r => validate_email (email r)) recs with
  | Raise e => (Uncaught e, st)
  | Ok valid_email =>
  let invalid := invalid_rows email recs valid_email in
  if negb (is_nil invalid) then (Rejected (BadEmail invalid), st) else
  match mapM numeric_row recs with
  | Raise _ => (Rejected BadNumbers, st)
  | Ok numeric =>
  finish_import st (map boolean_row numeric) time_stamp
  end end end end.

(** [import_csv] once the connection exists: the path typed at the prompt,
    [pd.read_csv] as the function [read_csv] ([None] when it raises), and
    the clock. *)
Definition import_csv (st : store) (line : string)
  (read_csv : string -> option dataframe) (time_stamp : Z)
  : outcome * store :=
  let file_path := strip line in
  if is_blank file_path then (Rejected NoFilePath, st)
  else match read_csv file_path with
       | None => (Rejected ReadError, st)
       | Some input_df => import_frame st input_df time_stamp
       end.

(** ** The prompt loop *)

Inductive value_type : Type :=
| TBool
| TInt
| TStr.

(** A computation that reads lines from standard input. *)
Definition io (A : Type) : Type := list string -> result (A * list string).

Definition ret {A : Type} (a : A) : io A := fun stdin => Ok (a, stdin).

Definition io_bind {A B : Type} (m : io A) (k : A -> io B) : io B :=
  fun stdin =>
    match m stdin with
    | Ok (a, rest) => k a rest
    | Raise e => Raise e
    end.

Notation "x <- m ;; k" := (io_bind m (fun x => k))
  (at level 61, m at next level, right associativity).

(** [edit_prompt_and_validation]: one iteration of the [while True] loop
    per line read; [input()] raises [EOFError] when the lines run out.
    The computation of [current_prompt] only feeds the text of the prompt
    and is left out. *)
Fixpoint edit_prompt_and_validation (prompt : string) (current_value : value)
  (vtype : value_type) (mandatory : bool) (stdin : list string)
  : result (value * list string) :=
  match stdin with
  | [] => Raise EOFError
  | line :: rest =>
      let again :=
        edit_prompt_and_validation prompt current_value vtype mandatory rest in
      let input_value :=
        match vtype with
        | TBool => lower (strip line)
        | _ => strip line
        end in
      if is_blank input_value then
        if mandatory then again else Ok (current_value, rest)
      else
        match vtype with
        | TBool =>
            if str_in input_value ["yes"; "y"; "true"; "1"]
            then Ok (VInt 1, rest)
            else if str_in input_value ["no"; "n"; "false"; "0"]
            then Ok (VInt 0, rest)
            else again
        | TInt =>
            if isdigit input_value
            then bind (int_of_str input_value) (fun z => Ok (VInt z, rest))
            else again
        | TStr =>
            bind (if String.eqb (lower prompt) "address"
                  then validate_address (VText input_value)
                  else Ok true) (fun address_ok =>
            if negb address_ok then again else
            bind (if String.eqb (lower prompt) "phone number"
                  then validate_phone (VText input_value)
                  else Ok true) (fun phone_ok =>
            if negb phone_ok then again else
            bind (if String.eqb (lower prompt) "email address"
                  then validate_email (VText input_value)
                  else Ok true) (fun email_ok =>
            if negb email_ok then again else
            Ok (VText input_value, rest))))
        end
  end.

(** ** [edit_record] and [add_record] *)

(** The prompts of [edit_record], each showing the stored value; the
    follow-up questions are asked only when the answer just collected
    equals 1. *)
Definition edit_prompts (series : fields) : io fields :=
  v_address <- edit_prompt_and_validation "Address" (address series) TStr false ;;
  v_adults <- edit_prompt_and_validation "Number of adults" (adults series) TInt false ;;
  v_children <- edit_prompt_and_validation "Number of children" (children series) TInt false ;;
  v_pets <- edit_prompt_and_validation "Any pets?" (pets series) TBool false ;;
  v_dogs <- (if eq_int v_pets 1
             then edit_prompt_and_validation "Any dogs?" (dogs series) TBool false
             else ret VNull) ;;
  v_critical_meds <- edit_prompt_and_validation "Any critical meds?" (critical_meds series) TBool false ;;
  v_meds_need_refrigerated <-
    (if eq_int v_critical_meds 1
     then edit_prompt_and_validation "Medication needs to be refrigerated?"
            (meds_need_refrigerated series) TBool false
     else ret VNull) ;;
  v_has_special_needs <- edit_prompt_and_validation "Special needs?" (has_special_needs series) TBool false ;;
  v_has_propane_tank <- edit_prompt_and_validation "Large propane tank?" (has_propane_tank series) TBool false ;;
  v_has_natural_gas <- edit_prompt_and_validation "Natural gas connection?" (has_natural_gas series) TBool false ;;
  v_phone <- edit_prompt_and_validation "Phone number" (phone series) TStr false ;;
  v_email <- edit_prompt_and_validation "Email address" (email series) TStr false ;;
  v_has_medical_training <- edit_prompt_and_validation "Any Medical training?" (has_medical_training series) TBool false ;;
  v_know_neighbors <- edit_prompt_and_validation "Know neighbors?" (know_neighbors series) TBool false ;;
  v_has_neighbors_key <- edit_prompt_and_validation "Have neighbor's key?" (has_neighbors_key series) TBool false ;;
  v_wants_newsletter <- edit_prompt_and_validation "CERT newsletter?" (wants_newsletter series) TBool false ;;
  v_can_cert_contact <- edit_prompt_and_validation "Allow CERT non-disaster contact?" (can_cert_contact series) TBool false ;;
  ret {| address := v_address; adults := v_adults; children := v_children;
         pets := v_pets; dogs := v_dogs; critical_meds := v_critical_meds;
         meds_need_refrigerated := v_meds_need_refrigerated;
         has_special_needs := v_has_special_needs;
         has_propane_tank := v_has_propane_tank;
         has_natural_gas := v_has_natural_gas;
         phone := v_phone; email := v_email;
         has_medical_training := v_has_medical_training;
         know_neighbors := v_know_neighbors;
         has_neighbors_key := v_has_neighbors_key;
         wants_newsletter := v_wants_newsletter;
         can_cert_contact := v_can_cert_contact |}.

(** [edit_record].  The loop that replaces [pd.isna] values by [None] and
    unwraps NumPy scalars is the identity on [value]. *)
Definition edit_record (st : store) (record_id : Z) (stdin : list string)
  (now : Z) : outcome * store :=
  match get st record_id with
  | None => (Rejected NotFound, st)
  | Some h =>
      match edit_prompts (data h) stdin with
      | Raise e => (Uncaught e, st)
      | Ok (updated_record, _) =>
          match update st record_id updated_record now with
          | Raise e => (Uncaught e, st)
          | Ok st' => (Done, st')
          end
      end
  end.

(** The prompts of [add_record]: every current value is the empty text,
    and the eight required questions are asked with [mandatory=True]. *)
Definition add_prompts : io fields :=
  let blank := VText EmptyString in
  v_address <- edit_prompt_and_validation "Address" blank TStr true ;;
  v_adults <- edit_prompt_and_validation "Number of adults" blank TInt true ;;
  v_children <- edit_prompt_and_validation "Number of children" blank TInt true ;;
  v_pets <- edit_prompt_and_validation "Any pets?" blank TBool true ;;
  v_dogs <- (if eq_int v_pets 1
             then edit_prompt_and_validation "Any dogs?" blank TBool false
             else ret VNull) ;;
  v_critical_meds <- edit_prompt_and_validation "Any critical meds?" blank TBool true ;;
  v_meds_need_refrigerated <-
    (if eq_int v_critical_meds 1
     then edit_prompt_and_validation "Medication needs to be refrigerated?"
            blank TBool false
     else ret VNull) ;;
  v_has_special_needs <- edit_prompt_and_validation "Special needs?" blank TBool true ;;
  v_has_propane_tank <- edit_prompt_and_validation "Large propane tank?" blank TBool true ;;
  v_has_natural_gas <- edit_prompt_and_validation "Natural gas connection?" blank TBool true ;;
  v_phone <- edit_prompt_and_validation "Phone number" blank TStr false ;;
  v_email <- edit_prompt_and_validation "Email address" blank TStr false ;;
  v_has_medical_training <- edit_prompt_and_validation "Any Medical training?" blank TBool false ;;
  v_know_neighbors <- edit_prompt_and_validation "Know neighbors?" blank TBool false ;;
  v_has_neighbors_key <- edit_prompt_and_validation "Have neighbor's key?" blank TBool false ;;
  v_wants_newsletter <- edit_prompt_and_validation "CERT newsletter?" blank TBool false ;;
  v_can_cert_contact <- edit_prompt_and_validation "Allow CERT non-disaster contact?" blank TBool false ;;
  ret {| address := v_address; adults := v_adults; children := v_children;
         pets := v_pets; dogs := v_dogs; critical_meds := v_critical_meds;
         meds_need_refrigerated := v_meds_need_refrigerated;
         has_special_needs := v_has_special_needs;
         has_propane_tank := v_has_propane_tank;
         has_natural_gas := v_has_natural_gas;
         phone := v_phone; email := v_email;
         has_medical_training := v_has_medical_training;
         know_neighbors := v_know_neighbors;
         has_neighbors_key := v_has_neighbors_key;
         wants_newsletter := v_wants_newsletter;
         can_cert_contact := v_can_cert_contact |}.

(** [add_record]: both timestamps are the one reading of the clock. *)
Definition add_record (st : store) (stdin : list string) (timestamp : Z)
  : outcome * store :=
  match add_prompts stdin with
  | Raise e => (Uncaught e, st)
  | Ok (new_record, _) =>
      match insert st new_record timestamp timestamp with
      | Raise e => (Uncaught e, st)
      | Ok st' => (Done, st')
      end
  end.

(** ** The operations of the main menu that write *)

Inductive command : Type :=
| ImportCsv (line : string) (read_csv : string -> option dataframe)
    (time_stamp : Z)
| EditRecord (record_id : Z) (stdin : list string) (now : Z)
| AddRecord (stdin : list string) (timestamp : Z).

Definition run (st : store) (c : command) : outcome * store :=
  match c with
  | ImportCsv line read_csv time_stamp => import_csv st line read_csv time_stamp
  | EditRecord record_id stdin now => edit_record st record_id stdin now
  | AddRecord stdin timestamp => add_record st stdin timestamp
  end.

(** The table after a history of operations, each on the content the
    previous one committed. *)
Definition run_all (st : store) (history : list command) : store :=
  fold_left (fun s c => snd (run s c)) history st.

(** ** Properties the claims speak about *)

(** The two conditional invariants on one record. *)
Definition cond_inv (f : fields) : Prop :=
  (pets f = VInt 0 -> dogs f = VNull)
  /\ (critical_meds f = VInt 0 -> meds_need_refrigerated f = VNull).

Definition store_inv (st : store) : Prop :=
  Forall (fun h => cond_inv (data h)) (rows st).

Definition is_ok {A : Type} (m : result A) : bool :=
  match m with
  | Ok _ => true
  | Raise _ => false
  end.

Definition is_ok_true (m : result bool) : bool :=
  match m with
  | Ok true => true
  | _ => false
  end.

(** The validation stages of [import_csv], read on one row of the file. *)
Definition passes_formats (r : fields) : bool :=
  (is_ok_true (validate_address (address r))
   && is_ok_true (validate_phone (phone r))
   && is_ok_true (validate_email (email r)))%bool.

Definition passes_integers (r : fields) : bool :=
  (is_ok (to_numeric (adults r)) && is_ok (to_numeric (children r)))%bool.

Definition passes_conditionals (r : fields) : bool :=
  (negb (dogs_without_pets (boolean_row r))
   && negb (refrigerated_without_meds (boolean_row r)))%bool.

Definition row_passes (r : fields) : bool :=
  (passes_formats r && passes_integers r && passes_conditionals r)%bool.

(** Some stage of the validation fails on the batch. *)
Definition fails_validation (input_df : dataframe) : Prop :=
  missing_columns_of input_df <> []
  \/ exists r, In r (raw_rows input_df) /\ row_passes r = false.

(** A count as the specification wants it. *)
Definition nonneg_integer (v : value) : Prop :=
  exists z, v = VInt z /\ 0 <= z.

(** The trigger is true and the dependent field is null, for one of the
    two pairs, on a row of the file. *)
Definition trigger_without_dependent (r : fields) : Prop :=
  (boolean_converter (pets r) = VInt 1
   /\ boolean_converter (dogs r) = VNull)
  \/ (boolean_converter (critical_meds r) = VInt 1
      /\ boolean_converter (meds_need_refrigerated r) = VNull).

(** The statement that a true trigger with a null dependent field stops
    the import. *)
Definition must_be_boolean_enforced : Prop :=
  forall st line read_csv time_stamp input_df r,
    is_blank (strip line) = false ->
    read_csv (strip line) = Some input_df ->
    In r (raw_rows input_df) ->
    trigger_without_dependent r ->
    exists n, import_csv st line read_csv time_stamp = (Rejected n, st).

(** The statement that an edit moves [updated_at] strictly forward. *)
Definition updated_at_strictly_increases : Prop :=
  forall st record_id stdin now h st',
    get st record_id = Some h ->
    edit_record st record_id stdin now = (Done, st') ->
    exists h', get st' record_id = Some h' /\ updated_at h < updated_at h'.

(** ** Sample data *)

Definition sample_address : string := "12 Oak Ave, Salem, OR 97301".

(** A row of a file in the order of [CSV_COLUMNS], all optional cells
    blank, with the given cells for adults, children, pets, dogs and
    wants_newsletter. *)
Definition sample_row (v_adults v_children v_pets v_dogs v_news : value)
  : list value :=
  [ VText sample_address; v_adults; v_children; v_pets; v_dogs;
    VText "no"; VNull; VText "no"; VText "no"; VText "yes";
    VNull; VNull; VNull; VNull; VNull; v_news; VNull ].

Definition sample_frame (rows : list (list value)) : dataframe :=
  {| df_columns := CSV_COLUMNS; df_rows := rows |}.

Definition plain_row : list value :=
  sample_row (VInt 2) (VInt 1) (VText "no") VNull VNull.

(** The file is found whatever path is typed. *)
Definition reads (input_df : dataframe) : string -> option dataframe :=
  fun _ => Some input_df.

Definition sample_answers : list string :=
  [ sample_address; "2"; "0"; "yes"; EmptyString; "no"; "no"; "no"; "no";
    EmptyString; EmptyString; EmptyString; EmptyString; EmptyString;
    EmptyString; EmptyString ].

Definition blank_answers : list string := repeat EmptyString 17.

(** A conversion that gave a value, and not NaN. *)
Definition filled (m : result value) : bool :=
  match m with
  | Ok v => notna v
  | Raise _ => false
  end.

(** The required cells of a row of the file are filled: what [NOT NULL]
    asks of the row once its columns are converted (the address is
    covered by its format check). *)
Definition required_filled (r : fields) : bool :=
  (filled (to_numeric (adults r)) && filled (to_numeric (children r))
   && notna (boolean_converter (pets r))
   && notna (boolean_converter (critical_meds r))
   && notna (boolean_converter (has_special_needs r))
   && notna (boolean_converter (has_propane_tank r))
   && notna (boolean_converter (has_natural_gas r)))%bool.

Definition dogs_no_pets_row : list value :=
  sample_row (VInt 2) (VInt 1) (VText "no") (VText "yes") VNull.

Definition unanswered_dogs_row : list value :=
  sample_row (VInt 2) (VInt 1) (VText "yes") VNull VNull.

Definition odd_token_row : list value :=
  sample_row (VInt 2) (VInt 1) (VText "no") VNull (VText "maybe").

Definition odd_counts_row : list value :=
  sample_row (VInt (-3)) (VReal (Finite (Qmake 25 10))) (VText "no") VNull
    VNull.

Definition blank_pets_row : list value :=
  sample_row (VInt 2) (VInt 1) VNull VNull VNull.

(** One reading of texts as numbers: a text of decimal digits is the
    integer it writes, and no other text is a number. *)
Definition plain_digits (s : string) : option number :=
  if all_digits s then Some (Int (digits_val 0 s)) else None.

(** A record as [edit_record] could hand it to the UPDATE. *)
Definition sample_record : fields :=
  {| address := VText "7 Elm St, Bend, OR 97701";
     adults := VInt 3; children := VInt 2;
     pets := VInt 1; dogs := VInt 0;
     critical_meds := VInt 0; meds_need_refrigerated := VNull;
     has_special_needs := VInt 0; has_propane_tank := VInt 1;
     has_natural_gas := VInt 0;
     phone := VText "(555) 123-4567"; email := VNull;
     has_medical_training := VInt 1; know_neighbors := VNull;
     has_neighbors_key := VText EmptyString;
     wants_newsletter := VInt 0; can_cert_contact := VInt 1 |}.

(** The table after [sample_answers] were given to [add_record] at second
    100 on an empty table. *)
Definition one_record_store : store :=
  snd (add_record empty_store sample_answers 100).

(** What a prompt of the given type hands back when it does not keep the
    current value. *)
Definition answer_of (vtype : value_type) (v : value) : Prop :=
  match vtype with
  | TBool => v = VInt 1 \/ v = VInt 0
  | TInt => nonneg_integer v
  | TStr => exists s, v = VText s /\ s <> EmptyString
  end.

(** ** The address grammar in words *)

(** A non-empty run of characters of one class. *)
Definition some_of (p : ascii -> bool) (s : list ascii) : Prop :=
  s <> [] /\ forallb p s = true.

(** Exactly [n] characters of one class. *)
Definition exactly (n : nat) (p : ascii -> bool) (s : list ascii) : Prop :=
  List.length s = n /\ forallb p s = true.

Definition comma : ascii := ","%char.

(** House number, blanks, street, a comma, city, a comma, two capital
    letters, blanks, five digits, in that order and with nothing after
    them.  The street is any run of characters on one line (it may hold
    commas); blanks may follow each comma. *)
Definition address_shape (s : list ascii) : Prop :=
  exists number gap1 street gap2 city gap3 state gap4 zip,
    s = number ++ gap1 ++ street ++ comma :: gap2 ++ city
               ++ comma :: gap3 ++ state ++ gap4 ++ zip
    /\ some_of is_digit number
    /\ some_of is_space gap1
    /\ some_of dot street
    /\ forallb is_space gap2 = true
    /\ some_of city_char city
    /\ forallb is_space gap3 = true
    /\ exactly 2 is_upper state
    /\ some_of is_space gap4
    /\ exactly 5 is_digit zip.

(** The three boundary cases: a state of four capital letters after the
    last comma, a zip of four digits, fewer than two commas. *)
Definition four_letter_state (s : list ascii) : Prop :=
  exists before gap state gap' zip,
    s = before ++ comma :: gap ++ state ++ gap' ++ zip
    /\ forallb is_space gap = true
    /\ exactly 4 is_upper state
    /\ forallb is_space gap' = true
    /\ exactly 5 is_digit zip.

Definition four_digit_zip (s : list ascii) : Prop :=
  exists before c zip,
    s = before ++ c :: zip
    /\ is_digit c = false
    /\ exactly 4 is_digit zip.

Definition commas (s : list ascii) : nat :=
  List.length (filter (Ascii.eqb comma) s).

Definition address_with_newline : string :=
  String.append "1 Main St, Springfield, IL 62704" (String newline EmptyString).

(** ** Well-formed records and tables *)

(** An [int] or a [float]. *)
Definition is_number (v : value) : Prop :=
  (exists z, v = VInt z) \/ (exists q, v = VReal q).

(** The answer to a required yes/no question. *)
Definition yes_no (v : value) : Prop := v = VInt 1 \/ v = VInt 0.

(** What an optional or follow-up yes/no column can hold: an answer, null
    (a blank cell of a file, a follow-up that was not asked) or the empty
    text (a blank answer at a prompt). *)
Definition optional_yes_no (v : value) : Prop :=
  v = VInt 1 \/ v = VInt 0 \/ v = VNull \/ v = VText EmptyString.

(** The types of the seventeen survey values of a record. *)
Definition record_typed (f : fields) : Prop :=
  validate_address (address f) = Ok true
  /\ validate_phone (phone f) = Ok true
  /\ validate_email (email f) = Ok true
  /\ is_number (adults f) /\ is_number (children f)
  /\ yes_no (pets f) /\ yes_no (critical_meds f)
  /\ yes_no (has_special_needs f) /\ yes_no (has_propane_tank f)
  /\ yes_no (has_natural_gas f)
  /\ optional_yes_no (dogs f)
  /\ optional_yes_no (meds_need_refrigerated f)
  /\ optional_yes_no (has_medical_training f)
  /\ optional_yes_no (know_neighbors f)
  /\ optional_yes_no (has_neighbors_key f)
  /\ optional_yes_no (wants_newsletter f)
  /\ optional_yes_no (can_cert_contact f).

(** A record as a row of the table holds it. *)
Definition record_wf (f : fields) : Prop :=
  record_typed f /\ stored f = f /\ binds_all f = true.

(** A count that is an integer of the table. *)
Definition whole_count (v : value) : Prop :=
  exists z, v = VInt z /\ int64 z = true.

(** A valid record: its values have their types, its two counts are
    integers of the table, and the two conditional invariants hold. *)
Definition valid_record (r : fields) : Prop :=
  record_typed r /\ cond_inv r
  /\ whole_count (adults r) /\ whole_count (children r).

(** ** What an import persists *)

(** The counts of a row of the file, once read as numbers, can be bound:
    an integer among them fits in 64 bits. *)
Definition counts_bind (r : fields) : bool :=
  match to_numeric (adults r), to_numeric (children r) with
  | Ok a, Ok c => (binds a && binds c)%bool
  | _, _ => false
  end.

(** What the table keeps of a row [r] of a file whose counts were read as
    the numbers [a] and [c]: the three texts as they are, the counts as a
    column of INTEGER affinity keeps them, and every yes/no cell
    converted. *)
Definition persisted (r : fields) (a c : value) : fields :=
  {| address := address r;
     adults := integer_affinity a;
     children := integer_affinity c;
     pets := boolean_converter (pets r);
     dogs := boolean_converter (dogs r);
     critical_meds := boolean_converter (critical_meds r);
     meds_need_refrigerated := boolean_converter (meds_need_refrigerated r);
     has_special_needs := boolean_converter (has_special_needs r);
     has_propane_tank := boolean_converter (has_propane_tank r);
     has_natural_gas := boolean_converter (has_natural_gas r);
     phone := phone r;
     email := email r;
     has_medical_training := boolean_converter (has_medical_training r);
     know_neighbors := boolean_converter (know_neighbors r);
     has_neighbors_key := boolean_converter (has_neighbors_key r);
     wants_newsletter := boolean_converter (wants_newsletter r);
     can_cert_contact := boolean_converter (can_cert_contact r) |}.

(** The row [h] of the table is the row [r] of the file, persisted at
    [time_stamp]. *)
Definition persists (time_stamp : Z) (r : fields) (h : household) : Prop :=
  exists a c,
    to_numeric (adults r) = Ok a /\ to_numeric (children r) = Ok c
    /\ data h = persisted r a c
    /\ created_at h = time_stamp /\ updated_at h = time_stamp.

(** ** Answers taken at once *)










(** The keys of the table are 1, 2, ..., n in the order of its rows, and
    the next key is n + 1. *)
Definition ids_consecutive (st : store) : Prop :=
  map id (rows st) = map Z.of_nat (seq 1 (List.length (rows st)))
  /\ next_id st = Z.of_nat (List.length (rows st)) + 1.

(** The reading of the clock an operation is given. *)
Definition time_of (c : command) : Z :=
  match c with
  | ImportCsv _ _ time_stamp => time_stamp
  | EditRecord _ _ now => now
  | AddRecord _ timestamp => timestamp
  end.

(** The clock never goes back along a history that starts at [t0]. *)
Fixpoint clock_ordered (t0 : Z) (history : list command) : Prop :=
  match history with
  | [] => True
  | c :: history' => t0 <= time_of c /\ clock_ordered (time_of c) history'
  end.

(** The record with another address. *)
Definition with_address (f : fields) (v : value) : fields :=
  {| address := v; adults := adults f; children := children f;
     pets := pets f; dogs := dogs f; critical_meds := critical_meds f;
     meds_need_refrigerated := meds_need_refrigerated f;
     has_special_needs := has_special_needs f;
     has_propane_tank := has_propane_tank f;
     has_natural_gas := has_natural_gas f;
     phone := phone f; email := email f;
     has_medical_training := has_medical_training f;
     know_neighbors := know_neighbors f;
     has_neighbors_key := has_neighbors_key f;
     wants_newsletter := wants_newsletter f;
     can_cert_contact := can_cert_contact f |}.

(** An input exception: the lines ran out, or [int] refused a text that
    [str.isdigit] had accepted. *)
Definition input_error (e : exn) : Prop := e = EOFError \/ e = ValueError.

Definition store_wf (st : store) : Prop :=
  Forall (fun h => record_wf (data h)) (rows st).

(** ** The phone and email grammars in words *)

(** Nothing, or one character of the class. *)
Definition at_most_one (p : ascii -> bool) (s : list ascii) : Prop :=
  s = [] \/ exists c, s = [c] /\ p c = true.

(** Three digits, bare or between parentheses. *)
Definition area_code (s : list ascii) : Prop :=
  exactly 3 is_digit s
  \/ exists d, s = "("%char :: d ++ [")"%char] /\ exactly 3 is_digit d.

(** Blanks, the area code, three digits, four digits, blanks; at most one
    separator (a hyphen, a blank or a point) after each of the first two
    groups. *)
Definition phone_shape (s : list ascii) : Prop :=
  exists lead area sep1 mid sep2 last trail,
    s = lead ++ area ++ sep1 ++ mid ++ sep2 ++ last ++ trail
    /\ forallb is_space lead = true
    /\ area_code area
    /\ at_most_one phone_sep sep1
    /\ exactly 3 is_digit mid
    /\ at_most_one phone_sep sep2
    /\ exactly 4 is_digit last
    /\ forallb is_space trail = true.

(** A local part, an at sign, a domain, a point and at least two
    letters. *)
Definition email_shape (s : list ascii) : Prop :=
  exists local domain tld,
    s = local ++ "@"%char :: domain ++ "."%char :: tld
    /\ some_of email_local_char local
    /\ some_of email_domain_char domain
    /\ (2 <= List.length tld)%nat
    /\ forallb is_alpha tld = true.

(** How many characters of a class, or copies of a character, a text
    holds. *)
Definition count_of (p : ascii -> bool) (s : list ascii) : nat :=
  List.length (filter p s).

(** ** [view_records] and [main] *)

(** What a run of prompts leaves unread. *)
Definition leftover {A : Type} (m : io A) (stdin : list string)
  : list string :=
  match m stdin with
  | Ok (_, rest) => rest
  | Raise _ => []
  end.

(** What [edit_record] leaves unread: it reads nothing when the key is
    unknown. *)
Definition edit_leftover (st : store) (record_id : Z) (stdin : list string)
  : list string :=
  match get st record_id with
  | Some h => leftover (edit_prompts (data h)) stdin
  | None => stdin
  end.

(** [ORDER BY id], by insertion. *)
Fixpoint place (h : household) (sorted : list household) : list household :=
  match sorted with
  | [] => [h]
  | x :: sorted' =>
      if Z.leb (id h) (id x) then h :: sorted else x :: place h sorted'
  end.

Definition order_by_id (l : list household) : list household :=
  fold_right place [] l.

(** [SELECT id, address FROM households ORDER BY id] *)
Definition listing (st : store) : list (Z * value) :=
  map (fun h => (id h, address (data h))) (order_by_id (rows st)).

(** How a loop of the program ended: it returned ([Done]) or an exception
    went through it; the table then; the lines not yet read; and the
    writing operations it performed, in order. *)
Record session : Type := mkSession {
  ended : outcome;
  table : store;
  unread : list string;
  performed : list command
}.

Definition crash (e : exn) (st : store) : session :=
  {| ended := Uncaught e; table := st; unread := []; performed := [] |}.

Definition log_all (cs : list command) (s : session) : session :=
  {| ended := ended s; table := table s; unread := unread s;
     performed := cs ++ performed s |}.

Definition log (c : command) (s : session) : session := log_all [c] s.

(** The [while True] loop of [view_records], one iteration per unit of
    fuel.  The listing was read once before the loop.  The clock is a
    function of the number of writing operations performed so far: the
    operation numbered [k] is given the reading [clock k].  An exception
    inside [edit_record] is not caught and ends the program. *)
Fixpoint view_loop (fuel : nat) (clock : nat -> Z)
  (records_df : list (Z * value)) (st : store) (stdin : list string)
  (k : nat) : option session :=
  match fuel with
  | O => None
  | S fuel' =>
      match stdin with
      | [] => Some (crash EOFError st)
      | line :: rest =>
          let choice := strip line in
          if is_blank choice then
            Some {| ended := Done; table := st; unread := rest;
                    performed := [] |}
          else if negb (isdigit choice) then
            view_loop fuel' clock records_df st rest k
          else
            match int_of_str choice with
            | Raise e => Some (crash e st)
            | Ok choice_int =>
                if negb (Z.leb 1 choice_int
                         && Z.leb choice_int
                                  (Z.of_nat (List.length records_df)))%bool
                then view_loop fuel' clock records_df st rest k
                else
                  let selected_id :=
                    fst (nth (Z.to_nat (choice_int - 1)) records_df
                             (0, VNull)) in
                  let c := EditRecord selected_id rest (clock k) in
                  match edit_record st selected_id rest (clock k) with
                  | (Uncaught e, st') => Some (log c (crash e st'))
                  | (_, st') =>
                      option_map (log c)
                        (view_loop fuel' clock records_df st'
                           (edit_leftover st selected_id rest) (S k))
                  end
            end
      end
  end.

(** A choice the loop of [view_records] answers by asking again: a text
    that is not blank and is either not made of digits, or a number that
    is not the position of a record in the listing. *)
Definition asked_again (records_df : list (Z * value)) (line : string)
  : bool :=
  let choice := strip line in
  (negb (is_blank choice)
   && (negb (isdigit choice)
       || match int_of_str choice with
          | Ok choice_int =>
              negb (Z.leb 1 choice_int
                    && Z.leb choice_int (Z.of_nat (List.length records_df)))
          | Raise _ => false
          end))%bool.

(** [view_records] *)
Definition view_records (fuel : nat) (clock : nat -> Z) (st : store)
  (stdin : list string) (k : nat) : option session :=
  let records_df := listing st in
  if is_nil records_df
  then Some {| ended := Done; table := st; unread := stdin; performed := [] |}
  else view_loop fuel clock records_df st stdin k.

(** The menu loop of [main], one iteration per unit of fuel.  Option 2,
    [export_csv], reads the table and writes a file: it changes neither
    the table nor standard input, and the file is outside this model. *)
Fixpoint main_loop (fuel : nat) (read_csv : string -> option dataframe)
  (clock : nat -> Z) (st : store) (stdin : list string) (k : nat)
  : option session :=
  match fuel with
  | O => None
  | S fuel' =>
      match stdin with
      | [] => Some (crash EOFError st)
      | line :: rest =>
          let choice := strip line in
          if String.eqb choice "1" then
            match rest with
            | [] => Some (crash EOFError st)
            | path :: rest' =>
                let c := ImportCsv path read_csv (clock k) in
                match import_csv st path read_csv (clock k) with
                | (Uncaught e, st') => Some (log c (crash e st'))
                | (_, st') =>
                    option_map (log c)
                      (main_loop fuel' read_csv clock st' rest' (S k))
                end
            end
          else if String.eqb choice "2" then
            main_loop fuel' read_csv clock st rest k
          else if String.eqb choice "3" then
            match view_records fuel' clock st rest k with
            | None => None
            | Some v =>
                match ended v with
                | Uncaught _ => Some v
                | _ =>
                    option_map (log_all (performed v))
                      (main_loop fuel' read_csv clock (table v) (unread v)
                         (k + List.length (performed v)))
                end
            end
          else if String.eqb choice "4" then
            let c := AddRecord rest (clock k) in
            match add_record st rest (clock k) with
            | (Uncaught e, st') => Some (log c (crash e st'))
            | (_, st') =>
                option_map (log c)
                  (main_loop fuel' read_csv clock st'
                     (leftover add_prompts rest) (S k))
            end
          else if String.eqb choice "5" then
            Some {| ended := Done; table := st; unread := rest;
                    performed := [] |}
          else main_loop fuel' read_csv clock st rest k
      end
  end.

(** [main] on the lines of standard input: every iteration of a loop
    reads at least one line, so one unit of fuel per line and one more
    are enough. *)
Definition main (read_csv : string -> option dataframe) (clock : nat -> Z)
  (st : store) (stdin : list string) : option session :=
  main_loop (S (List.length stdin)) read_csv clock st stdin 0.

(** * Proofs *)

(** ** Results and lists *)

Lemma bind_ok {A B : Type} (m : result A) (k : A -> result B) (b : B) :
  bind m k = Ok b -> exists a, m = Ok a /\ k a = Ok b.
Proof.
  destruct m as [a | e]; simpl; intros H.
  - exists a; split; [reflexivity | exact H].
  - discriminate H.
Qed.

Lemma mapM_ok_Forall2 {A B : Type} (f : A -> result B) :
  forall l bs, mapM f l = Ok bs -> Forall2 (fun a b => f a = Ok b) l bs.
Proof.
  induction l as [| a l IH]; simpl; intros bs H.
  - injection H as <-. constructor.
  - apply bind_ok in H as (b & Hb & H).
    apply bind_ok in H as (bs' & Hbs & H).
    injection H as <-. constructor; [exact Hb | apply IH; exact Hbs].
Qed.

Lemma mapM_raise {A B : Type} (f : A -> result B) :
  forall l e, mapM f l = Raise e -> exists a, In a l /\ is_ok (f a) = false.
Proof.
  induction l as [| a l IH]; simpl; intros e H; [discriminate H |].
  destruct (f a) as [b | e'] eqn:Hfa.
  - simpl in H. destruct (mapM f l) as [bs | e''] eqn:Hl; [discriminate H |].
    destruct (IH e'' eq_refl) as (a' & Hin & Ha').
    exists a'; split; [right; exact Hin | exact Ha'].
  - exists a; split; [left; reflexivity | rewrite Hfa; reflexivity].
Qed.

Lemma mapM_all_ok {A B : Type} (f : A -> result B) :
  forall l, Forall (fun a => is_ok (f a) = true) l ->
            exists bs, mapM f l = Ok bs.
Proof.
  induction l as [| a l IH]; simpl; intros H.
  - exists []; reflexivity.
  - inversion H as [| ? ? Ha Hl]; subst.
    destruct (f a) as [b | e]; [| discriminate Ha].
    destruct (IH Hl) as (bs & ->). exists (b :: bs); reflexivity.
Qed.

Lemma filter_numbered_nil {A : Type} (p : A -> bool) :
  forall (l : list A) (k : nat),
    filter (fun x => p (snd x)) (combine (seq k (List.length l)) l) = [] ->
    Forall (fun a => p a = false) l.
Proof.
  induction l as [| a l IH]; simpl; intros k H; [constructor |].
  destruct (p a) eqn:Hpa; [discriminate H |].
  constructor; [exact Hpa | apply (IH (S k)); exact H].
Qed.

Lemma filter_numbered_all_false {A : Type} (p : A -> bool) :
  forall (l : list A) (k : nat),
    Forall (fun a => p a = false) l ->
    filter (fun x => p (snd x)) (combine (seq k (List.length l)) l) = [].
Proof.
  induction l as [| a l IH]; simpl; intros k H; [reflexivity |].
  inversion H as [| ? ? Ha Hl]; subst. rewrite Ha. apply IH; exact Hl.
Qed.

Lemma numbered_nth {A : Type} :
  forall (l : list A) (k i : nat) (a : A),
    nth_error l i = Some a ->
    In ((k + i)%nat, a) (combine (seq k (List.length l)) l).
Proof.
  induction l as [| b l IH]; intros k i a H.
  - destruct i; discriminate H.
  - destruct i as [| i]; simpl in H |- *.
    + injection H as ->. left. f_equal. lia.
    + right. replace (k + S i)%nat with (S k + i)%nat by lia.
      apply IH; exact H.
Qed.

Lemma is_nil_true {A : Type} (l : list A) : is_nil l = true -> l = [].
Proof. destruct l; [reflexivity | discriminate]. Qed.

Lemma map_eq_nil' {A B : Type} (f : A -> B) (l : list A) :
  map f l = [] -> l = [].
Proof. destruct l; [reflexivity | discriminate]. Qed.

(** A stage with no invalid row: every row has its flag set. *)
Lemma invalid_rows_nil {A : Type} (check : fields -> result bool)
  (column : fields -> A) :
  forall recs valid,
    mapM check recs = Ok valid ->
    invalid_rows column recs valid = [] ->
    Forall (fun r => is_ok_true (check r) = true) recs.
Proof.
  intros recs valid Hm Hnil.
  apply mapM_ok_Forall2 in Hm.
  unfold invalid_rows, indexed in Hnil. apply map_eq_nil' in Hnil.
  apply (filter_numbered_nil (fun y => negb (snd y))) in Hnil.
  revert Hnil. induction Hm as [| r b recs valid Hr _ IH]; simpl; intros Hnil.
  - constructor.
  - inversion Hnil as [| ? ? Hb Hrest]; subst. simpl in Hb.
    constructor; [| apply IH; exact Hrest].
    rewrite Hr. destruct b; [reflexivity | discriminate Hb].
Qed.

Lemma invalid_rows_all_valid {A : Type} (check : fields -> result bool)
  (column : fields -> A) :
  forall recs, Forall (fun r => is_ok_true (check r) = true) recs ->
    exists valid, mapM check recs = Ok valid
                  /\ invalid_rows column recs valid = [].
Proof.
  induction recs as [| r recs IH]; intros H.
  - exists []; split; reflexivity.
  - inversion H as [| ? ? Hr Hrest]; subst.
    destruct (IH Hrest) as (valid & Hm & Hnil).
    destruct (check r) as [[|] | e] eqn:Hc; try discriminate Hr.
    exists (true :: valid); split.
    + simpl. rewrite Hc. simpl. rewrite Hm. reflexivity.
    + unfold invalid_rows, indexed in *. simpl.
      apply map_eq_nil' in Hnil.
      apply (filter_numbered_nil (fun y => negb (snd y))) in Hnil.
      rewrite (filter_numbered_all_false (fun y => negb (snd y))
                 (combine recs valid) 1 Hnil).
      reflexivity.
Qed.

Lemma select_rows_nil {A : Type} (mask : fields -> bool)
  (columns : fields -> A) (recs : list fields) :
  select_rows mask columns recs = [] ->
  Forall (fun r => mask r = false) recs.
Proof.
  unfold select_rows, indexed. intros H. apply map_eq_nil' in H.
  apply (filter_numbered_nil mask) in H. exact H.
Qed.

Lemma select_rows_none {A : Type} (mask : fields -> bool)
  (columns : fields -> A) (recs : list fields) :
  Forall (fun r => mask r = false) recs ->
  select_rows mask columns recs = [].
Proof.
  unfold select_rows, indexed. intros H.
  rewrite (filter_numbered_all_false mask recs 0 H). reflexivity.
Qed.

Lemma select_rows_lists {A : Type} (mask : fields -> bool)
  (columns : fields -> A) (recs : list fields) (i : nat) (r : fields) :
  nth_error recs i = Some r -> mask r = true ->
  In (i, columns r) (select_rows mask columns recs).
Proof.
  intros Hnth Hmask. unfold select_rows, indexed.
  apply (in_map (fun x => (fst x, columns (snd x))) _ (i, r)).
  apply filter_In. split; [| exact Hmask].
  apply (numbered_nth recs 0 i r Hnth).
Qed.

Lemma Forall2_nth_error {A B : Type} (R : A -> B -> Prop) :
  forall l l', Forall2 R l l' ->
  forall i a, nth_error l i = Some a ->
              exists b, nth_error l' i = Some b /\ R a b.
Proof.
  induction 1 as [| x y l l' Hxy _ IH]; intros i a Hi.
  - destruct i; discriminate Hi.
  - destruct i as [| i]; simpl in Hi.
    + injection Hi as <-. exists y; split; [reflexivity | exact Hxy].
    + apply IH; exact Hi.
Qed.

Lemma Forall2_in_l {A B : Type} (R : A -> B -> Prop) :
  forall l l', Forall2 R l l' ->
  forall a, In a l -> exists b, In b l' /\ R a b.
Proof.
  induction 1 as [| x y l l' Hxy _ IH]; intros a Ha; [destruct Ha |].
  destruct Ha as [<- | Ha].
  - exists y; split; [left; reflexivity | exact Hxy].
  - destruct (IH a Ha) as (b & Hb & Hab).
    exists b; split; [right; exact Hb | exact Hab].
Qed.

Lemma Forall2_in_r {A B : Type} (R : A -> B -> Prop) :
  forall l l', Forall2 R l l' ->
  forall b, In b l' -> exists a, In a l /\ R a b.
Proof.
  induction 1 as [| x y l l' Hxy _ IH]; intros b Hb; [destruct Hb |].
  destruct Hb as [<- | Hb].
  - exists x; split; [left; reflexivity | exact Hxy].
  - destruct (IH b Hb) as (a & Ha & Hab).
    exists a; split; [right; exact Ha | exact Hab].
Qed.

(** ** The table *)

Lemma insert_appends st f c u st' :
  insert st f c u = Ok st' ->
  not_null_ok f = true
  /\ rows st' = rows st ++ [ {| id := next_id st; data := stored f;
                                created_at := c; updated_at := u |} ]
  /\ next_id st' = next_id st + 1
  /\ binds_all f = true.
Proof.
  unfold insert. destruct (binds_all f); simpl; [| discriminate].
  destruct (not_null_ok f); [| discriminate].
  intros H. injection H as <-. simpl. auto.
Qed.

(** [executemany] appends one row per tuple, in order, and nothing else. *)
Lemma executemany_appends :
  forall csv_data st st',
    executemany st csv_data = Ok st' ->
    exists new,
      rows st' = rows st ++ new
      /\ Forall2 (fun d h => data h = stored (fst (fst d))
                             /\ created_at h = snd (fst d)
                             /\ updated_at h = snd d
                             /\ not_null_ok (fst (fst d)) = true
                             /\ binds_all (fst (fst d)) = true)
                 csv_data new.
Proof.
  induction csv_data as [| [[f c] u] rest IH]; simpl; intros st st' H.
  - injection H as <-. exists []. rewrite app_nil_r. split; [reflexivity | constructor].
  - apply bind_ok in H as (st1 & Hins & H).
    apply insert_appends in Hins as (Hnn & Hrows & _ & Hbind).
    destruct (IH st1 st' H) as (new & Hrows' & Hall).
    eexists (_ :: new). split.
    + rewrite Hrows', Hrows, <- app_assoc. reflexivity.
    + constructor; [simpl; auto | exact Hall].
Qed.

Lemma executemany_all_filled :
  forall csv_data st,
    Forall (fun d => not_null_ok (fst (fst d)) = true
                     /\ binds_all (fst (fst d)) = true) csv_data ->
    exists st', executemany st csv_data = Ok st'.
Proof.
  induction csv_data as [| [[f c] u] rest IH]; simpl; intros st H.
  - exists st; reflexivity.
  - inversion H as [| ? ? [Hf Hb] Hrest]; subst. simpl in Hf, Hb.
    unfold insert. rewrite Hb, Hf. simpl. apply IH; exact Hrest.
Qed.

(** ** The import pipeline *)

Lemma numeric_row_spec r r' :
  numeric_row r = Ok r' ->
  to_numeric (adults r) = Ok (adults r')
  /\ to_numeric (children r) = Ok (children r')
  /\ boolean_row r' =
     {| address := address r; adults := adults r'; children := children r';
        pets := pets (boolean_row r); dogs := dogs (boolean_row r);
        critical_meds := critical_meds (boolean_row r);
        meds_need_refrigerated := meds_need_refrigerated (boolean_row r);
        has_special_needs := has_special_needs (boolean_row r);
        has_propane_tank := has_propane_tank (boolean_row r);
        has_natural_gas := has_natural_gas (boolean_row r);
        phone := phone r; email := email r;
        has_medical_training := has_medical_training (boolean_row r);
        know_neighbors := know_neighbors (boolean_row r);
        has_neighbors_key := has_neighbors_key (boolean_row r);
        wants_newsletter := wants_newsletter (boolean_row r);
        can_cert_contact := can_cert_contact (boolean_row r) |}.
Proof.
  unfold numeric_row. intros H.
  apply bind_ok in H as (a & Ha & H). apply bind_ok in H as (c & Hc & H).
  injection H as <-. simpl. auto.
Qed.

Lemma numeric_row_conditionals r r' :
  numeric_row r = Ok r' ->
  dogs_without_pets (boolean_row r') = dogs_without_pets (boolean_row r)
  /\ refrigerated_without_meds (boolean_row r')
     = refrigerated_without_meds (boolean_row r).
Proof.
  intros H. apply numeric_row_spec in H as (_ & _ & ->). split; reflexivity.
Qed.

Lemma numeric_row_ok r :
  is_ok (numeric_row r) = passes_integers r.
Proof.
  unfold numeric_row, passes_integers.
  destruct (to_numeric (adults r)); simpl; [| reflexivity].
  destruct (to_numeric (children r)); reflexivity.
Qed.

(** Whatever [finish_import] answers other than success, the table is the
    one it was given. *)
Lemma finish_import_keeps st converted ts :
  fst (finish_import st converted ts) <> Done ->
  snd (finish_import st converted ts) = st.
Proof.
  unfold finish_import.
  repeat match goal with
         | |- context [if ?b then _ else _] => destruct b
         | |- context [match ?m with Ok _ => _ | Raise _ => _ end] => destruct m
         end; simpl; intros H; try reflexivity.
  contradiction H; reflexivity.
Qed.

Lemma import_frame_keeps st input_df ts :
  fst (import_frame st input_df ts) <> Done ->
  snd (import_frame st input_df ts) = st.
Proof.
  unfold import_frame.
  repeat match goal with
         | |- context [if ?b then _ else _] => destruct b
         | |- context [match ?m with Ok _ => _ | Raise _ => _ end] => destruct m
         end; simpl; intros H; try reflexivity.
  apply finish_import_keeps; exact H.
Qed.

Lemma finish_import_done st converted ts st' :
  finish_import st converted ts = (Done, st') ->
  Forall (fun r => dogs_without_pets r = false) converted
  /\ Forall (fun r => refrigerated_without_meds r = false) converted
  /\ executemany st (map (fun r => (r, ts, ts)) converted) = Ok st'.
Proof.
  unfold finish_import.
  destruct (is_nil (select_rows dogs_without_pets _ converted)) eqn:Hd;
    simpl; [| discriminate].
  destruct (is_nil (select_rows refrigerated_without_meds _ converted)) eqn:Hm;
    simpl; [| discriminate].
  destruct (executemany st _) as [st1 | e] eqn:He; [| discriminate].
  intros H. injection H as <-.
  apply is_nil_true in Hd, Hm.
  split; [eapply select_rows_nil; exact Hd |].
  split; [eapply select_rows_nil; exact Hm | reflexivity].
Qed.

(** A successful import went through every stage. *)
Lemma import_frame_done st input_df ts st' :
  import_frame st input_df ts = (Done, st') ->
  missing_columns_of input_df = []
  /\ Forall (fun r => row_passes r = true) (raw_rows input_df)
  /\ exists numeric,
       Forall2 (fun r r' => numeric_row r = Ok r') (raw_rows input_df) numeric
       /\ executemany st (map (fun r => (r, ts, ts)) (map boolean_row numeric))
          = Ok st'.
Proof.
  unfold import_frame.
  destruct (is_nil (missing_columns_of input_df)) eqn:Hmiss;
    simpl; [| discriminate].
  destruct (mapM _ (raw_rows input_df)) as [va | e] eqn:Ha; [| discriminate].
  destruct (is_nil (invalid_rows address _ va)) eqn:Hia; simpl; [| discriminate].
  destruct (mapM (fun r => validate_phone (phone r)) (raw_rows input_df))
    as [vp | e] eqn:Hp; [| discriminate].
  destruct (is_nil (invalid_rows phone _ vp)) eqn:Hip; simpl; [| discriminate].
  destruct (mapM (fun r => validate_email (email r)) (raw_rows input_df))
    as [ve | e] eqn:He; [| discriminate].
  destruct (is_nil (invalid_rows email _ ve)) eqn:Hie; simpl; [| discriminate].
  destruct (mapM numeric_row (raw_rows input_df)) as [numeric | e] eqn:Hn;
    [| discriminate].
  intros H. apply finish_import_done in H as (Hd & Hm & Hex).
  apply is_nil_true in Hmiss, Hia, Hip, Hie.
  pose proof (invalid_rows_nil _ _ _ _ Ha Hia) as Fa.
  pose proof (invalid_rows_nil _ _ _ _ Hp Hip) as Fp.
  pose proof (invalid_rows_nil _ _ _ _ He Hie) as Fe.
  apply mapM_ok_Forall2 in Hn.
  split; [exact Hmiss |]. split; [| exists numeric; split; assumption].
  rewrite Forall_forall in *. intros r Hr.
  destruct (Forall2_in_l _ _ _ Hn r Hr) as (r' & Hr' & Hnum).
  pose proof (numeric_row_conditionals r r' Hnum) as [Hcd Hcm].
  unfold row_passes, passes_formats, passes_conditionals.
  rewrite (Fa r Hr), (Fp r Hr), (Fe r Hr), <- numeric_row_ok, Hnum.
  rewrite <- Hcd, <- Hcm.
  rewrite (Hd (boolean_row r')), (Hm (boolean_row r'));
    try (apply in_map; exact Hr').
  reflexivity.
Qed.

Lemma passes_formats_split r :
  passes_formats r = true ->
  is_ok_true (validate_address (address r)) = true
  /\ is_ok_true (validate_phone (phone r)) = true
  /\ is_ok_true (validate_email (email r)) = true.
Proof.
  unfold passes_formats. intros H.
  apply andb_prop in H as [H He]. apply andb_prop in H as [Ha Hp]. auto.
Qed.

(** When the columns are there and every row passes the format and the
    integer stages, the import is decided by its last part. *)
Lemma import_frame_reaches_checks st input_df ts :
  missing_columns_of input_df = [] ->
  Forall (fun r => passes_formats r = true) (raw_rows input_df) ->
  Forall (fun r => passes_integers r = true) (raw_rows input_df) ->
  exists numeric,
    Forall2 (fun r r' => numeric_row r = Ok r') (raw_rows input_df) numeric
    /\ import_frame st input_df ts
       = finish_import st (map boolean_row numeric) ts.
Proof.
  intros Hmiss Hf Hi. unfold import_frame. rewrite Hmiss. simpl.
  assert (Fa : Forall (fun r => is_ok_true (validate_address (address r)) = true)
                      (raw_rows input_df)).
  { eapply Forall_impl; [| exact Hf]. intros r Hr.
    apply passes_formats_split in Hr. tauto. }
  assert (Fp : Forall (fun r => is_ok_true (validate_phone (phone r)) = true)
                      (raw_rows input_df)).
  { eapply Forall_impl; [| exact Hf]. intros r Hr.
    apply passes_formats_split in Hr. tauto. }
  assert (Fe : Forall (fun r => is_ok_true (validate_email (email r)) = true)
                      (raw_rows input_df)).
  { eapply Forall_impl; [| exact Hf]. intros r Hr.
    apply passes_formats_split in Hr. tauto. }
  destruct (invalid_rows_all_valid (fun r => validate_address (address r))
              address _ Fa) as (va & -> & ->).
  destruct (invalid_rows_all_valid (fun r => validate_phone (phone r))
              phone _ Fp) as (vp & -> & ->).
  destruct (invalid_rows_all_valid (fun r => validate_email (email r))
              email _ Fe) as (ve & -> & ->).
  simpl.
  assert (Fn : Forall (fun r => is_ok (numeric_row r) = true)
                      (raw_rows input_df)).
  { eapply Forall_impl; [| exact Hi]. intros r Hr.
    rewrite numeric_row_ok. exact Hr. }
  destruct (mapM_all_ok numeric_row _ Fn) as (numeric & Hn).
  rewrite Hn. exists numeric. split; [| reflexivity].
  apply mapM_ok_Forall2; exact Hn.
Qed.

Lemma import_csv_reads st line read_csv ts input_df :
  is_blank (strip line) = false ->
  read_csv (strip line) = Some input_df ->
  import_csv st line read_csv ts = import_frame st input_df ts.
Proof.
  intros Hb Hr. unfold import_csv. rewrite Hb, Hr. reflexivity.
Qed.

(** Unless it reports success, [import_csv] leaves the table as it was. *)
Lemma import_csv_keeps st line read_csv ts :
  fst (import_csv st line read_csv ts) <> Done ->
  snd (import_csv st line read_csv ts) = st.
Proof.
  unfold import_csv.
  destruct (is_blank (strip line)); [reflexivity |].
  destruct (read_csv (strip line)); [| reflexivity].
  apply import_frame_keeps.
Qed.

Lemma map_dict_range k :
  map_dict BOOLEAN_MAP k = VInt 1 \/ map_dict BOOLEAN_MAP k = VInt 0
  \/ map_dict BOOLEAN_MAP k = VNull.
Proof.
  unfold map_dict, BOOLEAN_MAP. simpl.
  repeat match goal with
         | |- context [String.eqb k ?t] => destruct (String.eqb k t)
         end; auto.
Qed.

(** [boolean_converter] always produces a value: 1, 0 or null. *)
Lemma boolean_converter_range c :
  boolean_converter c = VInt 1 \/ boolean_converter c = VInt 0
  \/ boolean_converter c = VNull.
Proof.
  destruct c; simpl; auto using map_dict_range.
Qed.

Lemma filled_ok m v : m = Ok v -> filled m = true -> notna v = true.
Proof. intros -> H. exact H. Qed.

Lemma filled_back m v : m = Ok v -> notna v = true -> filled m = true.
Proof. intros -> H. exact H. Qed.

Lemma row_passes_split r :
  row_passes r = true ->
  passes_formats r = true /\ passes_integers r = true
  /\ dogs_without_pets (boolean_row r) = false
  /\ refrigerated_without_meds (boolean_row r) = false.
Proof.
  unfold row_passes, passes_conditionals. intros H.
  apply andb_prop in H as [H Hc]. apply andb_prop in H as [Hf Hi].
  apply andb_prop in Hc as [Hd Hm].
  apply negb_true_iff in Hd, Hm. auto.
Qed.

Lemma filled_row r r' :
  numeric_row r = Ok r' ->
  passes_formats r = true ->
  required_filled r = true ->
  not_null_ok (boolean_row r') = true.
Proof.
  intros Hn Hf Hq.
  apply numeric_row_spec in Hn as (Ha & Hc & ->).
  apply passes_formats_split in Hf as (Haddr & _ & _).
  unfold required_filled in Hq.
  repeat match type of Hq with
         | (_ && _)%bool = true => apply andb_prop in Hq as [Hq ?]
         end.
  unfold not_null_ok; simpl.
  rewrite (filled_ok _ _ Ha), (filled_ok _ _ Hc) by assumption.
  destruct (address r); try discriminate Haddr. simpl.
  repeat match goal with
         | H : notna ?x = true |- context [notna ?x] => rewrite H
         end.
  reflexivity.
Qed.

Lemma binds_converted c : binds (boolean_converter c) = true.
Proof.
  destruct (boolean_converter_range c) as [-> | [-> | ->]]; reflexivity.
Qed.

Lemma integer_affinity_converted c :
  integer_affinity (boolean_converter c) = boolean_converter c.
Proof.
  destruct (boolean_converter_range c) as [-> | [-> | ->]]; reflexivity.
Qed.

Lemma validated_phone_binds v : validate_phone v = Ok true -> binds v = true.
Proof.
  destruct v; try reflexivity. unfold validate_phone. simpl. discriminate.
Qed.

Lemma validated_email_binds v : validate_email v = Ok true -> binds v = true.
Proof.
  destruct v; try reflexivity. unfold validate_email. simpl. discriminate.
Qed.

Lemma is_ok_true_eq (m : result bool) : is_ok_true m = true -> m = Ok true.
Proof. destruct m as [[|] | e]; simpl; intros H; try discriminate H; reflexivity. Qed.

(** A row that passed the format stage and whose counts can be bound is
    bound as a whole. *)
Lemma bound_row r r' :
  numeric_row r = Ok r' ->
  passes_formats r = true ->
  counts_bind r = true ->
  binds_all (boolean_row r') = true.
Proof.
  intros Hn Hf Hb.
  apply numeric_row_spec in Hn as (Ha & Hc & ->).
  apply passes_formats_split in Hf as (Haddr & Hp & He).
  apply is_ok_true_eq in Hp, He.
  unfold counts_bind in Hb. rewrite Ha, Hc in Hb.
  apply andb_prop in Hb as [Hba Hbc].
  unfold binds_all; simpl.
  rewrite Hba, Hbc, !binds_converted,
    (validated_phone_binds _ Hp), (validated_email_binds _ He).
  destruct (address r); try discriminate Haddr. reflexivity.
Qed.

Lemma bound_row_back r r' :
  numeric_row r = Ok r' ->
  binds_all (boolean_row r') = true ->
  counts_bind r = true.
Proof.
  intros Hn Hb.
  apply numeric_row_spec in Hn as (Ha & Hc & Hrow).
  rewrite Hrow in Hb. unfold binds_all in Hb. simpl in Hb.
  repeat match type of Hb with
         | (_ && _)%bool = true => apply andb_prop in Hb as [Hb ?]
         end.
  unfold counts_bind. rewrite Ha, Hc.
  apply andb_true_intro; split; assumption.
Qed.

(** What [INSERT] keeps of a converted row. *)
Lemma stored_boolean_row r r' :
  numeric_row r = Ok r' ->
  stored (boolean_row r') = persisted r (adults r') (children r').
Proof.
  intros Hn. apply numeric_row_spec in Hn as (_ & _ & ->).
  unfold stored, persisted. simpl.
  rewrite !integer_affinity_converted. reflexivity.
Qed.

Lemma persists_rows ts :
  forall raw numeric new,
    Forall2 (fun r r' => numeric_row r = Ok r') raw numeric ->
    Forall2 (fun (d : fields * Z * Z) h =>
               data h = stored (fst (fst d))
               /\ created_at h = snd (fst d)
               /\ updated_at h = snd d
               /\ not_null_ok (fst (fst d)) = true
               /\ binds_all (fst (fst d)) = true)
            (map (fun r => (r, ts, ts)) (map boolean_row numeric)) new ->
    Forall2 (persists ts) raw new.
Proof.
  intros raw numeric new Hnum. revert new.
  induction Hnum as [| r r' raw numeric Hr _ IH]; intros new Hnew;
    simpl in Hnew; inversion Hnew as [| d h ds hs Hh Hrest]; subst;
    constructor.
  - destruct Hh as (Hdata & Hc & Hu & _). simpl in Hdata, Hc, Hu.
    pose proof (numeric_row_spec r r' Hr) as (Ha & Hch & _).
    exists (adults r'), (children r').
    rewrite Hdata, (stored_boolean_row r r' Hr). auto.
  - apply IH; exact Hrest.
Qed.

(** The rows a successful import appends: one per row of the file, in
    order, each persisted at the time stamp of the import. *)
Lemma import_frame_persists st input_df ts st' :
  import_frame st input_df ts = (Done, st') ->
  exists new,
    rows st' = rows st ++ new
    /\ Forall2 (persists ts) (raw_rows input_df) new.
Proof.
  intros H.
  apply import_frame_done in H as (_ & _ & numeric & Hnum & Hex).
  apply executemany_appends in Hex as (new & Hrows & Hnew).
  exists new. split; [exact Hrows |].
  eapply persists_rows; eassumption.
Qed.

(** The converse of [import_frame_done]: a batch with its columns, whose
    rows pass every stage, have their required cells filled and have
    counts that can be bound, is persisted, one row per row of the
    file. *)
Lemma import_frame_succeeds st input_df ts :
  missing_columns_of input_df = [] ->
  Forall (fun r => row_passes r = true) (raw_rows input_df) ->
  Forall (fun r => required_filled r = true) (raw_rows input_df) ->
  Forall (fun r => counts_bind r = true) (raw_rows input_df) ->
  exists st' new,
    import_frame st input_df ts = (Done, st')
    /\ rows st' = rows st ++ new
    /\ Forall2 (persists ts) (raw_rows input_df) new.
Proof.
  intros Hmiss Hall Hfilled Hbind.
  assert (Hf : Forall (fun r => passes_formats r = true) (raw_rows input_df)).
  { eapply Forall_impl; [| exact Hall]. intros r Hr.
    apply row_passes_split in Hr. tauto. }
  assert (Hi : Forall (fun r => passes_integers r = true) (raw_rows input_df)).
  { eapply Forall_impl; [| exact Hall]. intros r Hr.
    apply row_passes_split in Hr. tauto. }
  destruct (import_frame_reaches_checks st input_df ts Hmiss Hf Hi)
    as (numeric & Hnum & E).
  rewrite Forall_forall in Hall, Hfilled, Hf, Hbind.
  assert (Hd : Forall (fun r => dogs_without_pets r = false)
                      (map boolean_row numeric)).
  { rewrite Forall_forall. intros x Hx.
    apply in_map_iff in Hx as (r' & <- & Hr').
    destruct (Forall2_in_r _ _ _ Hnum r' Hr') as (r & Hr & Hrr').
    apply numeric_row_conditionals in Hrr' as [-> _].
    destruct (row_passes_split r (Hall r Hr)) as (_ & _ & Hx & _). exact Hx. }
  assert (Hm : Forall (fun r => refrigerated_without_meds r = false)
                      (map boolean_row numeric)).
  { rewrite Forall_forall. intros x Hx.
    apply in_map_iff in Hx as (r' & <- & Hr').
    destruct (Forall2_in_r _ _ _ Hnum r' Hr') as (r & Hr & Hrr').
    apply numeric_row_conditionals in Hrr' as [_ ->].
    destruct (row_passes_split r (Hall r Hr)) as (_ & _ & _ & Hx). exact Hx. }
  assert (Hnn : Forall (fun d => not_null_ok (fst (fst d)) = true
                                 /\ binds_all (fst (fst d)) = true)
                       (map (fun r => (r, ts, ts)) (map boolean_row numeric))).
  { rewrite Forall_forall. intros d Hd'.
    apply in_map_iff in Hd' as (x & <- & Hx).
    apply in_map_iff in Hx as (r' & <- & Hr'). simpl.
    destruct (Forall2_in_r _ _ _ Hnum r' Hr') as (r & Hr & Hrr').
    split.
    - apply (filled_row r r' Hrr'); [apply Hf | apply Hfilled]; exact Hr.
    - apply (bound_row r r' Hrr'); [apply Hf | apply Hbind]; exact Hr. }
  destruct (executemany_all_filled _ st Hnn) as (st' & Hex).
  assert (Hdone : import_frame st input_df ts = (Done, st')).
  { rewrite E. unfold finish_import.
    rewrite (select_rows_none _ _ _ Hd), (select_rows_none _ _ _ Hm). simpl.
    rewrite Hex. reflexivity. }
  exists st'. destruct (import_frame_persists _ _ _ _ Hdone) as (new & Hrows & Hnew).
  exists new. auto.
Qed.

Lemma import_frame_rejects_failing st input_df ts :
  fails_validation input_df ->
  fst (import_frame st input_df ts) <> Done.
Proof.
  intros Hfail H.
  destruct (import_frame st input_df ts) as [o s] eqn:E. simpl in H. subst o.
  apply import_frame_done in E as (Hmiss & Hall & _).
  destruct Hfail as [Hm | (r & Hin & Hr)].
  - apply Hm; exact Hmiss.
  - rewrite Forall_forall in Hall. rewrite (Hall r Hin) in Hr. discriminate Hr.
Qed.

(** C4.  Batch import is all-or-nothing.  For every batch read from the
    file: if a required column is missing or some row fails a validation
    stage (address, phone or email format, integer coercion, conditional
    checks), the import does not succeed and the table is exactly what it
    was, so no row is persisted and the record count is unchanged; and
    when the import succeeds, no column is missing, every row passed every
    stage, and the table has grown by exactly one row per row of the
    batch, in the order of the batch: the row of the table holds the
    address, phone and email of the row of the file, its two counts as
    numbers and its yes/no cells converted, with [created_at] and
    [updated_at] equal to the single time stamp of the import. *)
Theorem import_csv_all_or_nothing :
  forall st line read_csv ts input_df,
    is_blank (strip line) = false ->
    read_csv (strip line) = Some input_df ->
    (fails_validation input_df ->
       fst (import_csv st line read_csv ts) <> Done
       /\ snd (import_csv st line read_csv ts) = st
       /\ List.length (rows (snd (import_csv st line read_csv ts)))
          = List.length (rows st))
    /\ (fst (import_csv st line read_csv ts) = Done ->
          missing_columns_of input_df = []
          /\ Forall (fun r => row_passes r = true) (raw_rows input_df)
          /\ exists new,
               rows (snd (import_csv st line read_csv ts)) = rows st ++ new
               /\ List.length new = List.length (df_rows input_df)
               /\ Forall (fun h => created_at h = ts /\ updated_at h = ts)
                         new
               /\ Forall2 (persists ts) (raw_rows input_df) new).
Proof.
  intros st line read_csv ts input_df Hb Hr.
  rewrite (import_csv_reads st line read_csv ts input_df Hb Hr).
  split.
  - intros Hfail.
    pose proof (import_frame_rejects_failing st input_df ts Hfail) as Hnot.
    split; [exact Hnot |].
    rewrite (import_frame_keeps st input_df ts Hnot). split; reflexivity.
  - intros H.
    destruct (import_frame st input_df ts) as [o st'] eqn:E.
    simpl in H. subst o. simpl.
    destruct (import_frame_done _ _ _ _ E) as (Hmiss & Hall & _).
    destruct (import_frame_persists _ _ _ _ E) as (new & Hrows & Hnew).
    split; [exact Hmiss |]. split; [exact Hall |].
    exists new. split; [exact Hrows |]. split.
    + rewrite <- (Forall2_length Hnew). unfold raw_rows. apply length_map.
    + split; [| exact Hnew].
      rewrite Forall_forall. intros h Hh.
      destruct (Forall2_in_r _ _ _ Hnew h Hh)
        as (r & _ & a & c & _ & _ & _ & Hc & Hu).
      auto.
Qed.

(** C8.  Importing a file with a row whose pets cell reads as false (no)
    and whose dogs cell reads as true (yes) never succeeds and leaves the
    table as it was; and when the file has its columns and its rows pass
    the format and integer stages, so that the import reaches the
    conditional checks, the answer is the dogs-without-pets notice, whose
    listing has that row under its index with its pair of cells
    (pets, dogs) = (0, 1). *)
Theorem import_csv_dogs_without_pets :
  forall st line read_csv ts input_df i r,
    is_blank (strip line) = false ->
    read_csv (strip line) = Some input_df ->
    nth_error (raw_rows input_df) i = Some r ->
    boolean_converter (pets r) = VInt 0 ->
    boolean_converter (dogs r) = VInt 1 ->
    (fst (import_csv st line read_csv ts) <> Done
     /\ snd (import_csv st line read_csv ts) = st)
    /\ (missing_columns_of input_df = [] ->
        Forall (fun r => passes_formats r = true) (raw_rows input_df) ->
        Forall (fun r => passes_integers r = true) (raw_rows input_df) ->
        exists invalid,
          import_csv st line read_csv ts
          = (Rejected (DogsWithoutPets invalid), st)
          /\ In (i, (VInt 0, VInt 1)) invalid).
Proof.
  intros st line read_csv ts input_df i r Hb Hread Hnth Hp Hd.
  rewrite (import_csv_reads st line read_csv ts input_df Hb Hread).
  assert (Hmask : dogs_without_pets (boolean_row r) = true).
  { unfold dogs_without_pets. simpl. rewrite Hp, Hd. reflexivity. }
  split.
  - assert (Hnot : fst (import_frame st input_df ts) <> Done).
    { apply import_frame_rejects_failing. right. exists r. split.
      - eapply nth_error_In; exact Hnth.
      - unfold row_passes, passes_conditionals. rewrite Hmask.
        simpl. apply andb_false_r. }
    split; [exact Hnot | apply import_frame_keeps; exact Hnot].
  - intros Hmiss Hf Hi.
    destruct (import_frame_reaches_checks st input_df ts Hmiss Hf Hi)
      as (numeric & Hnum & ->).
    destruct (Forall2_nth_error _ _ _ Hnum i r Hnth) as (r' & Hnth' & Hrr').
    pose proof (numeric_row_conditionals r r' Hrr') as [Hcd _].
    pose proof (numeric_row_spec r r' Hrr') as (_ & _ & Hrow).
    assert (Hin : In (i, (VInt 0, VInt 1))
                     (select_rows dogs_without_pets (fun x => (pets x, dogs x))
                        (map boolean_row numeric))).
    { assert (Heq : (pets (boolean_row r'), dogs (boolean_row r'))
                    = (VInt 0, VInt 1)).
      { rewrite Hrow. simpl. rewrite Hp, Hd. reflexivity. }
      rewrite <- Heq.
      apply (select_rows_lists dogs_without_pets (fun x => (pets x, dogs x))
               (map boolean_row numeric) i (boolean_row r')).
      - apply map_nth_error; exact Hnth'.
      - rewrite Hcd; exact Hmask. }
    unfold finish_import.
    destruct (select_rows dogs_without_pets _ (map boolean_row numeric))
      as [| x invalid] eqn:E; [destruct Hin |].
    simpl. exists (x :: invalid). split; [reflexivity | exact Hin].
Qed.

(** ** [boolean_converter] *)

Lemma map_dict_unknown k :
  str_in k (map fst BOOLEAN_MAP) = false -> map_dict BOOLEAN_MAP k = VNull.
Proof.
  unfold map_dict, BOOLEAN_MAP. simpl.
  repeat match goal with
         | |- context [String.eqb k ?t] => destruct (String.eqb k t)
         end; simpl; intros H; try discriminate H; reflexivity.
Qed.

(** A token that is not a key of the table is converted to null, like a
    blank cell; no error is produced. *)
Lemma boolean_converter_unknown s :
  str_in (lower (strip s)) (map fst BOOLEAN_MAP) = false ->
  boolean_converter (VText s) = VNull.
Proof. simpl. apply map_dict_unknown. Qed.

Lemma boolean_converter_true s :
  str_in (lower (strip s)) ["yes"; "y"; "true"; "1"] = true ->
  boolean_converter (VText s) = VInt 1.
Proof.
  simpl. unfold map_dict, BOOLEAN_MAP. simpl.
  repeat match goal with
         | |- context [String.eqb ?k ?t] => destruct (String.eqb k t)
         end; simpl; intros H; try discriminate H; reflexivity.
Qed.

Lemma boolean_converter_false s :
  str_in (lower (strip s)) ["no"; "n"; "false"; "0"] = true ->
  boolean_converter (VText s) = VInt 0.
Proof.
  simpl. unfold map_dict, BOOLEAN_MAP. simpl.
  destruct (String.eqb (lower (strip s)) "yes") eqn:E1;
    [apply String.eqb_eq in E1; rewrite E1; discriminate |].
  destruct (String.eqb (lower (strip s)) "y") eqn:E2;
    [apply String.eqb_eq in E2; rewrite E2; discriminate |].
  destruct (String.eqb (lower (strip s)) "true") eqn:E3;
    [apply String.eqb_eq in E3; rewrite E3; discriminate |].
  destruct (String.eqb (lower (strip s)) "1") eqn:E4;
    [apply String.eqb_eq in E4; rewrite E4; discriminate |].
  repeat match goal with
         | |- context [String.eqb ?k ?t] => destruct (String.eqb k t)
         end; simpl; intros H; try discriminate H; reflexivity.
Qed.

(** C2.  At the token [maybe], which is none of yes/y/true/1, no/n/false/0,
    the empty text or nan, [boolean_converter] answers null, the value it
    gives a blank cell, and not an error; and a file whose wants_newsletter
    cell holds that token is imported, the cell being stored as null. *)
Theorem boolean_converter_unknown_token_is_null :
  boolean_converter (VText "maybe") = VNull
  /\ exists h,
       import_csv empty_store "batch.csv"
         (reads (sample_frame [odd_token_row])) 100
       = (Done, {| rows := [h]; next_id := 2 |})
       /\ wants_newsletter (data h) = VNull.
Proof.
  split; [reflexivity |].
  eexists. split; [vm_compute; reflexivity | reflexivity].
Qed.

(** ** The conditional checks of the import *)

(** C3, as the code has it.  The conditional checks of the import reject a
    row only for a trigger that is false with a dependent field that is
    not null; a row whose trigger is true passes them whether or not its
    dependent field is null.  A batch with all its columns, whose rows
    pass the format and integer stages, have their required cells filled,
    have counts that fit in 64 bits and, for each pair, have the trigger
    true or the dependent field null, is persisted in full: the table
    grows by one row per row of the file, in order, each holding the
    texts, the counts and the converted yes/no cells of its row of the
    file, among them the true trigger and the null dependent field. *)
Theorem import_csv_true_trigger_unconstrained :
  forall st line read_csv ts input_df,
    is_blank (strip line) = false ->
    read_csv (strip line) = Some input_df ->
    missing_columns_of input_df = [] ->
    Forall (fun r => passes_formats r = true /\ passes_integers r = true
                     /\ required_filled r = true /\ counts_bind r = true)
           (raw_rows input_df) ->
    Forall (fun r =>
              (boolean_converter (pets r) = VInt 1
               \/ boolean_converter (dogs r) = VNull)
              /\ (boolean_converter (critical_meds r) = VInt 1
                  \/ boolean_converter (meds_need_refrigerated r) = VNull))
           (raw_rows input_df) ->
    exists st' new,
      import_csv st line read_csv ts = (Done, st')
      /\ rows st' = rows st ++ new
      /\ List.length new = List.length (df_rows input_df)
      /\ Forall2 (persists ts) (raw_rows input_df) new.
Proof.
  intros st line read_csv ts input_df Hb Hread Hmiss Hstages Hcond.
  rewrite (import_csv_reads st line read_csv ts input_df Hb Hread).
  rewrite Forall_forall in Hstages, Hcond.
  destruct (import_frame_succeeds st input_df ts Hmiss)
    as (st' & new & Hdone & Hrows & Hnew).
  - rewrite Forall_forall; intros r Hr.
    destruct (Hstages r Hr) as (Hf & Hi & Hq & _).
    destruct (Hcond r Hr) as [Hd Hm].
    unfold row_passes, passes_conditionals,
      dogs_without_pets, refrigerated_without_meds.
    rewrite Hf, Hi. simpl.
    assert (E1 : (eq_int (boolean_converter (pets r)) 0
                  && notna (boolean_converter (dogs r)))%bool = false).
    { destruct Hd as [-> | ->]; [reflexivity | apply andb_false_r]. }
    assert (E2 : (eq_int (boolean_converter (critical_meds r)) 0
                  && notna (boolean_converter (meds_need_refrigerated r)))%bool
                 = false).
    { destruct Hm as [-> | ->]; [reflexivity | apply andb_false_r]. }
    rewrite E1, E2. reflexivity.
  - rewrite Forall_forall; intros r Hr. apply (Hstages r Hr).
  - rewrite Forall_forall; intros r Hr. apply (Hstages r Hr).
  - exists st', new. split; [exact Hdone |]. split; [exact Hrows |].
    split; [| exact Hnew].
    rewrite <- (Forall2_length Hnew). unfold raw_rows. apply length_map.
Qed.

(** C5.  A file whose adults cell is -3 and whose children cell is 2.5
    passes [pd.to_numeric] and is imported: the stored record has
    adults = -3 and children = 2.5, neither a non-negative integer. *)
Theorem import_csv_stores_negative_and_fractional_counts :
  exists h,
    import_csv empty_store "batch.csv"
      (reads (sample_frame [odd_counts_row])) 100
    = (Done, {| rows := [h]; next_id := 2 |})
    /\ adults (data h) = VInt (-3)
    /\ children (data h) = VReal (Finite (Qmake 25 10))
    /\ ~ nonneg_integer (adults (data h))
    /\ ~ nonneg_integer (children (data h)).
Proof.
  eexists. split; [vm_compute; reflexivity |]. simpl.
  split; [reflexivity |]. split; [reflexivity |]. split.
  - intros (z & Hz & Hpos). injection Hz as <-. lia.
  - intros (z & Hz & _). discriminate Hz.
Qed.

(** C6.  A file with every column, one of whose rows has a blank pets
    cell, passes every validation stage of [import_csv]; the blank cell
    is found by the NOT NULL constraint inside [executemany], and the
    import ends with an uncaught [IntegrityError] instead of a validation
    notice. *)
Theorem import_csv_blank_required_cell_reaches_insert :
  missing_columns_of (sample_frame [plain_row; blank_pets_row]) = []
  /\ Forall (fun r => row_passes r = true)
            (raw_rows (sample_frame [plain_row; blank_pets_row]))
  /\ import_csv empty_store "batch.csv"
       (reads (sample_frame [plain_row; blank_pets_row])) 100
     = (Uncaught IntegrityError, empty_store).
Proof.
  split; [reflexivity |]. split; [repeat constructor |].
  vm_compute. reflexivity.
Qed.

(** ** The prompt loop *)

Lemma is_digit_digit_val c : is_digit c = true -> 0 <= digit_val c.
Proof.
  unfold is_digit, in_range, digit_val. intros H.
  apply andb_prop in H as [H _]. apply N.leb_le in H. lia.
Qed.

Lemma digits_val_nonneg :
  forall s acc, 0 <= acc -> string_forallb is_digit s = true ->
                0 <= digits_val acc s.
Proof.
  induction s as [| c s IH]; cbn [digits_val string_forallb];
    intros acc Hacc H; [exact Hacc |].
  apply andb_prop in H as [Hc Hs]. apply IH; [| exact Hs].
  pose proof (is_digit_digit_val c Hc). lia.
Qed.

Lemma int_of_str_ok s z :
  int_of_str s = Ok z ->
  all_digits s = true
  /\ Z.of_nat (String.length s) <= max_str_digits
  /\ z = digits_val 0 s.
Proof.
  unfold int_of_str.
  destruct (all_digits s); simpl; [| discriminate].
  destruct (Z.leb (Z.of_nat (String.length s)) max_str_digits) eqn:E;
    [| discriminate].
  intros H. injection H as <-. apply Z.leb_le in E. auto.
Qed.

Lemma int_of_str_nonneg s z : int_of_str s = Ok z -> 0 <= z.
Proof.
  intros H. apply int_of_str_ok in H as (Hd & _ & ->).
  unfold all_digits in Hd. apply andb_prop in Hd as [_ Hd].
  apply digits_val_nonneg; [lia | exact Hd].
Qed.

Lemma is_blank_false s : is_blank s = false -> s <> EmptyString.
Proof.
  unfold is_blank. intros H ->. discriminate H.
Qed.

(** What [edit_prompt_and_validation] can return: the current value, and
    only when the field is not mandatory, or an answer of the asked
    type. *)
Lemma prompt_result :
  forall stdin prompt current vtype mandatory v rest,
    edit_prompt_and_validation prompt current vtype mandatory stdin
    = Ok (v, rest) ->
    (mandatory = false /\ v = current) \/ answer_of vtype v.
Proof.
  induction stdin as [| line stdin IH];
    intros prompt current vtype mandatory v rest H; [discriminate H |].
  cbn [edit_prompt_and_validation] in H.
  destruct vtype.
  - destruct (is_blank (lower (strip line))).
    + destruct mandatory; [eapply IH; exact H |].
      injection H as <- <-. left; auto.
    + destruct (str_in (lower (strip line)) ["yes"; "y"; "true"; "1"]).
      * injection H as <- <-. right; left; reflexivity.
      * destruct (str_in (lower (strip line)) ["no"; "n"; "false"; "0"]).
        -- injection H as <- <-. right; right; reflexivity.
        -- eapply IH; exact H.
  - destruct (is_blank (strip line)).
    + destruct mandatory; [eapply IH; exact H |].
      injection H as <- <-. left; auto.
    + destruct (isdigit (strip line)); [| eapply IH; exact H].
      apply bind_ok in H as (z & Hz & H). injection H as <- <-.
      right. exists z. split; [reflexivity | eapply int_of_str_nonneg; exact Hz].
  - destruct (is_blank (strip line)) eqn:Hbl.
    + destruct mandatory; [eapply IH; exact H |].
      injection H as <- <-. left; auto.
    + apply bind_ok in H as (a & _ & H).
      destruct (negb a); [eapply IH; exact H |].
      apply bind_ok in H as (p & _ & H).
      destruct (negb p); [eapply IH; exact H |].
      apply bind_ok in H as (e & _ & H).
      destruct (negb e); [eapply IH; exact H |].
      injection H as <- <-. right. exists (strip line).
      split; [reflexivity | apply is_blank_false; exact Hbl].
Qed.

(** A blank line at a prompt that is not mandatory: the current value is
    returned as it is. *)
Lemma prompt_blank_keeps prompt current vtype line rest :
  strip line = EmptyString ->
  edit_prompt_and_validation prompt current vtype false (line :: rest)
  = Ok (current, rest).
Proof.
  intros H. cbn [edit_prompt_and_validation]. rewrite H.
  destruct vtype; reflexivity.
Qed.

Lemma io_bind_ok {A B : Type} (m : io A) (k : A -> io B) stdin b rest :
  io_bind m k stdin = Ok (b, rest) ->
  exists a mid, m stdin = Ok (a, mid) /\ k a mid = Ok (b, rest).
Proof.
  unfold io_bind. destruct (m stdin) as [[a mid] | e]; [| discriminate].
  intros H. exists a, mid. split; [reflexivity | exact H].
Qed.

Ltac io_step H :=
  let a := fresh "v" in
  let mid := fresh "mid" in
  let Ha := fresh "Hv" in
  apply io_bind_ok in H as (a & mid & Ha & H).

(** The follow-up answer is null unless the trigger just collected
    equals 1. *)
Lemma follow_up_null (trigger : value) (ask : io value) stdin v rest :
  (if eq_int trigger 1 then ask else ret VNull) stdin = Ok (v, rest) ->
  eq_int trigger 1 = false -> v = VNull.
Proof.
  intros H E. rewrite E in H. injection H as <- _. reflexivity.
Qed.

Lemma edit_prompts_conditional series stdin r rest :
  edit_prompts series stdin = Ok (r, rest) ->
  (eq_int (pets r) 1 = false -> dogs r = VNull)
  /\ (eq_int (critical_meds r) 1 = false -> meds_need_refrigerated r = VNull).
Proof.
  unfold edit_prompts. intros H.
  do 17 io_step H. injection H as <- _. simpl.
  split; intros E; eapply follow_up_null; eassumption.
Qed.

Lemma add_prompts_conditional stdin r rest :
  add_prompts stdin = Ok (r, rest) ->
  (eq_int (pets r) 1 = false -> dogs r = VNull)
  /\ (eq_int (critical_meds r) 1 = false -> meds_need_refrigerated r = VNull).
Proof.
  unfold add_prompts. intros H.
  do 17 io_step H. injection H as <- _. simpl.
  split; intros E; eapply follow_up_null; eassumption.
Qed.

(** ** The conditional invariants *)

Lemma real_affinity_int q z :
  real_affinity q = VInt z ->
  Qnum q = z * Zpos (Qden q) /\ - 2 ^ 63 < z < 2 ^ 63 - 1.
Proof.
  unfold real_affinity.
  destruct (Z.eqb (Qnum q mod Zpos (Qden q)) 0
            && Z.ltb (- 2 ^ 63) (Qnum q / Zpos (Qden q))
            && Z.ltb (Qnum q / Zpos (Qden q)) (2 ^ 63 - 1))%bool eqn:E;
    [| discriminate].
  intros H. injection H as <-.
  apply andb_prop in E as [E Hhi]. apply andb_prop in E as [E Hlo].
  apply Z.eqb_eq in E. apply Z.ltb_lt in Hlo, Hhi.
  split; [| lia].
  rewrite (Z.div_mod (Qnum q) (Zpos (Qden q))) at 1 by lia. rewrite E. lia.
Qed.

Lemma real_affinity_cases q :
  (exists z, real_affinity q = VInt z) \/ real_affinity q = VReal (Finite q).
Proof.
  unfold real_affinity.
  destruct (Z.eqb (Qnum q mod Zpos (Qden q)) 0
            && Z.ltb (- 2 ^ 63) (Qnum q / Zpos (Qden q))
            && Z.ltb (Qnum q / Zpos (Qden q)) (2 ^ 63 - 1))%bool;
    [left; eexists; reflexivity | right; reflexivity].
Qed.

Lemma real_affinity_zero q :
  real_affinity q = VInt 0 -> Qeq_bool q (inject_Z 1) = false.
Proof.
  intros H. apply real_affinity_int in H as [H _].
  unfold Qeq_bool. simpl. rewrite H. reflexivity.
Qed.

(** A column that holds 0 was not given a value equal to 1. *)
Lemma integer_affinity_zero v :
  integer_affinity v = VInt 0 -> eq_int v 1 = false.
Proof.
  destruct v as [| z | [q | b] | s]; simpl; try discriminate; try reflexivity.
  - intros H. injection H as ->. reflexivity.
  - apply real_affinity_zero.
Qed.

Lemma cond_inv_stored_one f :
  (eq_int (pets f) 1 = false -> dogs f = VNull) ->
  (eq_int (critical_meds f) 1 = false -> meds_need_refrigerated f = VNull) ->
  cond_inv (stored f).
Proof.
  intros Hd Hm. split; simpl; intros H;
    apply integer_affinity_zero in H;
    [rewrite (Hd H) | rewrite (Hm H)]; reflexivity.
Qed.

Lemma mask_false_null trigger dependent :
  (eq_int trigger 0 && notna dependent)%bool = false ->
  eq_int trigger 0 = true -> dependent = VNull.
Proof.
  intros H E. rewrite E in H. destruct dependent; try discriminate H.
  reflexivity.
Qed.

Lemma import_frame_inv st input_df ts :
  store_inv st -> store_inv (snd (import_frame st input_df ts)).
Proof.
  intros Hinv.
  destruct (import_frame st input_df ts) as [o st'] eqn:E.
  destruct o.
  - apply import_frame_done in E as (_ & Hall & numeric & Hnum & Hex).
    apply executemany_appends in Hex as (new & Hrows & Hnew).
    simpl. unfold store_inv. rewrite Hrows. apply Forall_app. split; [exact Hinv |].
    rewrite Forall_forall in Hall |- *. intros h Hh.
    destruct (Forall2_in_r _ _ _ Hnew h Hh) as (d & Hd & Hdata & _).
    apply in_map_iff in Hd as (x & <- & Hx).
    apply in_map_iff in Hx as (r' & <- & Hr').
    destruct (Forall2_in_r _ _ _ Hnum r' Hr') as (r & Hr & Hrr').
    simpl in Hdata. rewrite Hdata, (stored_boolean_row r r' Hrr').
    destruct (row_passes_split r (Hall r Hr)) as (_ & _ & Hdw & Hrm).
    unfold dogs_without_pets, refrigerated_without_meds in Hdw, Hrm.
    simpl in Hdw, Hrm.
    split; simpl; intros H0;
      [ apply (mask_false_null _ _ Hdw) | apply (mask_false_null _ _ Hrm) ];
      rewrite H0; reflexivity.
  - replace st' with (snd (import_frame st input_df ts)) by (rewrite E; reflexivity).
    rewrite import_frame_keeps; [exact Hinv | rewrite E; discriminate].
  - replace st' with (snd (import_frame st input_df ts)) by (rewrite E; reflexivity).
    rewrite import_frame_keeps; [exact Hinv | rewrite E; discriminate].
Qed.

Lemma import_csv_inv st line read_csv ts :
  store_inv st -> store_inv (snd (import_csv st line read_csv ts)).
Proof.
  intros Hinv. unfold import_csv.
  destruct (is_blank (strip line)); [exact Hinv |].
  destruct (read_csv (strip line)); [| exact Hinv].
  apply import_frame_inv; exact Hinv.
Qed.

Lemma add_record_inv st stdin ts :
  store_inv st -> store_inv (snd (add_record st stdin ts)).
Proof.
  intros Hinv. unfold add_record.
  destruct (add_prompts stdin) as [[r rest] | e] eqn:E; [| exact Hinv].
  destruct (insert st r ts ts) as [st' | e] eqn:Hins; [| exact Hinv].
  apply insert_appends in Hins as (_ & Hrows & _).
  simpl. unfold store_inv. rewrite Hrows. apply Forall_app. split; [exact Hinv |].
  constructor; [| constructor]. simpl.
  destruct (add_prompts_conditional stdin r rest E) as [Hd Hm].
  apply cond_inv_stored_one; assumption.
Qed.

Lemma update_rows st record_id f now st' :
  update st record_id f now = Ok st' ->
  rows st' = map (fun h =>
                    if Z.eqb (id h) record_id
                    then {| id := id h; data := stored f;
                            created_at := created_at h;
                            updated_at := now |}
                    else h) (rows st).
Proof.
  unfold update. destruct (binds_all f); simpl; [| discriminate].
  destruct (negb (existsb _ (rows st)) || not_null_ok f)%bool; [| discriminate].
  intros H. injection H as <-. reflexivity.
Qed.

Lemma update_binds st record_id f now st' :
  update st record_id f now = Ok st' -> binds_all f = true.
Proof.
  unfold update. destruct (binds_all f); simpl; [reflexivity | discriminate].
Qed.

Lemma update_next_id st record_id f now st' :
  update st record_id f now = Ok st' -> next_id st' = next_id st.
Proof.
  unfold update. destruct (binds_all f); simpl; [| discriminate].
  destruct (negb (existsb _ (rows st)) || not_null_ok f)%bool; [| discriminate].
  intros H. injection H as <-. reflexivity.
Qed.

Lemma edit_record_inv st record_id stdin now :
  store_inv st -> store_inv (snd (edit_record st record_id stdin now)).
Proof.
  intros Hinv. unfold edit_record.
  destruct (get st record_id) as [h |]; [| exact Hinv].
  destruct (edit_prompts (data h) stdin) as [[r rest] | e] eqn:E; [| exact Hinv].
  destruct (update st record_id r now) as [st' | e] eqn:Hup; [| exact Hinv].
  apply update_rows in Hup. simpl. unfold store_inv. rewrite Hup.
  apply Forall_map. eapply Forall_impl; [| exact Hinv].
  intros x Hx. destruct (Z.eqb (id x) record_id); [| exact Hx]. simpl.
  destruct (edit_prompts_conditional _ stdin r rest E) as [Hd Hm].
  apply cond_inv_stored_one; assumption.
Qed.

(** Each operation keeps the conditional invariants of the table. *)
Lemma run_inv st c : store_inv st -> store_inv (snd (run st c)).
Proof.
  destruct c; simpl.
  - apply import_csv_inv.
  - apply edit_record_inv.
  - apply add_record_inv.
Qed.

(** C1.  After any history of imports, interactive adds and interactive
    edits on a table that starts empty, every stored record satisfies the
    two conditional invariants: pets = 0 implies dogs is null, and
    critical_meds = 0 implies meds_need_refrigerated is null. *)
Theorem conditional_invariants_always_hold :
  forall history, store_inv (run_all empty_store history).
Proof.
  assert (H : forall history st, store_inv st -> store_inv (run_all st history)).
  { induction history as [| c history IH]; intros st Hst; [exact Hst |].
    simpl. apply IH. apply run_inv; exact Hst. }
  intros history. apply H. constructor.
Qed.

(** ** [UPDATE] followed by [SELECT] *)

Lemma find_some_exists (rs : list household) record_id h :
  find (fun x => Z.eqb (id x) record_id) rs = Some h ->
  existsb (fun x => Z.eqb (id x) record_id) rs = true.
Proof.
  induction rs as [| x rs IH]; simpl; [discriminate |].
  destruct (Z.eqb (id x) record_id); [reflexivity | exact IH].
Qed.

Lemma find_updated (rs : list household) record_id f now h :
  find (fun x => Z.eqb (id x) record_id) rs = Some h ->
  find (fun x => Z.eqb (id x) record_id)
       (map (fun x => if Z.eqb (id x) record_id
                      then {| id := id x; data := stored f;
                              created_at := created_at x;
                              updated_at := now |}
                      else x) rs)
  = Some {| id := id h; data := stored f;
            created_at := created_at h; updated_at := now |}.
Proof.
  induction rs as [| x rs IH]; simpl; [discriminate |].
  destruct (Z.eqb (id x) record_id) eqn:E; simpl.
  - rewrite E. intros H. injection H as <-. reflexivity.
  - rewrite E. exact IH.
Qed.

Lemma find_other (rs : list household) record_id other f now :
  other <> record_id ->
  find (fun x => Z.eqb (id x) other)
       (map (fun x => if Z.eqb (id x) record_id
                      then {| id := id x; data := stored f;
                              created_at := created_at x;
                              updated_at := now |}
                      else x) rs)
  = find (fun x => Z.eqb (id x) other) rs.
Proof.
  intros Hne. induction rs as [| x rs IH]; simpl; [reflexivity |].
  destruct (Z.eqb (id x) record_id) eqn:E; simpl.
  - apply Z.eqb_eq in E.
    assert (E' : Z.eqb (id x) other = false) by (apply Z.eqb_neq; congruence).
    rewrite E'. exact IH.
  - destruct (Z.eqb (id x) other); [reflexivity | exact IH].
Qed.

(** The row [UPDATE] leaves for an existing key: the new values, the old
    [created_at], and the new time as [updated_at]. *)
Lemma get_update st record_id f now h st' :
  get st record_id = Some h ->
  update st record_id f now = Ok st' ->
  get st' record_id
  = Some {| id := id h; data := stored f;
            created_at := created_at h; updated_at := now |}.
Proof.
  intros Hg Hup. apply update_rows in Hup. unfold get in *. rewrite Hup.
  apply find_updated; exact Hg.
Qed.

Lemma update_filled st record_id f now :
  not_null_ok f = true -> binds_all f = true ->
  exists st', update st record_id f now = Ok st'.
Proof.
  intros H Hb. unfold update. rewrite Hb, H, orb_true_r. eexists; reflexivity.
Qed.

Lemma edit_record_done st record_id stdin now st' :
  edit_record st record_id stdin now = (Done, st') ->
  exists h r rest,
    get st record_id = Some h
    /\ edit_prompts (data h) stdin = Ok (r, rest)
    /\ update st record_id r now = Ok st'.
Proof.
  unfold edit_record.
  destruct (get st record_id) as [h |] eqn:Hg; [| discriminate].
  destruct (edit_prompts (data h) stdin) as [[r rest] | e] eqn:Hp;
    [| discriminate].
  destruct (update st record_id r now) as [s | e] eqn:E; [| discriminate].
  intros H. injection H as <-. exists h, r, rest.
  split; [reflexivity |]. split; [exact Hp | exact E].
Qed.

(** C7 as stated fails: an edit made in the second in which the record
    was last written (here second 100, right after the add) leaves
    [updated_at] where it was. *)
Lemma updated_at_can_stay : ~ updated_at_strictly_increases.
Proof.
  intros H.
  destruct (edit_record one_record_store 1 blank_answers 100)
    as [o st'] eqn:E.
  assert (Ho : o = Done).
  { vm_compute in E. injection E as E1 _. symmetry. exact E1. }
  subst o.
  destruct (get one_record_store 1) as [h |] eqn:Hg;
    [| vm_compute in Hg; discriminate Hg].
  destruct (H one_record_store 1 blank_answers 100 h st' Hg E)
    as (h' & Hg' & Hlt).
  destruct (edit_record_done _ _ _ _ _ E) as (h0 & r & rest & Hg0 & _ & Hup).
  rewrite (get_update _ _ _ _ _ _ Hg0 Hup) in Hg'. injection Hg' as <-.
  simpl in Hlt.
  assert (Hu : updated_at h = 100).
  { vm_compute in Hg. injection Hg as <-. reflexivity. }
  lia.
Qed.

(** ** [add_record] *)







Lemma prompt_address_ok current mandatory line rest :
  validate_address (VText (strip line)) = Ok true ->
  edit_prompt_and_validation "Address" current TStr mandatory (line :: rest)
  = Ok (VText (strip line), rest).
Proof.
  intros H. cbn [edit_prompt_and_validation].
  destruct (is_blank (strip line)) eqn:Hb.
  - exfalso. apply String.eqb_eq in Hb. rewrite Hb in H.
    vm_compute in H. discriminate H.
  - replace (String.eqb (lower "Address") "address") with true by reflexivity.
    rewrite H.
    replace (String.eqb (lower "Address") "phone number")
      with false by reflexivity.
    replace (String.eqb (lower "Address") "email address")
      with false by reflexivity.
    reflexivity.
Qed.



Lemma lower_blank s : is_blank (lower s) = is_blank s.
Proof. destruct s; reflexivity. Qed.







(** [INSERT] of a record that can be bound, has its required columns
    filled and is kept as it is. *)
Lemma insert_kept st f c u :
  binds_all f = true -> not_null_ok f = true -> stored f = f ->
  insert st f c u
  = Ok {| rows := rows st ++
                  [ {| id := next_id st; data := f;
                       created_at := c; updated_at := u |} ];
          next_id := next_id st + 1 |}.
Proof.
  intros Hb Hn Hs. unfold insert. rewrite Hb, Hn, Hs. reflexivity.
Qed.





(** ** Regular expressions: the matcher decides the language *)

Lemma re_void s : ~ re_lang Void s.
Proof. intros H. inversion H. Qed.

Lemma re_eps_iff s : re_lang Eps s <-> s = [].
Proof.
  split; intros H; [inversion H; reflexivity | subst; constructor].
Qed.

Lemma re_cls_iff p s : re_lang (Cls p) s <-> exists c, s = [c] /\ p c = true.
Proof.
  split.
  - intros H. inversion H; subst. eexists; split; [reflexivity | assumption].
  - intros (c & -> & Hc). constructor; exact Hc.
Qed.

Lemma re_cat_iff r1 r2 s :
  re_lang (Cat r1 r2) s <->
  exists s1 s2, s = s1 ++ s2 /\ re_lang r1 s1 /\ re_lang r2 s2.
Proof.
  split.
  - intros H. inversion H; subst. eexists _, _; eauto.
  - intros (s1 & s2 & -> & H1 & H2). constructor; assumption.
Qed.

Lemma re_alt_iff r1 r2 s :
  re_lang (Alt r1 r2) s <-> re_lang r1 s \/ re_lang r2 s.
Proof.
  split.
  - intros H. inversion H; subst; auto.
  - intros [H | H]; [apply L_alt_l | apply L_alt_r]; exact H.
Qed.

Lemma nullable_spec r : nullable r = true <-> re_lang r [].
Proof.
  split.
  - induction r; simpl; intros H; try discriminate H.
    + constructor.
    + apply andb_prop in H as [H1 H2].
      apply (L_cat r1 r2 [] []); auto.
    + apply orb_prop in H as [H | H]; [apply L_alt_l | apply L_alt_r]; auto.
    + constructor.
  - intros H. remember [] as s eqn:Hs. revert Hs.
    induction H as [| p c Hc | r1 r2 s1 s2 _ IH1 _ IH2 | r1 r2 s _ IH
                    | r1 r2 s _ IH | r | r s1 s2 _ _ _ _];
      intros Hs; simpl; try reflexivity.
    + discriminate Hs.
    + apply app_eq_nil in Hs as [-> ->].
      rewrite IH1, IH2; reflexivity.
    + rewrite IH; [reflexivity | exact Hs].
    + rewrite IH; [apply orb_true_r | exact Hs].
Qed.

Lemma cat'_spec r1 r2 s : re_lang (cat' r1 r2) s <-> re_lang (Cat r1 r2) s.
Proof.
  destruct r1; simpl; try tauto.
  - split; intros H; [destruct (re_void _ H) |].
    apply re_cat_iff in H as (s1 & s2 & _ & H & _). destruct (re_void _ H).
  - split; intros H.
    + apply (L_cat Eps r2 [] s); [constructor | exact H].
    + apply re_cat_iff in H as (s1 & s2 & -> & H1 & H2).
      apply re_eps_iff in H1. subst s1. exact H2.
Qed.

Lemma alt'_spec r1 r2 s : re_lang (alt' r1 r2) s <-> re_lang (Alt r1 r2) s.
Proof.
  rewrite re_alt_iff.
  destruct r1;
    [ simpl; split;
      [auto | intros [H | H]; [destruct (re_void _ H) | exact H]]
    | .. ];
    (destruct r2; simpl;
     [ split; [auto | intros [H | H]; [exact H | destruct (re_void _ H)]]
     | .. ]; apply re_alt_iff).
Qed.

(** A non-empty word of [r*] starts with a non-empty word of [r]. *)
Lemma star_cons r c s :
  re_lang (Star r) (c :: s) ->
  exists s1 s2, s = s1 ++ s2 /\ re_lang r (c :: s1) /\ re_lang (Star r) s2.
Proof.
  intros H. remember (Star r) as r' eqn:Hr. remember (c :: s) as w eqn:Hw.
  revert Hr Hw.
  induction H as [| | | | | r0 | r0 s1 s2 H1 _ H2 IH2];
    intros Hr Hw; try discriminate Hr; try discriminate Hw.
  injection Hr as ->.
  destruct s1 as [| c1 s1]; simpl in Hw.
  - apply IH2; [reflexivity | exact Hw].
  - injection Hw as -> <-. exists s1, s2. auto.
Qed.

Lemma deriv_spec r : forall c s, re_lang (deriv c r) s <-> re_lang r (c :: s).
Proof.
  induction r as [| | p | r1 IH1 r2 IH2 | r1 IH1 r2 IH2 | r1 IH1];
    intros c s; simpl.
  - split; intros H; destruct (re_void _ H).
  - split; intros H; [destruct (re_void _ H) | inversion H].
  - destruct (p c) eqn:Hp.
    + rewrite re_eps_iff, re_cls_iff. split.
      * intros ->. exists c; auto.
      * intros (c' & Hc & _). injection Hc as _ ->. reflexivity.
    + split; intros H; [destruct (re_void _ H) |].
      apply re_cls_iff in H as (c' & Hc & Hp'). injection Hc as <- _.
      rewrite Hp in Hp'. discriminate Hp'.
  - assert (Hcat : re_lang (cat' (deriv c r1) r2) s <->
                   exists s1 s2, s = s1 ++ s2 /\ re_lang r1 (c :: s1)
                                 /\ re_lang r2 s2).
    { rewrite cat'_spec, re_cat_iff. split.
      - intros (s1 & s2 & E & H1 & H2). exists s1, s2.
        rewrite <- IH1. auto.
      - intros (s1 & s2 & E & H1 & H2). exists s1, s2.
        rewrite IH1. auto. }
    rewrite re_cat_iff.
    destruct (nullable r1) eqn:Hn.
    + rewrite alt'_spec, re_alt_iff, Hcat, IH2. split.
      * intros [(s1 & s2 & -> & H1 & H2) | H].
        -- exists (c :: s1), s2. auto.
        -- exists [], (c :: s). split; [reflexivity |].
           split; [apply nullable_spec; exact Hn | exact H].
      * intros (t1 & t2 & E & H1 & H2).
        destruct t1 as [| c1 t1]; simpl in E.
        -- subst t2. right; exact H2.
        -- injection E as <- ->. left. exists t1, t2. auto.
    + rewrite Hcat. split.
      * intros (s1 & s2 & -> & H1 & H2). exists (c :: s1), s2. auto.
      * intros (t1 & t2 & E & H1 & H2).
        destruct t1 as [| c1 t1]; simpl in E.
        -- apply nullable_spec in H1. rewrite Hn in H1. discriminate H1.
        -- injection E as <- ->. exists t1, t2. auto.
  - rewrite alt'_spec, !re_alt_iff, IH1, IH2. tauto.
  - rewrite cat'_spec, re_cat_iff. split.
    + intros (s1 & s2 & -> & H1 & H2). apply IH1 in H1.
      apply (L_star_app r1 (c :: s1) s2); assumption.
    + intros H. apply star_cons in H as (s1 & s2 & -> & H1 & H2).
      exists s1, s2. rewrite IH1. auto.
Qed.

(** The matcher accepts exactly the words of the pattern's language. *)
Lemma re_accepts_spec : forall s r, re_accepts r s = true <-> re_lang r s.
Proof.
  induction s as [| c s IH]; intros r; simpl.
  - apply nullable_spec.
  - rewrite IH. apply deriv_spec.
Qed.

(** ** Runs of one character class *)

Lemma star_cls_iff p : forall s,
  re_lang (Star (Cls p)) s <-> forallb p s = true.
Proof.
  induction s as [| c s IH]; simpl.
  - split; [reflexivity | constructor].
  - split.
    + intros H. apply star_cons in H as (s1 & s2 & -> & H1 & H2).
      apply re_cls_iff in H1 as (c' & E & Hc). injection E as <- ->.
      rewrite Hc. apply IH; exact H2.
    + intros H. apply andb_prop in H as [Hc Hs].
      apply (L_star_app (Cls p) [c] s); [constructor; exact Hc |].
      apply IH; exact Hs.
Qed.

Lemma plus_cls_iff p s : re_lang (Plus (Cls p)) s <-> some_of p s.
Proof.
  unfold Plus, some_of. rewrite re_cat_iff. split.
  - intros (s1 & s2 & -> & H1 & H2).
    apply re_cls_iff in H1 as (c & -> & Hc). apply star_cls_iff in H2.
    simpl. rewrite Hc, H2. split; [discriminate | reflexivity].
  - intros [Hne H]. destruct s as [| c s]; [contradiction Hne; reflexivity |].
    simpl in H. apply andb_prop in H as [Hc Hs].
    exists [c], s. split; [reflexivity |].
    split; [constructor; exact Hc | apply star_cls_iff; exact Hs].
Qed.

Lemma rep_cls_iff p : forall n s,
  re_lang (Rep n (Cls p)) s <-> exactly n p s.
Proof.
  unfold exactly. induction n as [| n IH]; intros s; simpl.
  - rewrite re_eps_iff. split.
    + intros ->. split; reflexivity.
    + intros [H _]. destruct s; [reflexivity | discriminate H].
  - rewrite re_cat_iff. split.
    + intros (s1 & s2 & -> & H1 & H2).
      apply re_cls_iff in H1 as (c & -> & Hc). apply IH in H2 as [Hl Hs].
      simpl. rewrite Hl, Hc, Hs. split; reflexivity.
    + intros [Hl H]. destruct s as [| c s]; [discriminate Hl |].
      simpl in Hl, H. injection Hl as Hl. apply andb_prop in H as [Hc Hs].
      exists [c], s. split; [reflexivity |].
      split; [constructor; exact Hc | apply IH; auto].
Qed.

Lemma lit_iff c s : re_lang (Lit c) s <-> s = [c].
Proof.
  unfold Lit. rewrite re_cls_iff. split.
  - intros (c' & -> & H). apply Ascii.eqb_eq in H. subst c'. reflexivity.
  - intros ->. exists c. split; [reflexivity | apply Ascii.eqb_refl].
Qed.

(** ** The address pattern *)

(** The language of [ADDRESS_REGEX] is the grammar in words. *)
Lemma address_language s : re_lang ADDRESS_REGEX s <-> address_shape s.
Proof.
  unfold ADDRESS_REGEX, address_shape, Seq. split.
  - intros H.
    apply re_cat_iff in H as (number & t1 & -> & Hnumber & H).
    apply re_cat_iff in H as (gap1 & t2 & -> & Hgap1 & H).
    apply re_cat_iff in H as (street & t3 & -> & Hstreet & H).
    apply re_cat_iff in H as (c1 & t4 & -> & Hc1 & H).
    apply re_cat_iff in H as (gap2 & t5 & -> & Hgap2 & H).
    apply re_cat_iff in H as (city & t6 & -> & Hcity & H).
    apply re_cat_iff in H as (c2 & t7 & -> & Hc2 & H).
    apply re_cat_iff in H as (gap3 & t8 & -> & Hgap3 & H).
    apply re_cat_iff in H as (state & t9 & -> & Hstate & H).
    apply re_cat_iff in H as (gap4 & t10 & -> & Hgap4 & H).
    apply re_cat_iff in H as (zip & t11 & -> & Hzip & H).
    apply re_eps_iff in H. subst t11.
    apply lit_iff in Hc1, Hc2. subst c1 c2.
    apply plus_cls_iff in Hnumber, Hgap1, Hstreet, Hcity, Hgap4.
    apply star_cls_iff in Hgap2, Hgap3.
    apply rep_cls_iff in Hstate, Hzip.
    exists number, gap1, street, gap2, city, gap3, state, gap4, zip.
    rewrite app_nil_r. simpl. repeat split; try tauto.
    all: first [apply Hnumber | apply Hgap1 | apply Hstreet | apply Hcity
                | apply Hgap4 | apply Hstate | apply Hzip].
  - intros (number & gap1 & street & gap2 & city & gap3 & state & gap4 & zip
            & -> & Hnumber & Hgap1 & Hstreet & Hgap2 & Hcity & Hgap3
            & Hstate & Hgap4 & Hzip).
    apply L_cat; [apply plus_cls_iff; exact Hnumber |].
    apply L_cat; [apply plus_cls_iff; exact Hgap1 |].
    apply L_cat; [apply plus_cls_iff; exact Hstreet |].
    apply (L_cat _ _ [comma]); [apply lit_iff; reflexivity |].
    apply L_cat; [apply star_cls_iff; exact Hgap2 |].
    apply L_cat; [apply plus_cls_iff; exact Hcity |].
    apply (L_cat _ _ [comma]); [apply lit_iff; reflexivity |].
    apply L_cat; [apply star_cls_iff; exact Hgap3 |].
    apply L_cat; [apply rep_cls_iff; exact Hstate |].
    apply L_cat; [apply plus_cls_iff; exact Hgap4 |].
    rewrite <- (app_nil_r zip).
    apply L_cat; [apply rep_cls_iff; exact Hzip | constructor].
Qed.

Lemma chop_newline_spec : forall s t,
  chop_newline s = Some t <-> s = t ++ [newline].
Proof.
  induction s as [| c s IH]; intros t.
  - simpl. split; [discriminate |]. intros H. destruct t; discriminate H.
  - destruct s as [| c' s'].
    + simpl. destruct (Ascii.eqb c newline) eqn:E.
      * apply Ascii.eqb_eq in E. subst c. split.
        -- intros H. injection H as <-. reflexivity.
        -- intros H. destruct t as [| a t]; [reflexivity |].
           injection H as _ H. destruct t; discriminate H.
      * split; [discriminate |]. intros H.
        destruct t as [| a t].
        -- injection H as ->. rewrite Ascii.eqb_refl in E. discriminate E.
        -- injection H as _ H. destruct t; discriminate H.
    + change (chop_newline (c :: c' :: s'))
        with (match chop_newline (c' :: s') with
              | Some u => Some (c :: u)
              | None => None
              end).
      split.
      * destruct (chop_newline (c' :: s')) as [u |] eqn:E; [| discriminate].
        intros H. injection H as <-.
        destruct (IH u) as [IH1 _]. rewrite (IH1 eq_refl). reflexivity.
      * intros H. destruct t as [| a t]; [discriminate H |].
        injection H as <- H. apply IH in H. rewrite H. reflexivity.
Qed.

(** What [validate_address] accepts: a text of the grammar, or such a
    text followed by one line feed. *)
Lemma validate_address_spec t :
  validate_address (VText t) = Ok true <->
  address_shape (list_ascii_of_string t)
  \/ exists s, list_ascii_of_string t = s ++ [newline] /\ address_shape s.
Proof.
  simpl. unfold re_match. split.
  - intros H. injection H as H. apply orb_prop in H as [H | H].
    + left. apply address_language, re_accepts_spec; exact H.
    + right. destruct (chop_newline (list_ascii_of_string t)) as [s |] eqn:E;
        [| discriminate H].
      exists s. split; [apply chop_newline_spec; exact E |].
      apply address_language, re_accepts_spec; exact H.
  - intros [H | (s & E & H)]; f_equal; apply orb_true_iff.
    + left. apply re_accepts_spec, address_language; exact H.
    + right. apply chop_newline_spec in E. rewrite E.
      apply re_accepts_spec, address_language; exact H.
Qed.

Lemma app_tail_eq {A : Type} :
  forall (a c b d : list A),
    List.length b = List.length d -> a ++ b = c ++ d -> a = c /\ b = d.
Proof.
  induction a as [| x a IH]; intros c b d Hl H.
  - destruct c as [| y c]; [auto |]. simpl in H.
    apply (f_equal (@List.length A)) in H. simpl in H.
    rewrite length_app in H. lia.
  - destruct c as [| y c]; simpl in H.
    + apply (f_equal (@List.length A)) in H. simpl in H.
      rewrite length_app in H. lia.
    + injection H as <- H. destruct (IH c b d Hl H) as [-> ->]. auto.
Qed.

Lemma exactly_succ n p s :
  exactly (S n) p s ->
  exists c t, s = c :: t /\ p c = true /\ exactly n p t.
Proof.
  unfold exactly. intros [Hl H]. destruct s as [| c t]; [discriminate Hl |].
  simpl in Hl, H. injection Hl as Hl. apply andb_prop in H as [Hc Ht].
  exists c, t. auto.
Qed.

Lemma is_digit_newline : is_digit newline = false.
Proof. reflexivity. Qed.

(** A text that ends with a run of digits does not end with a line
    feed. *)
Lemma digits_last_not_newline : forall zip before s,
  zip <> [] -> forallb is_digit zip = true ->
  before ++ zip <> s ++ [newline].
Proof.
  intros zip before s Hne Hd H.
  destruct (exists_last Hne) as (w & d & ->).
  rewrite forallb_app in Hd. apply andb_prop in Hd as [_ Hd].
  simpl in Hd. rewrite andb_true_r in Hd.
  rewrite app_assoc in H. apply app_inj_tail in H as [_ ->].
  rewrite is_digit_newline in Hd. discriminate Hd.
Qed.

(** A text of the grammar ends with its five digits, after its last
    comma and the state. *)
Lemma address_shape_tail s :
  address_shape s ->
  exists before gap3 state gap4 zip,
    s = before ++ comma :: gap3 ++ state ++ gap4 ++ zip
    /\ (2 <= commas s)%nat
    /\ forallb is_space gap3 = true
    /\ exactly 2 is_upper state
    /\ some_of is_space gap4
    /\ exactly 5 is_digit zip.
Proof.
  intros (number & gap1 & street & gap2 & city & gap3 & state & gap4 & zip
          & -> & _ & _ & _ & _ & _ & Hgap3 & Hstate & Hgap4 & Hzip).
  exists (number ++ gap1 ++ street ++ comma :: gap2 ++ city),
    gap3, state, gap4, zip.
  split; [repeat (rewrite <- app_assoc; simpl); reflexivity |].
  split; [| auto].
  unfold commas.
  repeat (rewrite filter_app, length_app; simpl).
  lia.
Qed.

Lemma address_shape_no_newline_end s t :
  address_shape s -> s <> t ++ [newline].
Proof.
  intros H. apply address_shape_tail in H
    as (before & gap3 & state & gap4 & zip & -> & _ & _ & _ & _ & Hl & Hd).
  replace (before ++ comma :: gap3 ++ state ++ gap4 ++ zip)
    with ((before ++ comma :: gap3 ++ state ++ gap4) ++ zip)
    by (repeat (rewrite <- app_assoc; simpl); reflexivity).
  apply digits_last_not_newline; [| exact Hd].
  intros ->. discriminate Hl.
Qed.

(** C9.  [validate_address] answers true on an address followed by a line
    feed, a text that does not have the shape of the grammar: it does not
    end with the five digits of the zip.  The address without the line
    feed has that shape. *)
Theorem validate_address_accepts_trailing_newline :
  validate_address (VText address_with_newline) = Ok true
  /\ ~ address_shape (list_ascii_of_string address_with_newline)
  /\ address_shape
       (list_ascii_of_string "1 Main St, Springfield, IL 62704").
Proof.
  split; [vm_compute; reflexivity |]. split.
  - intros H.
    apply (address_shape_no_newline_end _
             (list_ascii_of_string "1 Main St, Springfield, IL 62704") H).
    reflexivity.
  - apply address_language, re_accepts_spec. vm_compute. reflexivity.
Qed.

(** On a text without line feed, [validate_address] is the grammar. *)
Lemma validate_address_one_line t :
  forallb dot (list_ascii_of_string t) = true ->
  validate_address (VText t) = Ok true <->
  address_shape (list_ascii_of_string t).
Proof.
  intros Hdot. rewrite validate_address_spec. split; [| auto].
  intros [H | (s & E & _)]; [exact H |].
  rewrite E, forallb_app in Hdot. apply andb_prop in Hdot as [_ Hdot].
  vm_compute in Hdot. discriminate Hdot.
Qed.

Lemma validate_address_false t :
  validate_address (VText t) <> Ok true ->
  validate_address (VText t) = Ok false.
Proof.
  simpl. destruct (re_match ADDRESS_REGEX t); [intros H; contradiction H |];
    reflexivity.
Qed.

(** Fewer than two commas: rejected. *)
Lemma validate_address_missing_comma t :
  (commas (list_ascii_of_string t) < 2)%nat ->
  validate_address (VText t) = Ok false.
Proof.
  intros Hc. apply validate_address_false. intros H.
  apply validate_address_spec in H as [H | (s & E & H)];
    apply address_shape_tail in H as (_ & _ & _ & _ & _ & _ & H2 & _).
  - lia.
  - rewrite E in Hc. unfold commas in Hc, H2.
    rewrite filter_app, length_app in Hc. lia.
Qed.

(** A zip of four digits: rejected. *)
Lemma validate_address_four_digit_zip t :
  four_digit_zip (list_ascii_of_string t) ->
  validate_address (VText t) = Ok false.
Proof.
  intros (before & c & zip4 & E & Hc & Hl4 & Hd4).
  apply validate_address_false. intros H.
  apply validate_address_spec in H as [H | (s & E' & H)].
  - apply address_shape_tail in H
      as (pre & gap3 & state & gap4 & zip & E' & _ & _ & _ & _ & Hzip).
    apply exactly_succ in Hzip as (z & zip' & -> & Hz & Hl & Hd).
    rewrite E in E'.
    replace (before ++ c :: zip4) with ((before ++ [c]) ++ zip4) in E'
      by (rewrite <- app_assoc; reflexivity).
    replace (pre ++ comma :: gap3 ++ state ++ gap4 ++ z :: zip')
      with ((pre ++ comma :: gap3 ++ state ++ gap4 ++ [z]) ++ zip') in E'
      by (repeat (rewrite <- app_assoc; simpl); reflexivity).
    apply app_tail_eq in E' as [E' _]; [| congruence].
    replace (pre ++ comma :: gap3 ++ state ++ gap4 ++ [z])
      with ((pre ++ comma :: gap3 ++ state ++ gap4) ++ [z]) in E'
      by (repeat (rewrite <- app_assoc; simpl); reflexivity).
    apply app_inj_tail in E' as [_ ->]. rewrite Hz in Hc. discriminate Hc.
  - rewrite E in E'.
    replace (before ++ c :: zip4) with ((before ++ [c]) ++ zip4) in E'
      by (rewrite <- app_assoc; reflexivity).
    apply digits_last_not_newline in E'; [exact E' | | exact Hd4].
    intros ->. discriminate Hl4.
Qed.

(** ** A state of four letters *)

Lemma class_without p x :
  p x = false -> forall s, forallb p s = true ->
  forallb (fun c => negb (Ascii.eqb x c)) s = true.
Proof.
  intros Hx. induction s as [| c s IH]; simpl; intros H; [reflexivity |].
  apply andb_prop in H as [Hc Hs]. rewrite (IH Hs), andb_true_r.
  destruct (Ascii.eqb x c) eqn:E; [| reflexivity].
  apply Ascii.eqb_eq in E. subst c. rewrite Hx in Hc. discriminate Hc.
Qed.

(** Two ways of cutting a text after a run of one class, each followed by
    a character outside the class, cut at the same place. *)
Lemma span_unique (p : ascii -> bool) :
  forall a c x y b d,
    forallb p a = true -> forallb p c = true ->
    p x = false -> p y = false ->
    a ++ x :: b = c ++ y :: d -> a = c /\ x :: b = y :: d.
Proof.
  induction a as [| a0 a IH]; intros c x y b d Ha Hc Hx Hy H.
  - destruct c as [| c0 c]; [auto |]. simpl in H, Hc.
    injection H as -> _. apply andb_prop in Hc as [Hc _].
    rewrite Hx in Hc. discriminate Hc.
  - simpl in Ha. apply andb_prop in Ha as [Ha0 Ha].
    destruct c as [| c0 c]; simpl in H.
    + injection H as -> _. rewrite Hy in Ha0. discriminate Ha0.
    + injection H as <- H. simpl in Hc. apply andb_prop in Hc as [_ Hc].
      destruct (IH c x y b d Ha Hc Hx Hy H) as [-> E]. auto.
Qed.

(** Two ways of cutting a text at a comma with no comma after it cut at
    the same comma. *)
Lemma last_comma_unique :
  forall a c b d,
    forallb (fun ch => negb (Ascii.eqb comma ch)) b = true ->
    forallb (fun ch => negb (Ascii.eqb comma ch)) d = true ->
    a ++ comma :: b = c ++ comma :: d -> a = c /\ b = d.
Proof.
  induction a as [| a0 a IH]; intros c b d Hb Hd H.
  - destruct c as [| c0 c]; simpl in H.
    + injection H as ->. auto.
    + injection H as _ ->. rewrite forallb_app in Hb.
      apply andb_prop in Hb as [_ Hb]. simpl in Hb. discriminate Hb.
  - destruct c as [| c0 c]; simpl in H.
    + injection H as _ <-. rewrite forallb_app in Hd.
      apply andb_prop in Hd as [_ Hd]. simpl in Hd. discriminate Hd.
    + injection H as <- H. destruct (IH c b d Hb Hd H) as [-> ->]. auto.
Qed.

Lemma is_upper_not_space c : is_upper c = true -> is_space c = false.
Proof.
  unfold is_upper, is_space, in_range. intros H.
  apply andb_prop in H as [H1 H2]. apply N.leb_le in H1, H2.
  repeat rewrite orb_false_iff. repeat split.
  - apply andb_false_iff. right. apply N.leb_gt. lia.
  - apply andb_false_iff. right. apply N.leb_gt. lia.
  - apply N.eqb_neq. lia.
  - apply N.eqb_neq. lia.
Qed.

Lemma no_comma_tail gap state gap' zip :
  forallb is_space gap = true -> forallb is_upper state = true ->
  forallb is_space gap' = true -> forallb is_digit zip = true ->
  forallb (fun ch => negb (Ascii.eqb comma ch)) (gap ++ state ++ gap' ++ zip)
  = true.
Proof.
  intros H1 H2 H3 H4. rewrite !forallb_app.
  rewrite (class_without is_space comma eq_refl gap H1).
  rewrite (class_without is_upper comma eq_refl state H2).
  rewrite (class_without is_space comma eq_refl gap' H3).
  rewrite (class_without is_digit comma eq_refl zip H4).
  reflexivity.
Qed.

(** A state of four capital letters: rejected. *)
Lemma validate_address_four_letter_state t :
  four_letter_state (list_ascii_of_string t) ->
  validate_address (VText t) = Ok false.
Proof.
  intros (before & gap & state4 & gap' & zip5 & E & Hgap & Hstate4 & Hgap'
          & Hzip5).
  apply validate_address_false. intros H.
  apply validate_address_spec in H as [H | (s & E' & H)].
  - apply address_shape_tail in H
      as (pre & gap3 & state & gap4 & zip & E' & _ & Hgap3 & Hstate & Hgap4
          & Hzip).
    rewrite E in E'.
    apply last_comma_unique in E' as [_ E'].
    + apply exactly_succ in Hstate4 as (u1 & r1 & -> & Hu1 & Hstate4).
      apply exactly_succ in Hstate4 as (u2 & r2 & -> & Hu2 & Hstate4).
      apply exactly_succ in Hstate4 as (u3 & r3 & -> & Hu3 & Hstate4).
      apply exactly_succ in Hstate as (s1 & q1 & -> & Hs1 & Hstate).
      apply exactly_succ in Hstate as (s2 & q2 & -> & Hs2 & [Hq2 _]).
      destruct q2; [| discriminate Hq2].
      simpl in E'.
      apply (span_unique is_space) in E' as [_ E']; auto using is_upper_not_space.
      injection E' as _ _ E'.
      destruct Hgap4 as [Hne Hsp].
      destruct gap4 as [| g gap4]; [contradiction Hne; reflexivity |].
      simpl in E', Hsp. injection E' as -> _.
      apply andb_prop in Hsp as [Hsp _].
      rewrite (is_upper_not_space _ Hu3) in Hsp. discriminate Hsp.
    + destruct Hstate4 as [_ Hs4]. destruct Hzip5 as [_ Hz5].
      apply no_comma_tail; assumption.
    + destruct Hstate as [_ Hs]. destruct Hzip as [_ Hz].
      destruct Hgap4 as [_ Hg4]. apply no_comma_tail; assumption.
  - rewrite E in E'.
    replace (before ++ comma :: gap ++ state4 ++ gap' ++ zip5)
      with ((before ++ comma :: gap ++ state4 ++ gap') ++ zip5) in E'
      by (repeat (rewrite <- app_assoc; simpl); reflexivity).
    destruct Hzip5 as [Hl Hd].
    apply digits_last_not_newline in E'; [exact E' | | exact Hd].
    intros ->. discriminate Hl.
Qed.

(** ** What the interactive paths store *)

Lemma mandatory_answer stdin prompt current vtype v rest :
  edit_prompt_and_validation prompt current vtype true stdin = Ok (v, rest) ->
  answer_of vtype v.
Proof.
  intros H. apply prompt_result in H as [[H _] | H];
    [discriminate H | exact H].
Qed.

(** The counts a record gets on the add path are non-negative integers:
    the prompt accepts digits only. *)
Lemma add_prompts_counts stdin r rest :
  add_prompts stdin = Ok (r, rest) ->
  nonneg_integer (adults r) /\ nonneg_integer (children r).
Proof.
  unfold add_prompts. intros H.
  do 17 io_step H. injection H as <- _. simpl.
  split; eapply (mandatory_answer _ _ _ TInt); eassumption.
Qed.

(** A text that is not a number in the adults or children column stops
    the import at the integer stage or before. *)
Lemma import_csv_rejects_non_numeric st line read_csv ts input_df r :
  is_blank (strip line) = false ->
  read_csv (strip line) = Some input_df ->
  In r (raw_rows input_df) ->
  passes_integers r = false ->
  fst (import_csv st line read_csv ts) <> Done
  /\ snd (import_csv st line read_csv ts) = st.
Proof.
  intros Hb Hread Hin Hr.
  rewrite (import_csv_reads st line read_csv ts input_df Hb Hread).
  assert (Hnot : fst (import_frame st input_df ts) <> Done).
  { apply import_frame_rejects_failing. right. exists r.
    split; [exact Hin |]. unfold row_passes. rewrite Hr.
    rewrite andb_false_r. reflexivity. }
  split; [exact Hnot | apply import_frame_keeps; exact Hnot].
Qed.

(** The record an edit leaves under the edited id: the collected answers
    as the table keeps them, the old [created_at], the time of the edit. *)
Lemma edit_record_get st record_id stdin now st' :
  edit_record st record_id stdin now = (Done, st') ->
  exists h r rest,
    get st record_id = Some h
    /\ edit_prompts (data h) stdin = Ok (r, rest)
    /\ get st' record_id
       = Some {| id := id h; data := stored r;
                 created_at := created_at h; updated_at := now |}.
Proof.
  intros H. apply edit_record_done in H as (h & r & rest & Hg & Hp & Hup).
  exists h, r, rest. split; [exact Hg |]. split; [exact Hp |].
  apply (get_update _ _ _ _ _ _ Hg Hup).
Qed.

(** On the add path no question that was asked leaves a null: the value
    of an optional field is the empty text (a blank answer) or an answer
    of its type. *)
Lemma add_prompts_optional stdin r rest :
  add_prompts stdin = Ok (r, rest) ->
  let blank_or (vtype : value_type) (v : value) :=
    v = VText EmptyString \/ answer_of vtype v in
  (pets r = VInt 1 -> blank_or TBool (dogs r))
  /\ (critical_meds r = VInt 1 -> blank_or TBool (meds_need_refrigerated r))
  /\ blank_or TStr (phone r)
  /\ blank_or TStr (email r)
  /\ blank_or TBool (has_medical_training r)
  /\ blank_or TBool (know_neighbors r)
  /\ blank_or TBool (has_neighbors_key r)
  /\ blank_or TBool (wants_newsletter r)
  /\ blank_or TBool (can_cert_contact r).
Proof.
  unfold add_prompts. intros H.
  do 17 io_step H. injection H as <- _. cbv zeta.
  cbn [pets dogs critical_meds meds_need_refrigerated phone email
       has_medical_training know_neighbors has_neighbors_key
       wants_newsletter can_cert_contact].
  repeat split; intros;
    repeat match goal with
           | E : ?v = VInt 1, H : (if eq_int ?v 1 then _ else _) _ = _ |- _ =>
               rewrite E in H; simpl in H
           end;
    match goal with
    | H : edit_prompt_and_validation _ _ ?ty false _ = Ok (?v, _)
      |- ?v = _ \/ answer_of ?ty ?v =>
        apply prompt_result in H as [[_ ->] | H];
        [left; reflexivity | right; exact H]
    end.
Qed.

(** * Further properties of the code *)

(** ** What the prompts return and raise *)

Lemma validate_address_text s : exists b, validate_address (VText s) = Ok b.
Proof. simpl. eexists; reflexivity. Qed.

Lemma validate_phone_text s : exists b, validate_phone (VText s) = Ok b.
Proof.
  unfold validate_phone. destruct (blank_cell (VText s)); eexists; reflexivity.
Qed.

Lemma validate_email_text s : exists b, validate_email (VText s) = Ok b.
Proof.
  unfold validate_email. destruct (blank_cell (VText s)); eexists; reflexivity.
Qed.

(** A text prompt hands back the current value or a text that passed the
    validator its prompt selects. *)
Lemma prompt_text_valid :
  forall stdin prompt current mandatory v rest,
    edit_prompt_and_validation prompt current TStr mandatory stdin
    = Ok (v, rest) ->
    (mandatory = false /\ v = current)
    \/ exists s,
         v = VText s
         /\ (String.eqb (lower prompt) "address" = true ->
             validate_address (VText s) = Ok true)
         /\ (String.eqb (lower prompt) "phone number" = true ->
             validate_phone (VText s) = Ok true)
         /\ (String.eqb (lower prompt) "email address" = true ->
             validate_email (VText s) = Ok true).
Proof.
  induction stdin as [| line stdin IH];
    intros prompt current mandatory v rest H; [discriminate H |].
  cbn [edit_prompt_and_validation] in H.
  destruct (is_blank (strip line)).
  - destruct mandatory; [eapply IH; exact H |].
    injection H as <- <-. left; auto.
  - apply bind_ok in H as (a & Ha & H).
    destruct a; simpl in H; [| eapply IH; exact H].
    apply bind_ok in H as (p & Hp & H).
    destruct p; simpl in H; [| eapply IH; exact H].
    apply bind_ok in H as (e & He & H).
    destruct e; simpl in H; [| eapply IH; exact H].
    injection H as <- <-. right. exists (strip line).
    split; [reflexivity |].
    split; [| split]; intros E; rewrite E in *; assumption.
Qed.

(** The prompt loop raises nothing but the two input errors. *)
Lemma prompt_raises :
  forall stdin prompt current vtype mandatory e,
    edit_prompt_and_validation prompt current vtype mandatory stdin = Raise e ->
    input_error e.
Proof.
  induction stdin as [| line stdin IH];
    intros prompt current vtype mandatory e H.
  - injection H as <-. left; reflexivity.
  - cbn [edit_prompt_and_validation] in H.
    destruct vtype.
    + destruct (is_blank (lower (strip line))).
      * destruct mandatory; [eapply IH; exact H | discriminate H].
      * destruct (str_in (lower (strip line)) ["yes"; "y"; "true"; "1"]);
          [discriminate H |].
        destruct (str_in (lower (strip line)) ["no"; "n"; "false"; "0"]);
          [discriminate H | eapply IH; exact H].
    + destruct (is_blank (strip line)).
      * destruct mandatory; [eapply IH; exact H | discriminate H].
      * destruct (isdigit (strip line)); [| eapply IH; exact H].
        unfold int_of_str in H.
        destruct (all_digits (strip line)
                  && Z.leb (Z.of_nat (String.length (strip line)))
                           max_str_digits)%bool; [discriminate H |].
        injection H as <-. right; reflexivity.
    + destruct (is_blank (strip line)).
      * destruct mandatory; [eapply IH; exact H | discriminate H].
      * destruct (validate_address_text (strip line)) as [ba Hba].
        destruct (validate_phone_text (strip line)) as [bp Hbp].
        destruct (validate_email_text (strip line)) as [be Hbe].
        rewrite Hba, Hbp, Hbe in H.
        destruct (String.eqb (lower prompt) "address");
          destruct (String.eqb (lower prompt) "phone number");
          destruct (String.eqb (lower prompt) "email address");
          destruct ba; destruct bp; destruct be; simpl in H;
          first [discriminate H | eapply IH; exact H].
Qed.

(** Each prompt reads at least one line, and what it leaves is the end
    of what it was given. *)
Lemma prompt_consumes :
  forall stdin prompt current vtype mandatory v rest,
    edit_prompt_and_validation prompt current vtype mandatory stdin
    = Ok (v, rest) ->
    (List.length rest < List.length stdin)%nat.
Proof.
  induction stdin as [| line stdin IH];
    intros prompt current vtype mandatory v rest H; [discriminate H |].
  assert (Hrec : forall v' rest',
             edit_prompt_and_validation prompt current vtype mandatory stdin
             = Ok (v', rest') ->
             (List.length rest' < List.length (line :: stdin))%nat).
  { intros v' rest' H'. apply IH in H'. simpl. lia. }
  cbn [edit_prompt_and_validation] in H.
  destruct vtype.
  - destruct (is_blank (lower (strip line))).
    + destruct mandatory; [eapply Hrec; exact H |].
      injection H as _ <-. simpl; lia.
    + destruct (str_in (lower (strip line)) ["yes"; "y"; "true"; "1"]);
        [injection H as _ <-; simpl; lia |].
      destruct (str_in (lower (strip line)) ["no"; "n"; "false"; "0"]);
        [injection H as _ <-; simpl; lia | eapply Hrec; exact H].
  - destruct (is_blank (strip line)).
    + destruct mandatory; [eapply Hrec; exact H |].
      injection H as _ <-. simpl; lia.
    + destruct (isdigit (strip line)); [| eapply Hrec; exact H].
      apply bind_ok in H as (z & _ & H). injection H as _ <-. simpl; lia.
  - destruct (is_blank (strip line)).
    + destruct mandatory; [eapply Hrec; exact H |].
      injection H as _ <-. simpl; lia.
    + apply bind_ok in H as (a & _ & H).
      destruct (negb a); [eapply Hrec; exact H |].
      apply bind_ok in H as (p & _ & H).
      destruct (negb p); [eapply Hrec; exact H |].
      apply bind_ok in H as (e & _ & H).
      destruct (negb e); [eapply Hrec; exact H |].
      injection H as _ <-. simpl; lia.
Qed.

Lemma prompt_keeps (P : value -> Prop) stdin prompt current vtype mandatory
  v rest :
  (mandatory = false -> P current) ->
  (forall a, answer_of vtype a -> P a) ->
  edit_prompt_and_validation prompt current vtype mandatory stdin
  = Ok (v, rest) ->
  P v.
Proof.
  intros Hcur Hans H. apply prompt_result in H as [[Hm ->] | H]; auto.
Qed.

Lemma follow_up_keeps (P : value -> Prop) (trigger : value) stdin prompt
  current v rest :
  P VNull -> P current -> (forall a, answer_of TBool a -> P a) ->
  (if eq_int trigger 1
   then edit_prompt_and_validation prompt current TBool false
   else ret VNull) stdin = Ok (v, rest) ->
  P v.
Proof.
  intros Hnull Hcur Hans H. destruct (eq_int trigger 1).
  - eapply prompt_keeps; eauto.
  - injection H as <- _. exact Hnull.
Qed.

Lemma prompt_address_valid stdin current mandatory v rest :
  (mandatory = false -> validate_address current = Ok true) ->
  edit_prompt_and_validation "Address" current TStr mandatory stdin
  = Ok (v, rest) ->
  validate_address v = Ok true.
Proof.
  intros Hcur H.
  apply prompt_text_valid in H as [[Hm ->] | (s & -> & Ha & _)]; auto.
Qed.

Lemma prompt_phone_valid stdin current mandatory v rest :
  (mandatory = false -> validate_phone current = Ok true) ->
  edit_prompt_and_validation "Phone number" current TStr mandatory stdin
  = Ok (v, rest) ->
  validate_phone v = Ok true.
Proof.
  intros Hcur H.
  apply prompt_text_valid in H as [[Hm ->] | (s & -> & _ & Hp & _)]; auto.
Qed.

Lemma prompt_email_valid stdin current mandatory v rest :
  (mandatory = false -> validate_email current = Ok true) ->
  edit_prompt_and_validation "Email address" current TStr mandatory stdin
  = Ok (v, rest) ->
  validate_email v = Ok true.
Proof.
  intros Hcur H.
  apply prompt_text_valid in H as [[Hm ->] | (s & -> & _ & _ & He)]; auto.
Qed.

Lemma answer_number a : answer_of TInt a -> is_number a.
Proof. intros (z & -> & _). left. eexists; reflexivity. Qed.

Lemma answer_yes_no a : answer_of TBool a -> yes_no a.
Proof. intros H; exact H. Qed.

Lemma answer_optional a : answer_of TBool a -> optional_yes_no a.
Proof. intros [-> | ->]; unfold optional_yes_no; auto. Qed.

Lemma optional_null : optional_yes_no VNull.
Proof. unfold optional_yes_no; auto. Qed.

Lemma optional_blank : optional_yes_no (VText EmptyString).
Proof. unfold optional_yes_no; auto. Qed.

(** Finds, for a goal about a collected value, the prompt that returned
    it. *)
Ltac by_prompt :=
  match goal with
  | H : edit_prompt_and_validation "Address" _ TStr _ _ = Ok (?v, _)
    |- validate_address ?v = Ok true =>
      apply (prompt_address_valid _ _ _ _ _) in H; [exact H |]
  | H : edit_prompt_and_validation "Phone number" _ TStr _ _ = Ok (?v, _)
    |- validate_phone ?v = Ok true =>
      apply (prompt_phone_valid _ _ _ _ _) in H; [exact H |]
  | H : edit_prompt_and_validation "Email address" _ TStr _ _ = Ok (?v, _)
    |- validate_email ?v = Ok true =>
      apply (prompt_email_valid _ _ _ _ _) in H; [exact H |]
  | H : edit_prompt_and_validation _ _ TInt _ _ = Ok (?v, _)
    |- is_number ?v =>
      apply (prompt_keeps is_number) in H;
      [exact H | | exact answer_number]
  | H : edit_prompt_and_validation _ _ TBool _ _ = Ok (?v, _)
    |- yes_no ?v =>
      apply (prompt_keeps yes_no) in H;
      [exact H | | exact answer_yes_no]
  | H : edit_prompt_and_validation _ _ TBool _ _ = Ok (?v, _)
    |- optional_yes_no ?v =>
      apply (prompt_keeps optional_yes_no) in H;
      [exact H | | exact answer_optional]
  | H : (if eq_int _ 1 then _ else ret VNull) _ = Ok (?v, _)
    |- optional_yes_no ?v =>
      apply (follow_up_keeps optional_yes_no) in H;
      [exact H | exact optional_null | | exact answer_optional]
  end.

Lemma typed_not_null f : record_typed f -> not_null_ok f = true.
Proof.
  intros (Ha & _ & _ & Hn & Hc & Hp & Hm & Hs & Ht & Hg & _).
  unfold not_null_ok.
  destruct (address f); try discriminate Ha.
  destruct Hn as [[? ->] | [? ->]]; destruct Hc as [[? ->] | [? ->]];
    destruct Hp as [-> | ->]; destruct Hm as [-> | ->];
    destruct Hs as [-> | ->]; destruct Ht as [-> | ->];
    destruct Hg as [-> | ->]; reflexivity.
Qed.

Lemma optional_binds v : optional_yes_no v -> binds v = true.
Proof. intros [-> | [-> | [-> | ->]]]; reflexivity. Qed.

(** A well-typed record whose counts can be bound is bound as a whole. *)
Lemma typed_binds f :
  record_typed f -> binds (adults f) = true -> binds (children f) = true ->
  binds_all f = true.
Proof.
  intros (Ha & Hp & He & _ & _ & Hpets & Hm & Hs & Ht & Hg & Hd & Hr & Htr
          & Hk & Hkey & Hnews & Hcon) Hba Hbc.
  unfold binds_all.
  rewrite Hba, Hbc, (validated_phone_binds _ Hp), (validated_email_binds _ He),
    (optional_binds _ Hd), (optional_binds _ Hr), (optional_binds _ Htr),
    (optional_binds _ Hk), (optional_binds _ Hkey), (optional_binds _ Hnews),
    (optional_binds _ Hcon).
  destruct (address f); try discriminate Ha.
  destruct Hpets as [-> | ->]; destruct Hm as [-> | ->];
    destruct Hs as [-> | ->]; destruct Ht as [-> | ->];
    destruct Hg as [-> | ->]; reflexivity.
Qed.

(** What [add_record] collects is well typed. *)
Lemma add_prompts_typed stdin r rest :
  add_prompts stdin = Ok (r, rest) -> record_typed r.
Proof.
  unfold add_prompts. intros H.
  do 17 io_step H. injection H as <- _.
  unfold record_typed. simpl.
  repeat split; by_prompt;
    first [ intros Hm; discriminate Hm | intros _; reflexivity
          | intros _; exact optional_blank | exact optional_blank ].
Qed.

(** What [edit_record] collects from a well-typed record is well typed. *)
Lemma edit_prompts_typed series stdin r rest :
  record_typed series ->
  edit_prompts series stdin = Ok (r, rest) -> record_typed r.
Proof.
  unfold edit_prompts.
  intros (Ha & Hp & He & Hn & Hc & Hpets & Hm & Hs & Ht & Hg & Hd & Hr & Htr
          & Hk & Hkey & Hnews & Hcon) H.
  do 17 io_step H. injection H as <- _.
  unfold record_typed. simpl.
  repeat split; by_prompt; try (intros _); assumption.
Qed.

(** ** Every stored record is well formed *)

Lemma real_affinity_idem q :
  integer_affinity (real_affinity q) = real_affinity q.
Proof.
  destruct (real_affinity_cases q) as [[z E] | E]; rewrite E;
    [reflexivity | simpl; exact E].
Qed.

(** A whole real outside the 64-bit range stays a REAL. *)
Lemma real_affinity_large z :
  int64 z = false -> real_affinity (inject_Z z) = VReal (Finite (inject_Z z)).
Proof.
  intros H. unfold int64 in H. unfold real_affinity.
  cbn [inject_Z Qnum Qden]. rewrite Z.div_1_r.
  destruct (Z.eqb (z mod 1) 0 && Z.ltb (- 2 ^ 63) z
            && Z.ltb z (2 ^ 63 - 1))%bool eqn:E; [| reflexivity].
  apply andb_prop in E as [E Hhi]. apply andb_prop in E as [_ Hlo].
  apply Z.ltb_lt in Hlo, Hhi.
  apply andb_false_iff in H as [H | H];
    [apply Z.leb_gt in H | apply Z.ltb_ge in H]; lia.
Qed.

(** What a column of INTEGER affinity keeps, it keeps as it is. *)
Lemma integer_affinity_idem v :
  integer_affinity (integer_affinity v) = integer_affinity v.
Proof.
  destruct v as [| z | [q | b] | s]; try reflexivity.
  - apply real_affinity_idem.
  - cbn [integer_affinity].
    destruct (sqlite_number s) as [[z | q] |] eqn:E.
    + destruct (int64 z) eqn:Hz; [reflexivity |].
      cbn [integer_affinity]. apply real_affinity_large; exact Hz.
    + apply real_affinity_idem.
    + cbn [integer_affinity]. rewrite E. reflexivity.
Qed.

Lemma stored_idem f : stored (stored f) = stored f.
Proof. unfold stored. simpl. rewrite !integer_affinity_idem. reflexivity. Qed.

Lemma integer_affinity_number v : is_number v -> is_number (integer_affinity v).
Proof.
  intros [[z ->] | [[q | b] ->]]; simpl;
    [left; eexists; reflexivity | | right; eexists; reflexivity].
  destruct (real_affinity_cases q) as [[z ->] | ->];
    [left | right]; eexists; reflexivity.
Qed.

Lemma real_affinity_binds q : binds (real_affinity q) = true.
Proof.
  destruct (real_affinity_cases q) as [[z E] | E]; rewrite E; [| reflexivity].
  apply real_affinity_int in E as [_ E]. simpl. unfold int64.
  apply andb_true_intro. split; [apply Z.leb_le | apply Z.ltb_lt]; lia.
Qed.

(** What the table keeps can be bound again. *)
Lemma integer_affinity_binds v :
  binds v = true -> binds (integer_affinity v) = true.
Proof.
  destruct v as [| z | [q | b] | s]; intros H; try exact H.
  - apply real_affinity_binds.
  - cbn [integer_affinity].
    destruct (sqlite_number s) as [[z | q] |]; [| | reflexivity].
    + destruct (int64 z) eqn:Hz; [exact Hz | reflexivity].
    + apply real_affinity_binds.
Qed.

Lemma stored_binds f : binds_all f = true -> binds_all (stored f) = true.
Proof.
  unfold binds_all. intros H.
  repeat match type of H with
         | (_ && _)%bool = true => apply andb_prop in H as [H ?]
         end.
  simpl.
  repeat match goal with
         | H : binds ?x = true |- context [binds (integer_affinity ?x)] =>
             rewrite (integer_affinity_binds x H)
         | H : binds ?x = true |- context [binds ?x] => rewrite H
         end.
  reflexivity.
Qed.

Lemma integer_affinity_yes_no v : yes_no v -> integer_affinity v = v.
Proof. intros [-> | ->]; reflexivity. Qed.

Lemma integer_affinity_optional v :
  optional_yes_no v -> integer_affinity v = v.
Proof. intros [-> | [-> | [-> | ->]]]; reflexivity. Qed.

Lemma typed_stored f :
  record_typed f -> binds_all f = true -> record_wf (stored f).
Proof.
  intros H Hb. split; [| split; [apply stored_idem | apply stored_binds; exact Hb]].
  destruct H as (Ha & Hp & He & Hn & Hc & Hpets & Hm & Hs & Ht & Hg & Hd & Hr
                 & Htr & Hk & Hkey & Hnews & Hcon).
  unfold record_typed. simpl.
  rewrite (integer_affinity_yes_no _ Hpets), (integer_affinity_yes_no _ Hm),
    (integer_affinity_yes_no _ Hs), (integer_affinity_yes_no _ Ht),
    (integer_affinity_yes_no _ Hg), (integer_affinity_optional _ Hd),
    (integer_affinity_optional _ Hr), (integer_affinity_optional _ Htr),
    (integer_affinity_optional _ Hk), (integer_affinity_optional _ Hkey),
    (integer_affinity_optional _ Hnews), (integer_affinity_optional _ Hcon).
  repeat split; auto using integer_affinity_number.
Qed.

(** A well-typed record whose counts the table keeps as they are is kept
    as it is. *)
Lemma typed_kept r :
  record_typed r ->
  integer_affinity (adults r) = adults r ->
  integer_affinity (children r) = children r ->
  stored r = r.
Proof.
  intros (_ & _ & _ & _ & _ & Hpets & Hm & Hs & Hp & Hg & Hd & Hr
          & Htr & Hk & Hkey & Hnews & Hcon) Ea Ec.
  destruct r; unfold stored; simpl in *.
  rewrite Ea, Ec,
    (integer_affinity_yes_no _ Hpets), (integer_affinity_yes_no _ Hm),
    (integer_affinity_yes_no _ Hs), (integer_affinity_yes_no _ Hp),
    (integer_affinity_yes_no _ Hg), (integer_affinity_optional _ Hd),
    (integer_affinity_optional _ Hr), (integer_affinity_optional _ Htr),
    (integer_affinity_optional _ Hk), (integer_affinity_optional _ Hkey),
    (integer_affinity_optional _ Hnews), (integer_affinity_optional _ Hcon).
  reflexivity.
Qed.

(** A valid record is kept as it is, fills the required columns and can
    be bound. *)
Lemma valid_record_kept r :
  valid_record r ->
  stored r = r /\ not_null_ok r = true /\ binds_all r = true.
Proof.
  intros (Ht & _ & (za & Ea & Hza) & (zc & Ec & Hzc)).
  assert (Hb : binds_all r = true).
  { apply typed_binds; [exact Ht | rewrite Ea; exact Hza | rewrite Ec; exact Hzc]. }
  split; [| split; [apply typed_not_null; exact Ht | exact Hb]].
  apply typed_kept; [exact Ht | rewrite Ea; reflexivity | rewrite Ec; reflexivity].
Qed.

(** A well-typed record that cannot be bound has a count that is an
    integer outside the 64-bit range. *)
Lemma typed_unbound f :
  record_typed f -> binds_all f = false ->
  exists z, (adults f = VInt z \/ children f = VInt z) /\ int64 z = false.
Proof.
  intros Ht Hb.
  destruct (binds (adults f)) eqn:Ea.
  - destruct (binds (children f)) eqn:Ec.
    + rewrite (typed_binds f Ht Ea Ec) in Hb. discriminate Hb.
    + destruct (children f) as [| z | x | t] eqn:E; try discriminate Ec.
      exists z. auto.
  - destruct (adults f) as [| z | x | t] eqn:E; try discriminate Ea.
    exists z. auto.
Qed.

Lemma nonneg_large z : 0 <= z -> int64 z = false -> 2 ^ 63 <= z.
Proof.
  unfold int64. intros Hz H.
  apply andb_false_iff in H as [H | H];
    [apply Z.leb_gt in H | apply Z.ltb_ge in H]; lia.
Qed.

(** C7, as the code has it.  For every existing record id and every valid
    record r, the update succeeds and a following get returns a record
    equal to r in all survey fields, with its id and [created_at]
    unchanged and [updated_at] equal to the clock reading, in whole
    seconds, taken at the update; that reading is no earlier than the
    prior [updated_at] whenever the clock has not gone back, and it is
    equal to it when the update falls in the same second.  Records under
    other ids are returned as before. *)
Theorem update_then_get :
  forall st record_id r now h,
    get st record_id = Some h ->
    valid_record r ->
    exists st' h',
      update st record_id r now = Ok st'
      /\ get st' record_id = Some h'
      /\ data h' = r
      /\ id h' = id h
      /\ created_at h' = created_at h
      /\ updated_at h' = now
      /\ (updated_at h <= now -> updated_at h <= updated_at h')
      /\ (updated_at h = now -> updated_at h' = updated_at h)
      /\ (forall other, other <> record_id -> get st' other = get st other).
Proof.
  intros st record_id r now h Hg Hvalid.
  destruct (valid_record_kept r Hvalid) as (Hst & Hnn & Hb).
  destruct (update_filled st record_id r now Hnn Hb) as (st' & Hup).
  exists st'. eexists. split; [exact Hup |].
  split; [apply (get_update _ _ _ _ _ _ Hg Hup) |]. simpl.
  repeat split; auto.
  intros other Hne. unfold get. rewrite (update_rows _ _ _ _ _ Hup).
  apply find_other; exact Hne.
Qed.

Lemma sample_record_valid : valid_record sample_record.
Proof.
  unfold valid_record, record_typed, cond_inv, whole_count, yes_no,
    optional_yes_no, sample_record.
  cbn [address adults children pets dogs critical_meds meds_need_refrigerated
       has_special_needs has_propane_tank has_natural_gas phone email
       has_medical_training know_neighbors has_neighbors_key
       wants_newsletter can_cert_contact].
  split; [| split; [| split]].
  - split; [vm_compute; reflexivity |].
    split; [vm_compute; reflexivity |].
    split; [vm_compute; reflexivity |].
    split; [left; exists 3; reflexivity |].
    split; [left; exists 2; reflexivity |].
    split; [left; reflexivity |].
    split; [right; reflexivity |].
    split; [right; reflexivity |].
    split; [left; reflexivity |].
    split; [right; reflexivity |].
    split; [right; left; reflexivity |].
    split; [right; right; left; reflexivity |].
    split; [left; reflexivity |].
    split; [right; right; left; reflexivity |].
    split; [right; right; right; reflexivity |].
    split; [right; left; reflexivity |].
    left; reflexivity.
  - split; [intros H; discriminate H | intros _; reflexivity].
  - exists 3. split; reflexivity.
  - exists 2. split; reflexivity.
Qed.

Lemma update_then_get_witness :
  exists st' h',
    update one_record_store 1 sample_record 100 = Ok st'
    /\ get st' 1 = Some h'
    /\ data h' = sample_record
    /\ created_at h' = 100
    /\ updated_at h' = 100.
Proof.
  destruct (get one_record_store 1) as [h |] eqn:Hg;
    [| vm_compute in Hg; discriminate Hg].
  assert (Hc : created_at h = 100).
  { vm_compute in Hg. injection Hg as <-. reflexivity. }
  destruct (update_then_get one_record_store 1 sample_record 100 h Hg
              sample_record_valid)
    as (st' & h' & Hup & Hg' & Hd & _ & Hc' & Hu & _).
  exists st', h'. rewrite Hc' , Hc. auto.
Defined.

Lemma to_numeric_number v v' :
  to_numeric v = Ok v' -> notna v' = true -> is_number v'.
Proof.
  destruct v as [| z | q | s]; simpl; intros H Hn.
  - injection H as <-. discriminate Hn.
  - injection H as <-. left; eexists; reflexivity.
  - injection H as <-. right; eexists; reflexivity.
  - destruct (text_number s) as [[z | x |] |]; try discriminate H;
      injection H as <-;
      [left; eexists; reflexivity | right; eexists; reflexivity
      | discriminate Hn].
Qed.

Lemma converted_yes_no c :
  notna (boolean_converter c) = true -> yes_no (boolean_converter c).
Proof.
  destruct (boolean_converter_range c) as [-> | [-> | ->]]; unfold yes_no;
    auto. discriminate.
Qed.

Lemma converted_optional c : optional_yes_no (boolean_converter c).
Proof.
  destruct (boolean_converter_range c) as [-> | [-> | ->]];
    unfold optional_yes_no; auto.
Qed.

(** A row of a file that passed the format stage and that [INSERT]
    accepted is well typed. *)
Lemma imported_row_typed r r' :
  passes_formats r = true ->
  numeric_row r = Ok r' ->
  not_null_ok (boolean_row r') = true ->
  record_typed (boolean_row r').
Proof.
  intros Hf Hnum Hnn.
  apply passes_formats_split in Hf as (Ha & Hp & He).
  apply is_ok_true_eq in Ha, Hp, He.
  apply numeric_row_spec in Hnum as (Hna & Hnc & Hrow).
  rewrite Hrow in Hnn |- *. unfold not_null_ok in Hnn. simpl in Hnn.
  repeat match type of Hnn with
         | (_ && _)%bool = true => apply andb_prop in Hnn as [Hnn ?]
         end.
  unfold record_typed. simpl.
  repeat split;
    eauto using to_numeric_number, converted_yes_no, converted_optional.
Qed.

Lemma import_frame_wf st input_df ts :
  store_wf st -> store_wf (snd (import_frame st input_df ts)).
Proof.
  intros Hinv.
  destruct (import_frame st input_df ts) as [o st'] eqn:E.
  assert (Hkeep : o <> Done -> st' = st).
  { intros Hne.
    replace st' with (snd (import_frame st input_df ts)) by (rewrite E; reflexivity).
    apply import_frame_keeps. rewrite E. exact Hne. }
  destruct o; try (rewrite Hkeep by discriminate; exact Hinv).
  apply import_frame_done in E as (_ & Hall & numeric & Hnum & Hex).
  apply executemany_appends in Hex as (new & Hrows & Hnew).
  simpl. unfold store_wf. rewrite Hrows. apply Forall_app. split; [exact Hinv |].
  rewrite Forall_forall in Hall |- *. intros h Hh.
  destruct (Forall2_in_r _ _ _ Hnew h Hh)
    as (d & Hd & Hdata & _ & _ & Hnn & Hbind).
  apply in_map_iff in Hd as (x & <- & Hx).
  apply in_map_iff in Hx as (r' & <- & Hr').
  destruct (Forall2_in_r _ _ _ Hnum r' Hr') as (r & Hr & Hrr').
  simpl in Hdata, Hnn, Hbind. rewrite Hdata.
  apply typed_stored; [| exact Hbind].
  destruct (row_passes_split r (Hall r Hr)) as (Hf & _).
  eapply imported_row_typed; eassumption.
Qed.

Lemma add_record_wf st stdin ts :
  store_wf st -> store_wf (snd (add_record st stdin ts)).
Proof.
  intros Hinv. unfold add_record.
  destruct (add_prompts stdin) as [[r rest] | e] eqn:E; [| exact Hinv].
  destruct (insert st r ts ts) as [st' | e] eqn:Hins; [| exact Hinv].
  apply insert_appends in Hins as (_ & Hrows & _ & Hbind).
  simpl. unfold store_wf. rewrite Hrows. apply Forall_app. split; [exact Hinv |].
  constructor; [| constructor]. simpl.
  apply typed_stored; [eapply add_prompts_typed; exact E | exact Hbind].
Qed.

Lemma get_in st record_id h : get st record_id = Some h -> In h (rows st).
Proof. unfold get. intros H. apply find_some in H. tauto. Qed.

Lemma edit_record_wf st record_id stdin now :
  store_wf st -> store_wf (snd (edit_record st record_id stdin now)).
Proof.
  intros Hinv. unfold edit_record.
  destruct (get st record_id) as [h |] eqn:Hg; [| exact Hinv].
  destruct (edit_prompts (data h) stdin) as [[r rest] | e] eqn:E; [| exact Hinv].
  destruct (update st record_id r now) as [st' | e] eqn:Hup; [| exact Hinv].
  pose proof (update_binds _ _ _ _ _ Hup) as Hbind.
  apply update_rows in Hup. simpl. unfold store_wf. rewrite Hup.
  apply Forall_map. eapply Forall_impl; [| exact Hinv].
  intros x Hx. destruct (Z.eqb (id x) record_id); [| exact Hx]. simpl.
  apply typed_stored; [| exact Hbind]. eapply edit_prompts_typed; [| exact E].
  unfold store_wf in Hinv. rewrite Forall_forall in Hinv.
  apply (Hinv h (get_in _ _ _ Hg)).
Qed.

Lemma run_wf st c : store_wf st -> store_wf (snd (run st c)).
Proof.
  destruct c; simpl.
  - intros H. unfold import_csv.
    destruct (is_blank (strip line)); [exact H |].
    destruct (read_csv (strip line)); [| exact H].
    apply import_frame_wf; exact H.
  - apply edit_record_wf.
  - apply add_record_wf.
Qed.

Lemma run_all_wf : forall history st, store_wf st -> store_wf (run_all st history).
Proof.
  induction history as [| c history IH]; intros st H; [exact H |].
  simpl. apply IH. apply run_wf; exact H.
Qed.

(** Every address, phone and email the table holds passes its validator:
    whatever files were imported and whatever was typed at the prompts,
    no record has an ill-formed address, and a phone or email is blank
    or well formed. *)
Theorem stored_fields_pass_validators :
  forall history,
    Forall (fun h =>
              validate_address (address (data h)) = Ok true
              /\ validate_phone (phone (data h)) = Ok true
              /\ validate_email (email (data h)) = Ok true)
           (rows (run_all empty_store history)).
Proof.
  intros history.
  pose proof (run_all_wf history empty_store (Forall_nil _)) as Hwf.
  eapply Forall_impl; [| exact Hwf].
  intros h [(Ha & Hp & He & _) _]. auto.
Qed.

(** The value domains of a stored record: the two counts are numbers, the
    five required yes/no columns hold 0 or 1, the seven optional or
    follow-up yes/no columns hold 0, 1, null or the empty text, and no
    NOT NULL column is null. *)
Theorem stored_fields_domains :
  forall history,
    Forall (fun h =>
              is_number (adults (data h)) /\ is_number (children (data h))
              /\ yes_no (pets (data h)) /\ yes_no (critical_meds (data h))
              /\ yes_no (has_special_needs (data h))
              /\ yes_no (has_propane_tank (data h))
              /\ yes_no (has_natural_gas (data h))
              /\ optional_yes_no (dogs (data h))
              /\ optional_yes_no (meds_need_refrigerated (data h))
              /\ optional_yes_no (has_medical_training (data h))
              /\ optional_yes_no (know_neighbors (data h))
              /\ optional_yes_no (has_neighbors_key (data h))
              /\ optional_yes_no (wants_newsletter (data h))
              /\ optional_yes_no (can_cert_contact (data h))
              /\ not_null_ok (data h) = true)
           (rows (run_all empty_store history)).
Proof.
  intros history.
  pose proof (run_all_wf history empty_store (Forall_nil _)) as Hwf.
  eapply Forall_impl; [| exact Hwf].
  intros h [Ht _].
  pose proof (typed_not_null _ Ht) as Hnn.
  destruct Ht as (_ & _ & _ & Ht). repeat split; try tauto.
Qed.

(** ** Keys *)

Lemma insert_ids st f c u st' :
  ids_consecutive st -> insert st f c u = Ok st' -> ids_consecutive st'.
Proof.
  intros [Hids Hnext] H.
  apply insert_appends in H as (_ & Hrows & Hn & _).
  unfold ids_consecutive. rewrite Hrows, Hn, length_app, map_app. simpl.
  rewrite Nat.add_1_r, seq_S, map_app, Hids, Hnext. simpl.
  split; [| lia]. do 2 f_equal. lia.
Qed.

Lemma executemany_ids : forall csv_data st st',
  ids_consecutive st -> executemany st csv_data = Ok st' ->
  ids_consecutive st'.
Proof.
  induction csv_data as [| [[f c] u] rest IH]; simpl; intros st st' Hids H.
  - injection H as <-. exact Hids.
  - apply bind_ok in H as (st1 & Hins & H).
    eapply IH; [| exact H]. eapply insert_ids; eassumption.
Qed.

Lemma update_ids st record_id f now st' :
  ids_consecutive st -> update st record_id f now = Ok st' ->
  ids_consecutive st'.
Proof.
  intros [Hids Hnext] H.
  pose proof (update_rows _ _ _ _ _ H) as Hrows.
  pose proof (update_next_id _ _ _ _ _ H) as Hn.
  unfold ids_consecutive. rewrite Hrows, Hn, length_map, map_map.
  split; [| exact Hnext]. rewrite <- Hids. apply map_ext.
  intros h. destruct (Z.eqb (id h) record_id); reflexivity.
Qed.

Lemma import_frame_ids st input_df ts :
  ids_consecutive st -> ids_consecutive (snd (import_frame st input_df ts)).
Proof.
  intros Hinv.
  destruct (import_frame st input_df ts) as [o st'] eqn:E.
  assert (Hkeep : o <> Done -> st' = st).
  { intros Hne.
    replace st' with (snd (import_frame st input_df ts)) by (rewrite E; reflexivity).
    apply import_frame_keeps. rewrite E. exact Hne. }
  destruct o; try (rewrite Hkeep by discriminate; exact Hinv).
  apply import_frame_done in E as (_ & _ & numeric & _ & Hex).
  simpl. eapply executemany_ids; eassumption.
Qed.

Lemma run_ids st c : ids_consecutive st -> ids_consecutive (snd (run st c)).
Proof.
  destruct c; simpl; intros H.
  - unfold import_csv.
    destruct (is_blank (strip line)); [exact H |].
    destruct (read_csv (strip line)); [| exact H].
    apply import_frame_ids; exact H.
  - unfold edit_record.
    destruct (get st record_id) as [h |]; [| exact H].
    destruct (edit_prompts (data h) stdin) as [[r rest] | e]; [| exact H].
    destruct (update st record_id r now) as [st' | e] eqn:Hup; [| exact H].
    simpl. eapply update_ids; eassumption.
  - unfold add_record.
    destruct (add_prompts stdin) as [[r rest] | e]; [| exact H].
    destruct (insert st r timestamp timestamp) as [st' | e] eqn:Hins;
      [| exact H].
    simpl. eapply insert_ids; eassumption.
Qed.

Lemma run_all_ids : forall history st,
  ids_consecutive st -> ids_consecutive (run_all st history).
Proof.
  induction history as [| c history IH]; intros st H; [exact H |].
  simpl. apply IH. apply run_ids; exact H.
Qed.

Lemma empty_store_ids : ids_consecutive empty_store.
Proof. split; reflexivity. Qed.

Lemma seq_ids_nodup : forall n a, NoDup (map Z.of_nat (seq a n)).
Proof.
  induction n as [| n IH]; intros a; simpl; constructor; [| apply IH].
  intros H. apply in_map_iff in H as (x & Hx & Hin).
  apply Nat2Z.inj in Hx. apply in_seq in Hin. lia.
Qed.

Lemma find_by_unique_id : forall (rs : list household) h,
  NoDup (map id rs) -> In h rs ->
  find (fun x => Z.eqb (id x) (id h)) rs = Some h.
Proof.
  induction rs as [| x rs IH]; intros h Hnd Hin; [destruct Hin |].
  simpl in Hnd. inversion Hnd as [| ? ? Hx Hrest]; subst. simpl.
  destruct Hin as [-> | Hin].
  - rewrite Z.eqb_refl. reflexivity.
  - destruct (Z.eqb (id x) (id h)) eqn:E; [| apply IH; assumption].
    apply Z.eqb_eq in E. exfalso. apply Hx. rewrite E.
    apply in_map; exact Hin.
Qed.

(** The keys of the table are 1, 2, ..., n in the order the records were
    created, whatever was imported, added or edited: no key is repeated
    or reused, and looking a stored record up by its key returns that
    record. *)
Theorem keys_are_consecutive :
  forall history,
    let st := run_all empty_store history in
    map id (rows st) = map Z.of_nat (seq 1 (List.length (rows st)))
    /\ next_id st = Z.of_nat (List.length (rows st)) + 1
    /\ NoDup (map id (rows st))
    /\ Forall (fun h => get st (id h) = Some h) (rows st).
Proof.
  intros history st.
  destruct (run_all_ids history empty_store empty_store_ids) as [Hids Hn].
  fold st in Hids, Hn.
  assert (Hnd : NoDup (map id (rows st))).
  { rewrite Hids. apply seq_ids_nodup. }
  repeat split; auto.
  rewrite Forall_forall. intros h Hin. apply find_by_unique_id; assumption.
Qed.

(** ** What an operation does to the rows *)

(** The rows after an operation: the old rows, each with its key and
    [created_at] and either untouched or stamped with the time of the
    operation, followed by new rows created and stamped at that time. *)
Lemma run_rows st c :
  exists upd new,
    rows (snd (run st c)) = map upd (rows st) ++ new
    /\ (forall h, id (upd h) = id h /\ created_at (upd h) = created_at h
                  /\ (upd h = h \/ updated_at (upd h) = time_of c))
    /\ Forall (fun h => created_at h = time_of c /\ updated_at h = time_of c)
              new.
Proof.
  assert (Hsame : forall s : store,
             exists upd new,
               rows s = map upd (rows s) ++ new
               /\ (forall h, id (upd h) = id h
                             /\ created_at (upd h) = created_at h
                             /\ (upd h = h \/ updated_at (upd h) = time_of c))
               /\ Forall (fun h => created_at h = time_of c
                                   /\ updated_at h = time_of c) new).
  { intros s. exists (fun h => h), [].
    rewrite map_id, app_nil_r. repeat split; auto. }
  destruct c as [line read_csv ts | record_id stdin now | stdin ts]; simpl.
  - unfold import_csv.
    destruct (is_blank (strip line)); [apply Hsame |].
    destruct (read_csv (strip line)) as [input_df |]; [| apply Hsame].
    destruct (import_frame st input_df ts) as [o st'] eqn:E.
    assert (Hkeep : o <> Done -> st' = st).
    { intros Hne.
      replace st' with (snd (import_frame st input_df ts))
        by (rewrite E; reflexivity).
      apply import_frame_keeps. rewrite E. exact Hne. }
    destruct o; try (simpl; rewrite Hkeep by discriminate; apply Hsame).
    apply import_frame_done in E as (_ & _ & numeric & _ & Hex).
    apply executemany_appends in Hex as (new & Hrows & Hnew).
    exists (fun h => h), new. simpl. rewrite map_id.
    split; [exact Hrows |]. split; [auto |].
    rewrite Forall_forall. intros h Hh.
    destruct (Forall2_in_r _ _ _ Hnew h Hh) as (d & Hd & _ & Hc & Hu & _).
    apply in_map_iff in Hd as (r & <- & _). simpl in Hc, Hu. auto.
  - unfold edit_record.
    destruct (get st record_id) as [h |]; [| apply Hsame].
    destruct (edit_prompts (data h) stdin) as [[r rest] | e]; [| apply Hsame].
    destruct (update st record_id r now) as [st' | e] eqn:Hup; [| apply Hsame].
    apply update_rows in Hup. simpl. rewrite Hup.
    eexists _, []. rewrite app_nil_r. split; [reflexivity |].
    split; [| constructor].
    intros x. destruct (Z.eqb (id x) record_id); simpl; auto.
  - unfold add_record.
    destruct (add_prompts stdin) as [[r rest] | e]; [| apply Hsame].
    destruct (insert st r ts ts) as [st' | e] eqn:Hins; [| apply Hsame].
    apply insert_appends in Hins as (_ & Hrows & _).
    simpl. rewrite Hrows. eexists (fun h => h), _. rewrite map_id.
    split; [reflexivity |]. split; [auto |].
    constructor; [simpl; auto | constructor].
Qed.

(** No operation removes a record, changes its key or changes its
    [created_at]: after any history the table starts with one row for
    each row it had, in the same order, under the same key and with the
    same creation time. *)
Theorem records_are_never_removed :
  forall history st,
    exists kept new,
      rows (run_all st history) = kept ++ new
      /\ Forall2 (fun h h' => id h' = id h /\ created_at h' = created_at h)
                 (rows st) kept.
Proof.
  induction history as [| c history IH]; intros st.
  - exists (rows st), []. rewrite app_nil_r. split; [reflexivity |].
    induction (rows st); constructor; auto.
  - simpl. destruct (IH (snd (run st c))) as (kept & new & Hrows & Hall).
    destruct (run_rows st c) as (upd & new0 & Hstep & Hupd & _).
    rewrite Hstep in Hall.
    apply Forall2_app_inv_l in Hall as (k1 & k2 & H1 & _ & ->).
    exists k1, (k2 ++ new). rewrite Hrows, app_assoc.
    split; [reflexivity |].
    clear - H1 Hupd. remember (map upd (rows st)) as l eqn:El.
    revert El. generalize (rows st) as rs.
    induction H1 as [| x y l k Hxy _ IHl]; intros rs El.
    + destruct rs; [constructor | discriminate El].
    + destruct rs as [| r rs]; [discriminate El |].
      simpl in El. injection El as -> ->.
      destruct (Hupd r) as (Hi & Hc & _). destruct Hxy as [Hy1 Hy2].
      constructor; [split; congruence | apply IHl; reflexivity].
Qed.

(** ** Time stamps *)

Lemma run_stamps st c t0 :
  Forall (fun h => created_at h <= updated_at h /\ updated_at h <= t0)
         (rows st) ->
  t0 <= time_of c ->
  Forall (fun h => created_at h <= updated_at h
                   /\ updated_at h <= time_of c)
         (rows (snd (run st c))).
Proof.
  intros Hinv Ht.
  destruct (run_rows st c) as (upd & new & -> & Hupd & Hnew).
  apply Forall_app. split.
  - apply Forall_map. eapply Forall_impl; [| exact Hinv].
    intros h [H1 H2]. destruct (Hupd h) as (_ & Hc & [-> | Hu]); [lia |].
    rewrite Hc, Hu. lia.
  - eapply Forall_impl; [| exact Hnew]. intros h [-> ->]. lia.
Qed.

(** When the clock never goes back from one operation to the next, every
    record has [created_at] no later than [updated_at]. *)
Theorem created_at_not_after_updated_at :
  forall history t0,
    clock_ordered t0 history ->
    Forall (fun h => created_at h <= updated_at h)
           (rows (run_all empty_store history)).
Proof.
  assert (H : forall history st t0,
             Forall (fun h => created_at h <= updated_at h
                              /\ updated_at h <= t0) (rows st) ->
             clock_ordered t0 history ->
             Forall (fun h => created_at h <= updated_at h)
                    (rows (run_all st history))).
  { induction history as [| c history IH]; intros st t0 Hinv Hclock.
    - simpl. eapply Forall_impl; [| exact Hinv]. intros h [Hh _]. exact Hh.
    - simpl. destruct Hclock as [Ht Hrest].
      apply (IH _ (time_of c)); [| exact Hrest].
      apply (run_stamps st c t0); assumption. }
  intros history t0 Hclock. apply (H history empty_store t0); [| exact Hclock].
  constructor.
Qed.

(** ** How [add_record] and [edit_record] end *)

Lemma io_bind_raise {A B : Type} (m : io A) (k : A -> io B) stdin e :
  io_bind m k stdin = Raise e ->
  m stdin = Raise e
  \/ exists a mid, m stdin = Ok (a, mid) /\ k a mid = Raise e.
Proof.
  unfold io_bind. destruct (m stdin) as [[a mid] | e'].
  - intros H. right. exists a, mid. auto.
  - intros H. left. injection H as ->. reflexivity.
Qed.

Lemma follow_up_raises (trigger : value) stdin prompt current e :
  (if eq_int trigger 1
   then edit_prompt_and_validation prompt current TBool false
   else ret VNull) stdin = Raise e ->
  input_error e.
Proof.
  destruct (eq_int trigger 1); [apply prompt_raises | discriminate].
Qed.

Ltac io_raise H :=
  apply io_bind_raise in H as [H | (? & ? & _ & H)];
  [ first [ apply prompt_raises in H; exact H
          | apply follow_up_raises in H; exact H ] | ].

Lemma add_prompts_raises stdin e :
  add_prompts stdin = Raise e -> input_error e.
Proof.
  unfold add_prompts. intros H. do 17 io_raise H. discriminate H.
Qed.

Lemma edit_prompts_raises series stdin e :
  edit_prompts series stdin = Raise e -> input_error e.
Proof.
  unfold edit_prompts. intros H. do 17 io_raise H. discriminate H.
Qed.

(** What [add_record] collects is kept by the table as it is. *)
Lemma add_prompts_kept stdin r rest :
  add_prompts stdin = Ok (r, rest) -> stored r = r.
Proof.
  intros H.
  destruct (add_prompts_counts stdin r rest H) as [(za & Ea & _) (zc & Ec & _)].
  apply typed_kept;
    [ eapply add_prompts_typed; exact H
    | rewrite Ea; reflexivity | rewrite Ec; reflexivity ].
Qed.

(** [add_record] ends in one of three ways.  Either every prompt was
    answered with counts that fit in 64 bits, and exactly one row is
    appended: it gets the next key, the collected values and the given
    time as both time stamps, and the rows before it are untouched.  Or
    the input ran out, or [int] refused a count (a superscript digit, more
    than 4300 digits), and the program stops on that exception with the
    table as it was.  Or every prompt was answered and a count is 2^63 or
    more: the INSERT raises [OverflowError] when it binds it, and the
    program stops with the table as it was.  The INSERT never fails on a
    NOT NULL column. *)
Theorem add_record_outcome :
  forall st stdin ts,
    (exists r rest,
        add_prompts stdin = Ok (r, rest)
        /\ binds_all r = true
        /\ add_record st stdin ts
           = (Done,
              {| rows := rows st ++
                         [ {| id := next_id st; data := r;
                              created_at := ts; updated_at := ts |} ];
                 next_id := next_id st + 1 |}))
    \/ (exists e,
          input_error e
          /\ add_prompts stdin = Raise e
          /\ add_record st stdin ts = (Uncaught e, st))
    \/ (exists r rest z,
          add_prompts stdin = Ok (r, rest)
          /\ (adults r = VInt z \/ children r = VInt z)
          /\ 2 ^ 63 <= z
          /\ add_record st stdin ts = (Uncaught OverflowError, st)).
Proof.
  intros st stdin ts. unfold add_record.
  destruct (add_prompts stdin) as [[r rest] | e] eqn:E.
  - pose proof (add_prompts_typed stdin r rest E) as Ht.
    destruct (binds_all r) eqn:Hb.
    + left. exists r, rest. split; [reflexivity |]. split; [exact Hb |].
      rewrite (insert_kept st r ts ts Hb (typed_not_null r Ht)
                 (add_prompts_kept stdin r rest E)).
      reflexivity.
    + right. right.
      destruct (typed_unbound r Ht Hb) as (z & Hz & Hbig).
      exists r, rest, z. split; [reflexivity |]. split; [exact Hz |].
      split.
      * apply nonneg_large; [| exact Hbig].
        destruct (add_prompts_counts stdin r rest E)
          as [(za & Ea & Hza) (zc & Ec & Hzc)].
        destruct Hz as [Hz | Hz]; [rewrite Hz in Ea | rewrite Hz in Ec];
          congruence.
      * unfold insert. rewrite Hb. reflexivity.
  - right. left. exists e. split; [| split; reflexivity].
    eapply add_prompts_raises; exact E.
Qed.

(** The counts [edit_record] collects: the stored count, or a
    non-negative integer typed at the prompt. *)
Lemma edit_prompts_counts series stdin r rest :
  edit_prompts series stdin = Ok (r, rest) ->
  (adults r = adults series \/ nonneg_integer (adults r))
  /\ (children r = children series \/ nonneg_integer (children r)).
Proof.
  unfold edit_prompts. intros H.
  do 17 io_step H. injection H as <- _. simpl.
  split;
    match goal with
    | H : edit_prompt_and_validation ?p _ TInt false _ = Ok (?v, _)
      |- ?v = _ \/ _ =>
        apply prompt_result in H as [[_ ->] | H]; [left; reflexivity | right; exact H]
    end.
Qed.

Lemma stored_fields f :
  stored f = f ->
  integer_affinity (adults f) = adults f
  /\ integer_affinity (children f) = children f.
Proof.
  intros H. split;
    [apply (f_equal adults) in H | apply (f_equal children) in H]; exact H.
Qed.

Lemma binds_all_counts f :
  binds_all f = true -> binds (adults f) = true /\ binds (children f) = true.
Proof.
  unfold binds_all. intros H.
  repeat match type of H with
         | (_ && _)%bool = true => apply andb_prop in H as [H ?]
         end.
  auto.
Qed.

(** What [edit_record] collects from a record of the table is kept by the
    table as it is. *)
Lemma edit_prompts_kept series stdin r rest :
  record_wf series ->
  edit_prompts series stdin = Ok (r, rest) -> stored r = r.
Proof.
  intros (Ht & Hs & _) H.
  destruct (stored_fields series Hs) as [Sa Sc].
  destruct (edit_prompts_counts series stdin r rest H) as [Ha Hc].
  apply typed_kept; [eapply edit_prompts_typed; eassumption | |].
  - destruct Ha as [-> | (z & -> & _)]; [exact Sa | reflexivity].
  - destruct Hc as [-> | (z & -> & _)]; [exact Sc | reflexivity].
Qed.

(** On a table the program built and for a key that fits in 64 bits,
    [edit_record] ends in one of four ways: the key is unknown, nothing
    is read and nothing changes; or every prompt was answered and the
    record under that key now holds the collected values, its old
    [created_at] and the given time as [updated_at]; or the input ran
    out, or [int] refused a count, and the program stops on that
    exception with the table as it was; or a count of 2^63 or more was
    typed, the UPDATE raises [OverflowError] when it binds it, and the
    program stops with the table as it was.  The UPDATE never fails on a
    NOT NULL column. *)
Theorem edit_record_outcome :
  forall history record_id stdin now,
    let st := run_all empty_store history in
    int64 record_id = true ->
    (get st record_id = None
     /\ edit_record st record_id stdin now = (Rejected NotFound, st))
    \/ (exists h r rest st',
           get st record_id = Some h
           /\ edit_prompts (data h) stdin = Ok (r, rest)
           /\ binds_all r = true
           /\ edit_record st record_id stdin now = (Done, st')
           /\ get st' record_id
              = Some {| id := id h; data := r;
                        created_at := created_at h; updated_at := now |})
    \/ (exists h e,
          get st record_id = Some h
          /\ input_error e
          /\ edit_prompts (data h) stdin = Raise e
          /\ edit_record st record_id stdin now = (Uncaught e, st))
    \/ (exists h r rest z,
          get st record_id = Some h
          /\ edit_prompts (data h) stdin = Ok (r, rest)
          /\ (adults r = VInt z \/ children r = VInt z)
          /\ 2 ^ 63 <= z
          /\ edit_record st record_id stdin now
             = (Uncaught OverflowError, st)).
Proof.
  intros history record_id stdin now st _.
  pose proof (run_all_wf history empty_store (Forall_nil _)) as Hwf.
  fold st in Hwf. unfold edit_record.
  destruct (get st record_id) as [h |] eqn:Hg; [| left; auto].
  right.
  assert (Hh : record_wf (data h)).
  { unfold store_wf in Hwf. rewrite Forall_forall in Hwf.
    apply (Hwf h (get_in _ _ _ Hg)). }
  destruct (edit_prompts (data h) stdin) as [[r rest] | e] eqn:E.
  - assert (Ht : record_typed r).
    { eapply edit_prompts_typed; [| exact E]. apply Hh. }
    destruct (binds_all r) eqn:Hb.
    + left.
      destruct (update_filled st record_id r now (typed_not_null r Ht) Hb)
        as (st' & Hup).
      rewrite Hup. exists h, r, rest, st'.
      split; [reflexivity |]. split; [exact E |]. split; [exact Hb |].
      split; [reflexivity |].
      rewrite (get_update _ _ _ _ _ _ Hg Hup),
        (edit_prompts_kept _ _ _ _ Hh E).
      reflexivity.
    + right. right.
      destruct (typed_unbound r Ht Hb) as (z & Hz & Hbig).
      exists h, r, rest, z.
      split; [reflexivity |]. split; [exact E |]. split; [exact Hz |].
      split; [| unfold update; rewrite Hb; reflexivity].
      destruct Hh as (_ & _ & Hbh).
      destruct (binds_all_counts _ Hbh) as [Bha Bhc].
      destruct (edit_prompts_counts _ _ _ _ E) as [Ha Hc].
      apply nonneg_large; [| exact Hbig].
      destruct Hz as [Hz | Hz].
      * destruct Ha as [Ha | (z' & Ha & Hpos)].
        -- rewrite <- Ha, Hz in Bha. simpl in Bha. congruence.
        -- congruence.
      * destruct Hc as [Hc | (z' & Hc & Hpos)].
        -- rewrite <- Hc, Hz in Bhc. simpl in Bhc. congruence.
        -- congruence.
  - right. left. exists h, e. split; [reflexivity |].
    split; [eapply edit_prompts_raises; exact E |].
    split; [exact E | reflexivity].
Qed.

(** ** Editing with blank answers *)

Lemma run_all_inv : forall history st, store_inv st -> store_inv (run_all st history).
Proof.
  induction history as [| c history IH]; intros st H; [exact H |].
  simpl. apply IH. apply run_inv; exact H.
Qed.

(** With sixteen blank lines after the answer to the address prompt, the
    prompts of [edit_record] hand back the stored record with that one
    value replaced. *)
Lemma edit_prompts_rest_blank series stdin v :
  yes_no (pets series) -> yes_no (critical_meds series) ->
  cond_inv series ->
  edit_prompt_and_validation "Address" (address series) TStr false stdin
  = Ok (v, repeat EmptyString 16) ->
  exists rest, edit_prompts series stdin = Ok (with_address series v, rest).
Proof.
  intros Hp Hm [Hd Hr] H.
  unfold edit_prompts, io_bind, ret, with_address. rewrite H.
  cbn [repeat].
  rewrite !(prompt_blank_keeps _ _ _ EmptyString _ eq_refl).
  destruct Hp as [Ep | Ep]; rewrite Ep in *.
  - change (eq_int (VInt 1) 1) with true. cbv beta iota.
    rewrite !(prompt_blank_keeps _ _ _ EmptyString _ eq_refl).
    destruct Hm as [Em | Em]; rewrite Em in *.
    + change (eq_int (VInt 1) 1) with true. cbv beta iota.
      rewrite !(prompt_blank_keeps _ _ _ EmptyString _ eq_refl).
      eexists; reflexivity.
    + change (eq_int (VInt 0) 1) with false. cbv beta iota.
      rewrite !(prompt_blank_keeps _ _ _ EmptyString _ eq_refl).
      rewrite (Hr eq_refl). eexists; reflexivity.
  - change (eq_int (VInt 0) 1) with false. cbv beta iota.
    rewrite !(prompt_blank_keeps _ _ _ EmptyString _ eq_refl).
    rewrite (Hd eq_refl).
    destruct Hm as [Em | Em]; rewrite Em in *.
    + change (eq_int (VInt 1) 1) with true. cbv beta iota.
      rewrite !(prompt_blank_keeps _ _ _ EmptyString _ eq_refl).
      eexists; reflexivity.
    + change (eq_int (VInt 0) 1) with false. cbv beta iota.
      rewrite !(prompt_blank_keeps _ _ _ EmptyString _ eq_refl).
      rewrite (Hr eq_refl). eexists; reflexivity.
Qed.

Lemma stored_with_address f v :
  stored f = f -> stored (with_address f v) = with_address f v.
Proof.
  intros H. transitivity (with_address (stored f) v);
    [reflexivity | rewrite H; reflexivity].
Qed.

Lemma with_address_same f : with_address f (address f) = f.
Proof. destruct f; reflexivity. Qed.

(** The record of a table the program built, with the facts the blank
    edits need. *)
Lemma reachable_record history record_id h :
  get (run_all empty_store history) record_id = Some h ->
  record_typed (data h) /\ stored (data h) = data h /\ cond_inv (data h)
  /\ binds_all (data h) = true.
Proof.
  intros Hg. apply get_in in Hg.
  pose proof (run_all_wf history empty_store (Forall_nil _)) as Hwf.
  pose proof (run_all_inv history empty_store (Forall_nil _)) as Hinv.
  unfold store_wf in Hwf. unfold store_inv in Hinv.
  rewrite Forall_forall in Hwf, Hinv.
  destruct (Hwf h Hg) as (Ht & Hs & Hb). auto.
Qed.

Lemma edit_with_blanks history record_id h stdin v now :
  let st := run_all empty_store history in
  get st record_id = Some h ->
  notna v = true ->
  binds v = true ->
  edit_prompt_and_validation "Address" (address (data h)) TStr false stdin
  = Ok (v, repeat EmptyString 16) ->
  exists st',
    edit_record st record_id stdin now = (Done, st')
    /\ get st' record_id
       = Some {| id := id h; data := with_address (data h) v;
                 created_at := created_at h; updated_at := now |}
    /\ List.length (rows st') = List.length (rows st)
    /\ forall other, other <> record_id -> get st' other = get st other.
Proof.
  intros st Hg Hv Hbind Hprompt.
  destruct (reachable_record history record_id h Hg) as (Ht & Hs & Hc & Hbh).
  assert (Hp : yes_no (pets (data h))) by (unfold record_typed in Ht; tauto).
  assert (Hm : yes_no (critical_meds (data h)))
    by (unfold record_typed in Ht; tauto).
  destruct (edit_prompts_rest_blank (data h) stdin v Hp Hm Hc Hprompt)
    as (rest & Hed).
  assert (Hnn : not_null_ok (with_address (data h) v) = true).
  { pose proof (typed_not_null _ Ht) as Hn. unfold not_null_ok in *.
    simpl. rewrite Hv.
    destruct (notna (address (data h))); [exact Hn | discriminate Hn]. }
  assert (Hbv : binds_all (with_address (data h) v) = true).
  { unfold binds_all in *. simpl. rewrite Hbind.
    destruct (binds (address (data h))); [exact Hbh | discriminate Hbh]. }
  destruct (update_filled st record_id (with_address (data h) v) now Hnn Hbv)
    as (st' & Hup).
  exists st'. unfold edit_record. fold st. rewrite Hg, Hed, Hup.
  split; [reflexivity |]. split.
  - rewrite (get_update _ _ _ _ _ _ Hg Hup), (stored_with_address _ _ Hs).
    reflexivity.
  - split.
    + rewrite (update_rows _ _ _ _ _ Hup). apply length_map.
    + intros other Hne. unfold get. rewrite (update_rows _ _ _ _ _ Hup).
      apply find_other; exact Hne.
Qed.

(** Editing a record of a table the program built by typing a new valid
    address and leaving every other prompt blank changes that record's
    address and [updated_at] and nothing else: its other sixteen values,
    its key and its [created_at] stay, no record is added, and the
    records under other keys are returned as before. *)
Theorem edit_address_only :
  forall history record_id h a now,
    let st := run_all empty_store history in
    get st record_id = Some h ->
    validate_address (VText (strip a)) = Ok true ->
    exists st',
      edit_record st record_id (a :: repeat EmptyString 16) now = (Done, st')
      /\ get st' record_id
         = Some {| id := id h;
                   data := with_address (data h) (VText (strip a));
                   created_at := created_at h; updated_at := now |}
      /\ List.length (rows st') = List.length (rows st)
      /\ forall other, other <> record_id -> get st' other = get st other.
Proof.
  intros history record_id h a now st Hg Ha.
  apply (edit_with_blanks history record_id h _ (VText (strip a)) now Hg
           eq_refl eq_refl).
  apply prompt_address_ok; exact Ha.
Qed.

(** Going through the prompts of [edit_record] without typing anything,
    on a record of a table the program built, changes its [updated_at]
    and nothing else. *)
Theorem edit_nothing_changes_only_updated_at :
  forall history record_id h now,
    let st := run_all empty_store history in
    get st record_id = Some h ->
    exists st',
      edit_record st record_id (repeat EmptyString 17) now = (Done, st')
      /\ get st' record_id
         = Some {| id := id h; data := data h;
                   created_at := created_at h; updated_at := now |}
      /\ List.length (rows st') = List.length (rows st)
      /\ forall other, other <> record_id -> get st' other = get st other.
Proof.
  intros history record_id h now st Hg.
  destruct (reachable_record history record_id h Hg) as (Ht & _ & _).
  assert (Hn : notna (address (data h)) = true
               /\ binds (address (data h)) = true).
  { destruct Ht as (Ha & _). destruct (address (data h));
      try discriminate Ha. split; reflexivity. }
  destruct Hn as [Hn Hbn].
  destruct (edit_with_blanks history record_id h (repeat EmptyString 17)
              (address (data h)) now Hg Hn Hbn) as (st' & H).
  - apply (prompt_blank_keeps _ _ _ EmptyString _ eq_refl).
  - exists st'. rewrite with_address_same in H. exact H.
Qed.

(** ** The phone pattern *)

Lemma opt_cls_iff p s : re_lang (Opt (Cls p)) s <-> at_most_one p s.
Proof.
  unfold Opt, at_most_one. rewrite re_alt_iff, re_cls_iff, re_eps_iff. tauto.
Qed.

Lemma area_code_language s :
  re_lang (Alt (Seq [Lit "("; Rep 3 (Cls is_digit); Lit ")"])
               (Rep 3 (Cls is_digit))) s
  <-> area_code s.
Proof.
  unfold area_code. rewrite re_alt_iff, rep_cls_iff. split.
  - intros [H | H]; [right | left; exact H].
    unfold Seq in H.
    apply re_cat_iff in H as (o & t1 & -> & Ho & H).
    apply re_cat_iff in H as (d & t2 & -> & Hd & H).
    apply re_cat_iff in H as (c & t3 & -> & Hc & H).
    apply re_eps_iff in H. subst t3.
    apply lit_iff in Ho, Hc. subst o c. apply rep_cls_iff in Hd.
    exists d. rewrite app_nil_r. split; [reflexivity | exact Hd].
  - intros [H | (d & -> & Hd)]; [right; exact H | left].
    unfold Seq.
    apply (L_cat _ _ ["("%char]); [apply lit_iff; reflexivity |].
    apply L_cat; [apply rep_cls_iff; exact Hd |].
    rewrite <- (app_nil_r [")"%char]).
    apply L_cat; [apply lit_iff; reflexivity | constructor].
Qed.

(** The language of [PHONE_REGEX] is the grammar in words. *)
Lemma phone_language s : re_lang PHONE_REGEX s <-> phone_shape s.
Proof.
  unfold PHONE_REGEX, phone_shape.
  change (Seq [ Star (Cls is_space);
                Alt (Seq [Lit "("; Rep 3 (Cls is_digit); Lit ")"])
                    (Rep 3 (Cls is_digit));
                Opt (Cls phone_sep); Rep 3 (Cls is_digit);
                Opt (Cls phone_sep); Rep 4 (Cls is_digit);
                Star (Cls is_space) ])
    with (Cat (Star (Cls is_space))
           (Cat (Alt (Seq [Lit "("; Rep 3 (Cls is_digit); Lit ")"])
                     (Rep 3 (Cls is_digit)))
             (Cat (Opt (Cls phone_sep))
               (Cat (Rep 3 (Cls is_digit))
                 (Cat (Opt (Cls phone_sep))
                   (Cat (Rep 4 (Cls is_digit))
                     (Cat (Star (Cls is_space)) Eps))))))).
  split.
  - intros H.
    apply re_cat_iff in H as (lead & t1 & -> & Hlead & H).
    apply re_cat_iff in H as (area & t2 & -> & Harea & H).
    apply re_cat_iff in H as (sep1 & t3 & -> & Hsep1 & H).
    apply re_cat_iff in H as (mid & t4 & -> & Hmid & H).
    apply re_cat_iff in H as (sep2 & t5 & -> & Hsep2 & H).
    apply re_cat_iff in H as (last & t6 & -> & Hlast & H).
    apply re_cat_iff in H as (trail & t7 & -> & Htrail & H).
    apply re_eps_iff in H. subst t7.
    apply star_cls_iff in Hlead, Htrail.
    apply area_code_language in Harea.
    apply opt_cls_iff in Hsep1, Hsep2.
    apply rep_cls_iff in Hmid, Hlast.
    exists lead, area, sep1, mid, sep2, last, trail.
    rewrite app_nil_r. split; [reflexivity | tauto].
  - intros (lead & area & sep1 & mid & sep2 & last & trail & -> & Hlead
            & Harea & Hsep1 & Hmid & Hsep2 & Hlast & Htrail).
    apply L_cat; [apply star_cls_iff; exact Hlead |].
    apply L_cat; [apply area_code_language; exact Harea |].
    apply L_cat; [apply opt_cls_iff; exact Hsep1 |].
    apply L_cat; [apply rep_cls_iff; exact Hmid |].
    apply L_cat; [apply opt_cls_iff; exact Hsep2 |].
    apply L_cat; [apply rep_cls_iff; exact Hlast |].
    rewrite <- (app_nil_r trail).
    apply L_cat; [apply star_cls_iff; exact Htrail | constructor].
Qed.

Lemma phone_shape_newline s : phone_shape s -> phone_shape (s ++ [newline]).
Proof.
  intros (lead & area & sep1 & mid & sep2 & last & trail & -> & Hlead
          & Harea & Hsep1 & Hmid & Hsep2 & Hlast & Htrail).
  exists lead, area, sep1, mid, sep2, last, (trail ++ [newline]).
  split; [repeat rewrite <- app_assoc; reflexivity |].
  assert (Ht : forallb is_space (trail ++ [newline]) = true)
    by (rewrite forallb_app, Htrail; reflexivity).
  tauto.
Qed.

Lemma is_blank_iff s : is_blank s = true <-> s = EmptyString.
Proof. unfold is_blank. apply String.eqb_eq. Qed.

Lemma validate_phone_shape :
  forall t,
    validate_phone (VText t) = Ok true <->
    strip t = EmptyString \/ phone_shape (list_ascii_of_string t).
Proof.
  intros t. unfold validate_phone, blank_cell.
  destruct (is_blank (strip t)) eqn:Hb.
  - apply is_blank_iff in Hb.
    split; [intros _; left; exact Hb | intros _; reflexivity].
  - assert (Hne : strip t <> EmptyString) by (apply is_blank_false; exact Hb).
    unfold re_match. split.
    + intros H. injection H as H. right.
      apply orb_prop in H as [H | H].
      * apply phone_language, re_accepts_spec; exact H.
      * destruct (chop_newline (list_ascii_of_string t)) as [s |] eqn:E;
          [| discriminate H].
        apply chop_newline_spec in E. rewrite E.
        apply phone_shape_newline, phone_language, re_accepts_spec; exact H.
    + intros [H | H]; [contradiction |].
      f_equal. apply orb_true_iff. left.
      apply re_accepts_spec, phone_language; exact H.
Qed.

(** [validate_phone] on a text: true exactly when the text is blank or
    has the shape of the grammar (the blanks that may end it include a
    final line feed). *)
Theorem validate_phone_spec :
  forall t,
    validate_phone (VText t) = Ok true <->
    strip t = EmptyString \/ phone_shape (list_ascii_of_string t).
Proof. exact validate_phone_shape. Qed.

Lemma count_of_app p a b : count_of p (a ++ b) = (count_of p a + count_of p b)%nat.
Proof. unfold count_of. rewrite filter_app, length_app. reflexivity. Qed.

Lemma count_of_all p : forall s, forallb p s = true -> count_of p s = List.length s.
Proof.
  unfold count_of. induction s as [| c s IH]; simpl; intros H; [reflexivity |].
  apply andb_prop in H as [Hc Hs]. rewrite Hc. simpl. rewrite IH; auto.
Qed.

Lemma count_of_none p q :
  (forall c, q c = true -> p c = false) ->
  forall s, forallb q s = true -> count_of p s = 0%nat.
Proof.
  intros Hpq. unfold count_of.
  induction s as [| c s IH]; simpl; intros H; [reflexivity |].
  apply andb_prop in H as [Hc Hs]. rewrite (Hpq c Hc). apply IH; exact Hs.
Qed.

Lemma is_space_not_digit c : is_space c = true -> is_digit c = false.
Proof.
  unfold is_space, is_digit, in_range. intros H.
  repeat rewrite orb_true_iff in H. repeat rewrite andb_true_iff in H.
  repeat rewrite N.leb_le in H. repeat rewrite N.eqb_eq in H.
  apply andb_false_iff.
  destruct (N.leb_spec 48 (code c)); [right; apply N.leb_gt; lia | left; reflexivity].
Qed.

Lemma phone_sep_not_digit c : phone_sep c = true -> is_digit c = false.
Proof.
  unfold phone_sep. intros H.
  apply orb_prop in H as [H | H]; [apply orb_prop in H as [H | H] |].
  - apply Ascii.eqb_eq in H. subst c. reflexivity.
  - apply is_space_not_digit; exact H.
  - apply Ascii.eqb_eq in H. subst c. reflexivity.
Qed.

Lemma exactly_count n p s : exactly n p s -> count_of p s = n.
Proof. intros [Hl H]. rewrite count_of_all; assumption. Qed.

Lemma phone_shape_digits s : phone_shape s -> count_of is_digit s = 10%nat.
Proof.
  intros (lead & area & sep1 & mid & sep2 & last & trail & -> & Hlead
          & Harea & Hsep1 & Hmid & Hsep2 & Hlast & Htrail).
  assert (Hsep : forall x, at_most_one phone_sep x -> count_of is_digit x = 0%nat).
  { intros x [-> | (c & -> & Hc)]; [reflexivity |].
    unfold count_of. simpl. rewrite (phone_sep_not_digit c Hc). reflexivity. }
  assert (Ha : count_of is_digit area = 3%nat).
  { destruct Harea as [H | (d & -> & H)]; [apply exactly_count; exact H |].
    change ("("%char :: d ++ [")"%char]) with (["("%char] ++ d ++ [")"%char]).
    rewrite !count_of_app, (exactly_count _ _ _ H). reflexivity. }
  rewrite !count_of_app, Ha, (Hsep _ Hsep1), (Hsep _ Hsep2),
    (exactly_count _ _ _ Hmid), (exactly_count _ _ _ Hlast),
    (count_of_none _ _ is_space_not_digit lead Hlead),
    (count_of_none _ _ is_space_not_digit trail Htrail).
  reflexivity.
Qed.

(** A phone that [validate_phone] accepts and that is not blank holds
    exactly ten digits. *)
Theorem accepted_phone_has_ten_digits :
  forall t,
    validate_phone (VText t) = Ok true ->
    strip t = EmptyString
    \/ count_of is_digit (list_ascii_of_string t) = 10%nat.
Proof.
  intros t H. apply validate_phone_shape in H as [H | H]; [left; exact H |].
  right. apply phone_shape_digits; exact H.
Qed.

Lemma accepted_phone_has_ten_digits_witness :
  strip "(555) 123-4567" = EmptyString
  \/ count_of is_digit (list_ascii_of_string "(555) 123-4567") = 10%nat.
Proof.
  apply (accepted_phone_has_ten_digits "(555) 123-4567").
  vm_compute. reflexivity.
Defined.

(** ** The email pattern *)

(** The language of [EMAIL_REGEX] is the grammar in words. *)
Lemma email_language s : re_lang EMAIL_REGEX s <-> email_shape s.
Proof.
  unfold EMAIL_REGEX, email_shape.
  change (Seq [ Plus (Cls email_local_char); Lit "@";
                Plus (Cls email_domain_char); Lit ".";
                Rep 2 (Cls is_alpha); Star (Cls is_alpha) ])
    with (Cat (Plus (Cls email_local_char))
           (Cat (Lit "@")
             (Cat (Plus (Cls email_domain_char))
               (Cat (Lit ".")
                 (Cat (Rep 2 (Cls is_alpha))
                   (Cat (Star (Cls is_alpha)) Eps)))))).
  split.
  - intros H.
    apply re_cat_iff in H as (local & t1 & -> & Hlocal & H).
    apply re_cat_iff in H as (a & t2 & -> & Ha & H).
    apply re_cat_iff in H as (domain & t3 & -> & Hdomain & H).
    apply re_cat_iff in H as (d & t4 & -> & Hd & H).
    apply re_cat_iff in H as (two & t5 & -> & Htwo & H).
    apply re_cat_iff in H as (more & t6 & -> & Hmore & H).
    apply re_eps_iff in H. subst t6.
    apply lit_iff in Ha, Hd. subst a d.
    apply plus_cls_iff in Hlocal, Hdomain.
    apply rep_cls_iff in Htwo. destruct Htwo as [Hl2 Ha2].
    apply star_cls_iff in Hmore.
    exists local, domain, (two ++ more).
    rewrite app_nil_r. split; [reflexivity |].
    split; [exact Hlocal |]. split; [exact Hdomain |].
    rewrite length_app, forallb_app, Ha2, Hmore. split; [lia | reflexivity].
  - intros (local & domain & tld & -> & Hlocal & Hdomain & Hlen & Htld).
    apply L_cat; [apply plus_cls_iff; exact Hlocal |].
    apply (L_cat _ _ ["@"%char]); [apply lit_iff; reflexivity |].
    apply L_cat; [apply plus_cls_iff; exact Hdomain |].
    apply (L_cat _ _ ["."%char]); [apply lit_iff; reflexivity |].
    rewrite <- (firstn_skipn 2 tld) in Htld |- *.
    rewrite forallb_app in Htld. apply andb_prop in Htld as [H2 Hrest].
    apply L_cat.
    + apply rep_cls_iff. split; [| exact H2].
      rewrite firstn_length_le; [reflexivity | exact Hlen].
    + rewrite <- (app_nil_r (skipn 2 tld)).
      apply L_cat; [apply star_cls_iff; exact Hrest | constructor].
Qed.

Lemma validate_email_shape :
  forall t,
    validate_email (VText t) = Ok true <->
    strip t = EmptyString
    \/ email_shape (list_ascii_of_string t)
    \/ exists s, list_ascii_of_string t = s ++ [newline] /\ email_shape s.
Proof.
  intros t. unfold validate_email, blank_cell.
  destruct (is_blank (strip t)) eqn:Hb.
  - apply is_blank_iff in Hb.
    split; [intros _; left; exact Hb | intros _; reflexivity].
  - assert (Hne : strip t <> EmptyString) by (apply is_blank_false; exact Hb).
    unfold re_match. split.
    + intros H. injection H as H. right.
      apply orb_prop in H as [H | H].
      * left. apply email_language, re_accepts_spec; exact H.
      * right.
        destruct (chop_newline (list_ascii_of_string t)) as [s |] eqn:E;
          [| discriminate H].
        exists s. split; [apply chop_newline_spec; exact E |].
        apply email_language, re_accepts_spec; exact H.
    + intros [H | [H | (s & E & H)]]; [contradiction | |];
        f_equal; apply orb_true_iff.
      * left. apply re_accepts_spec, email_language; exact H.
      * right. apply chop_newline_spec in E. rewrite E.
        apply re_accepts_spec, email_language; exact H.
Qed.

(** [validate_email] on a text: true exactly when the text is blank, has
    the shape of the grammar, or has that shape followed by one line
    feed. *)
Theorem validate_email_spec :
  forall t,
    validate_email (VText t) = Ok true <->
    strip t = EmptyString
    \/ email_shape (list_ascii_of_string t)
    \/ exists s, list_ascii_of_string t = s ++ [newline] /\ email_shape s.
Proof. exact validate_email_shape. Qed.

Lemma count_char_none p x s :
  p x = false -> forallb p s = true -> count_of (Ascii.eqb x) s = 0%nat.
Proof.
  intros Hx Hs. apply (count_of_none (Ascii.eqb x) p); [| exact Hs].
  intros c Hc. destruct (Ascii.eqb x c) eqn:E; [| reflexivity].
  apply Ascii.eqb_eq in E. subst c. rewrite Hx in Hc. discriminate Hc.
Qed.

Lemma email_shape_one_at s :
  email_shape s -> count_of (Ascii.eqb "@") s = 1%nat.
Proof.
  intros (local & domain & tld & -> & [_ Hlocal] & [_ Hdomain] & _ & Htld).
  change ("@"%char :: domain ++ "."%char :: tld)
    with (["@"%char] ++ domain ++ ["."%char] ++ tld).
  rewrite !count_of_app.
  rewrite (count_char_none email_local_char "@" local eq_refl Hlocal),
    (count_char_none email_domain_char "@" domain eq_refl Hdomain),
    (count_char_none is_alpha "@" tld eq_refl Htld).
  reflexivity.
Qed.

(** An email that [validate_email] accepts and that is not blank holds
    exactly one at sign. *)
Theorem accepted_email_has_one_at_sign :
  forall t,
    validate_email (VText t) = Ok true ->
    strip t = EmptyString
    \/ count_of (Ascii.eqb "@") (list_ascii_of_string t) = 1%nat.
Proof.
  intros t H.
  apply validate_email_shape in H as [H | [H | (s & E & H)]];
    [left; exact H | right | right].
  - apply email_shape_one_at; exact H.
  - rewrite E, count_of_app, (email_shape_one_at s H). reflexivity.
Qed.

Lemma accepted_email_has_one_at_sign_witness :
  strip "cert.lead@example.org" = EmptyString
  \/ count_of (Ascii.eqb "@") (list_ascii_of_string "cert.lead@example.org")
     = 1%nat.
Proof.
  apply (accepted_email_has_one_at_sign "cert.lead@example.org").
  vm_compute. reflexivity.
Defined.

(** ** Cells of the wrong type stop the import with an exception *)

Lemma mapM_raises_with {A B : Type} (f : A -> result B) (E : exn) :
  (forall a e, f a = Raise e -> e = E) ->
  forall l, (exists a, In a l /\ is_ok (f a) = false) -> mapM f l = Raise E.
Proof.
  intros Hall. induction l as [| x l IH]; intros (a & Hin & Ha);
    [destruct Hin |].
  simpl. destruct (f x) as [b | e] eqn:Hx.
  - simpl. destruct Hin as [-> | Hin]; [rewrite Hx in Ha; discriminate Ha |].
    rewrite IH; [reflexivity | exists a; auto].
  - simpl. rewrite (Hall x e Hx). reflexivity.
Qed.

Lemma validate_address_raises v e : validate_address v = Raise e -> e = TypeError.
Proof. destruct v; simpl; intros H; try discriminate H; injection H as <-; reflexivity. Qed.

Lemma validate_phone_raises v e : validate_phone v = Raise e -> e = TypeError.
Proof.
  unfold validate_phone. destruct (blank_cell v); [discriminate |].
  destruct v; intros H; try discriminate H; injection H as <-; reflexivity.
Qed.

(** A file with all its columns in which some address cell is not a text
    (a blank cell, which pandas reads as NaN, or a number) makes
    [import_csv] stop on an uncaught [TypeError] raised by the address
    pattern; nothing is written. *)
Theorem import_csv_non_text_address :
  forall st line read_csv ts input_df r,
    is_blank (strip line) = false ->
    read_csv (strip line) = Some input_df ->
    missing_columns_of input_df = [] ->
    In r (raw_rows input_df) ->
    (forall s, address r <> VText s) ->
    import_csv st line read_csv ts = (Uncaught TypeError, st).
Proof.
  intros st line read_csv ts input_df r Hb Hread Hmiss Hin Hr.
  rewrite (import_csv_reads st line read_csv ts input_df Hb Hread).
  unfold import_frame. rewrite Hmiss. simpl.
  rewrite (mapM_raises_with (fun x => validate_address (address x)) TypeError);
    [reflexivity | |].
  - intros a e. apply validate_address_raises.
  - exists r. split; [exact Hin |].
    destruct (address r) as [| z | q | s]; try reflexivity.
    contradiction (Hr s). reflexivity.
Qed.

(** A file with all its columns and valid addresses in which some phone
    cell is a number (a column of bare digits, which pandas reads as
    integers or floats) makes [import_csv] stop on an uncaught
    [TypeError] raised by the phone pattern; nothing is written. *)
Theorem import_csv_numeric_phone :
  forall st line read_csv ts input_df r,
    is_blank (strip line) = false ->
    read_csv (strip line) = Some input_df ->
    missing_columns_of input_df = [] ->
    Forall (fun x => validate_address (address x) = Ok true)
           (raw_rows input_df) ->
    In r (raw_rows input_df) ->
    is_number (phone r) ->
    import_csv st line read_csv ts = (Uncaught TypeError, st).
Proof.
  intros st line read_csv ts input_df r Hb Hread Hmiss Haddr Hin Hr.
  rewrite (import_csv_reads st line read_csv ts input_df Hb Hread).
  unfold import_frame. rewrite Hmiss. simpl.
  assert (Fa : Forall (fun x => is_ok_true (validate_address (address x)) = true)
                      (raw_rows input_df)).
  { eapply Forall_impl; [| exact Haddr]. intros x ->. reflexivity. }
  destruct (invalid_rows_all_valid (fun x => validate_address (address x))
              address _ Fa) as (va & -> & ->).
  simpl.
  rewrite (mapM_raises_with (fun x => validate_phone (phone x)) TypeError);
    [reflexivity | |].
  - intros a e. apply validate_phone_raises.
  - exists r. split; [exact Hin |].
    destruct Hr as [[z ->] | [q ->]]; reflexivity.
Qed.

(** ** Sessions *)

Lemma follow_up_consumes (trigger : value) stdin prompt current v rest :
  (if eq_int trigger 1
   then edit_prompt_and_validation prompt current TBool false
   else ret VNull) stdin = Ok (v, rest) ->
  (List.length rest <= List.length stdin)%nat.
Proof.
  destruct (eq_int trigger 1).
  - intros H. apply prompt_consumes in H. lia.
  - intros H. injection H as _ <-. lia.
Qed.

Ltac consumed :=
  repeat match goal with
         | H : edit_prompt_and_validation _ _ _ _ _ = Ok _ |- _ =>
             apply prompt_consumes in H
         | H : (if eq_int _ 1 then _ else ret VNull) _ = Ok _ |- _ =>
             apply follow_up_consumes in H
         end.

Lemma add_prompts_consumes stdin r rest :
  add_prompts stdin = Ok (r, rest) ->
  (List.length rest <= List.length stdin)%nat.
Proof.
  unfold add_prompts. intros H.
  do 17 io_step H. injection H as _ <-. consumed. lia.
Qed.

Lemma edit_prompts_consumes series stdin r rest :
  edit_prompts series stdin = Ok (r, rest) ->
  (List.length rest <= List.length stdin)%nat.
Proof.
  unfold edit_prompts. intros H.
  do 17 io_step H. injection H as _ <-. consumed. lia.
Qed.

Lemma leftover_add stdin :
  (List.length (leftover add_prompts stdin) <= List.length stdin)%nat.
Proof.
  unfold leftover. destruct (add_prompts stdin) as [[r rest] | e] eqn:E.
  - eapply add_prompts_consumes; exact E.
  - simpl. lia.
Qed.

Lemma leftover_edit st record_id stdin :
  (List.length (edit_leftover st record_id stdin) <= List.length stdin)%nat.
Proof.
  unfold edit_leftover, leftover.
  destruct (get st record_id) as [h |]; [| lia].
  destruct (edit_prompts (data h) stdin) as [[r rest] | e] eqn:E.
  - eapply edit_prompts_consumes; exact E.
  - simpl. lia.
Qed.

Lemma edit_record_ids st record_id stdin now :
  map id (rows (snd (edit_record st record_id stdin now)))
  = map id (rows st).
Proof.
  unfold edit_record.
  destruct (get st record_id) as [h |]; [| reflexivity].
  destruct (edit_prompts (data h) stdin) as [[r rest] | e]; [| reflexivity].
  destruct (update st record_id r now) as [st' | e] eqn:Hup; [| reflexivity].
  simpl. rewrite (update_rows _ _ _ _ _ Hup), map_map.
  apply map_ext. intros x. destruct (Z.eqb (id x) record_id); reflexivity.
Qed.

Lemma run_all_app st a b : run_all st (a ++ b) = run_all (run_all st a) b.
Proof. unfold run_all. apply fold_left_app. Qed.

(** The loop of [view_records], given more fuel than lines: it ends; it
    leaves no more lines than it was given; its table is the one its
    edits produce; it changes no key; and every edit it performs is on a
    key of the table. *)
Lemma view_loop_spec :
  forall fuel clock records_df st stdin k,
    (List.length stdin < fuel)%nat ->
    (forall entry, In entry records_df ->
                   In (fst entry) (map id (rows st))) ->
    exists s,
      view_loop fuel clock records_df st stdin k = Some s
      /\ (List.length (unread s) <= List.length stdin)%nat
      /\ table s = run_all st (performed s)
      /\ map id (rows (table s)) = map id (rows st)
      /\ Forall (fun c => exists i lines now,
                            c = EditRecord i lines now
                            /\ In i (map id (rows st)))
                (performed s).
Proof.
  induction fuel as [| fuel IH]; intros clock records_df st stdin k Hfuel Hrec;
    [lia |].
  destruct stdin as [| line rest]; cbn [view_loop].
  - eexists. split; [reflexivity |]. simpl. repeat split; auto.
  - simpl in Hfuel.
    assert (Hrest : (List.length rest < fuel)%nat) by lia.
    assert (Hskip : exists s,
               view_loop fuel clock records_df st rest k = Some s
               /\ (List.length (unread s) <= List.length (line :: rest))%nat
               /\ table s = run_all st (performed s)
               /\ map id (rows (table s)) = map id (rows st)
               /\ Forall (fun c => exists i lines now,
                                     c = EditRecord i lines now
                                     /\ In i (map id (rows st)))
                         (performed s)).
    { destruct (IH clock records_df st rest k Hrest Hrec)
        as (s & Hs & Hlen & Hrest').
      exists s. split; [exact Hs |]. split; [simpl; lia | exact Hrest']. }
    destruct (is_blank (strip line)).
    { eexists. split; [reflexivity |]. simpl. repeat split; auto. }
    destruct (isdigit (strip line)); simpl; [| exact Hskip].
    destruct (int_of_str (strip line)) as [choice_int | e].
    2:{ eexists. split; [reflexivity |]. simpl. repeat split; auto. lia. }
    destruct (Z.leb 1 choice_int
              && Z.leb choice_int (Z.of_nat (List.length records_df)))%bool
      eqn:Hrange; simpl; [| exact Hskip].
    apply andb_prop in Hrange as [Hlo Hhi].
    apply Z.leb_le in Hlo, Hhi.
    set (selected_id :=
           fst (nth (Z.to_nat (choice_int - 1)) records_df (0, VNull))).
    assert (Hsel : In selected_id (map id (rows st))).
    { apply Hrec. apply nth_In. lia. }
    pose proof (edit_record_ids st selected_id rest (clock k)) as Hids.
    pose proof (leftover_edit st selected_id rest) as Hleft.
    destruct (edit_record st selected_id rest (clock k)) as [o st'] eqn:E.
    simpl in Hids.
    assert (Hrun : st' = snd (run st (EditRecord selected_id rest (clock k)))).
    { simpl. rewrite E. reflexivity. }
    assert (Hcont : exists s,
               option_map (log (EditRecord selected_id rest (clock k)))
                 (view_loop fuel clock records_df st'
                    (edit_leftover st selected_id rest) (S k)) = Some s
               /\ (List.length (unread s) <= List.length (line :: rest))%nat
               /\ table s = run_all st (performed s)
               /\ map id (rows (table s)) = map id (rows st)
               /\ Forall (fun c => exists i lines now,
                                     c = EditRecord i lines now
                                     /\ In i (map id (rows st)))
                         (performed s)).
    { destruct (IH clock records_df st'
                  (edit_leftover st selected_id rest) (S k))
        as (s & Hs & Hlen & Htab & Hkeys & Hed).
      - lia.
      - intros entry Hentry. rewrite Hids. apply Hrec; exact Hentry.
      - rewrite Hs. eexists. split; [reflexivity |]. simpl.
        split; [lia |]. split; [rewrite Htab, Hrun; reflexivity |].
        split; [rewrite Hkeys; exact Hids |].
        constructor; [eexists _, _, _; split; [reflexivity | exact Hsel] |].
        rewrite Hids in Hed. exact Hed. }
    destruct o; try exact Hcont.
    eexists. split; [reflexivity |]. simpl.
    split; [lia |]. split; [exact Hrun |]. split; [exact Hids |].
    constructor; [| constructor].
    eexists _, _, _; split; [reflexivity | exact Hsel].
Qed.

Lemma place_in h : forall l x, In x (place h l) <-> x = h \/ In x l.
Proof.
  induction l as [| y l IH]; intros x; simpl.
  - split; intros [H | H]; auto.
  - destruct (Z.leb (id h) (id y)); simpl.
    + split; intros [H | H]; auto.
    + rewrite IH. split; intros H; repeat destruct H as [H | H]; auto.
Qed.

Lemma order_by_id_in : forall l x, In x (order_by_id l) <-> In x l.
Proof.
  induction l as [| y l IH]; intros x; simpl; [tauto |].
  rewrite place_in, IH. split; intros [H | H]; auto.
Qed.

Lemma listing_keys st entry :
  In entry (listing st) -> In (fst entry) (map id (rows st)).
Proof.
  unfold listing. intros H. apply in_map_iff in H as (h & <- & Hh).
  apply (proj1 (order_by_id_in _ _)) in Hh. simpl. apply in_map; exact Hh.
Qed.

(** More fuel changes nothing once a loop has ended. *)
Lemma view_loop_more_fuel :
  forall fuel fuel' clock records_df st stdin k s,
    (fuel <= fuel')%nat ->
    view_loop fuel clock records_df st stdin k = Some s ->
    view_loop fuel' clock records_df st stdin k = Some s.
Proof.
  induction fuel as [| fuel IH];
    intros fuel' clock records_df st stdin k s Hle H; [discriminate H |].
  destruct fuel' as [| fuel']; [lia |].
  assert (Hle' : (fuel <= fuel')%nat) by lia.
  cbn [view_loop] in H |- *.
  destruct stdin as [| line rest]; [exact H |].
  destruct (is_blank (strip line)); [exact H |].
  destruct (negb (isdigit (strip line))); [eapply IH; eassumption |].
  destruct (int_of_str (strip line)) as [choice_int | e]; [| exact H].
  destruct (negb (Z.leb 1 choice_int
                  && Z.leb choice_int (Z.of_nat (List.length records_df))));
    [eapply IH; eassumption |].
  destruct (edit_record st _ rest (clock k)) as [o st'].
  destruct o; try exact H;
    (destruct (view_loop fuel clock records_df st' _ (S k)) as [s0 |] eqn:E;
     [| discriminate H];
     rewrite (IH fuel' _ _ _ _ _ s0 Hle' E); exact H).
Qed.

Lemma main_loop_more_fuel :
  forall fuel fuel' read_csv clock st stdin k s,
    (fuel <= fuel')%nat ->
    main_loop fuel read_csv clock st stdin k = Some s ->
    main_loop fuel' read_csv clock st stdin k = Some s.
Proof.
  induction fuel as [| fuel IH];
    intros fuel' read_csv clock st stdin k s Hle H; [discriminate H |].
  destruct fuel' as [| fuel']; [lia |].
  assert (Hle' : (fuel <= fuel')%nat) by lia.
  cbn [main_loop] in H |- *.
  destruct stdin as [| line rest]; [exact H |].
  destruct (String.eqb (strip line) "1").
  { destruct rest as [| path rest']; [exact H |].
    destruct (import_csv st path read_csv (clock k)) as [o st'].
    destruct o; try exact H;
      (destruct (main_loop fuel read_csv clock st' rest' (S k)) as [s0 |] eqn:E;
       [| discriminate H];
       rewrite (IH fuel' _ _ _ _ _ s0 Hle' E); exact H). }
  destruct (String.eqb (strip line) "2"); [eapply IH; eassumption |].
  destruct (String.eqb (strip line) "3").
  { unfold view_records in H |- *.
    destruct (is_nil (listing st)).
    - simpl in H |- *.
      destruct (main_loop fuel read_csv clock st rest (k + 0)) as [s0 |] eqn:E;
        [| discriminate H].
      rewrite (IH fuel' _ _ _ _ _ s0 Hle' E). exact H.
    - destruct (view_loop fuel clock (listing st) st rest k) as [v |] eqn:Ev;
        [| discriminate H].
      rewrite (view_loop_more_fuel fuel fuel' _ _ _ _ _ v Hle' Ev).
      destruct (ended v); try exact H;
        (destruct (main_loop fuel read_csv clock (table v) (unread v) _)
           as [s0 |] eqn:E; [| discriminate H];
         rewrite (IH fuel' _ _ _ _ _ s0 Hle' E); exact H). }
  destruct (String.eqb (strip line) "4").
  { destruct (add_record st rest (clock k)) as [o st'].
    destruct o; try exact H;
      (destruct (main_loop fuel read_csv clock st' _ (S k)) as [s0 |] eqn:E;
       [| discriminate H];
       rewrite (IH fuel' _ _ _ _ _ s0 Hle' E); exact H). }
  destruct (String.eqb (strip line) "5"); [exact H |].
  eapply IH; eassumption.
Qed.

(** A choice that is asked again costs one turn of the loop and changes
    nothing else. *)
Lemma view_loop_asked_again fuel clock records_df st line rest k :
  asked_again records_df line = true ->
  view_loop (S fuel) clock records_df st (line :: rest) k
  = view_loop fuel clock records_df st rest k.
Proof.
  unfold asked_again. intros H. apply andb_prop in H as [Hb H].
  apply negb_true_iff in Hb. cbn [view_loop]. rewrite Hb.
  destruct (isdigit (strip line)); simpl in H |- *; [| reflexivity].
  destruct (int_of_str (strip line)) as [choice_int | e]; [| discriminate H].
  rewrite H. reflexivity.
Qed.

(** [view_records] always comes to an end on a finite input, by a blank
    choice, or by an exception when the lines run out.  It adds and
    removes no record and changes no key; its table is the one produced by
    the edits it performed; and each of those edits is on a key of the
    table, so [edit_record] is never asked for a record that is not
    there.  A choice that is not blank and is not the number of a listed
    record (a text that is not made of digits, or a number out of range)
    is skipped: the session is the one the following lines give. *)
Theorem view_records_session :
  forall clock st stdin k,
    exists s,
      view_records (S (List.length stdin)) clock st stdin k = Some s
      /\ (List.length (unread s) <= List.length stdin)%nat
      /\ table s = run_all st (performed s)
      /\ map id (rows (table s)) = map id (rows st)
      /\ Forall (fun c => exists i lines now,
                            c = EditRecord i lines now
                            /\ In i (map id (rows st)))
                (performed s)
      /\ (forall fuel, (List.length stdin < fuel)%nat ->
                       view_records fuel clock st stdin k = Some s)
      /\ (forall line,
            listing st <> [] ->
            asked_again (listing st) line = true ->
            view_records (S (List.length (line :: stdin))) clock st
              (line :: stdin) k
            = Some s).
Proof.
  intros clock st stdin k. unfold view_records.
  destruct (is_nil (listing st)) eqn:Hnil.
  - eexists. split; [reflexivity |]. simpl. repeat split; auto.
    intros line Hne. apply is_nil_true in Hnil. contradiction.
  - destruct (view_loop_spec (S (List.length stdin)) clock (listing st) st
                stdin k) as (s & Hs & H); [lia | apply listing_keys |].
    exists s. split; [exact Hs |].
    destruct H as (H1 & H2 & H3 & H4).
    do 4 (split; [assumption |]). split.
    + intros fuel Hfuel.
      apply (view_loop_more_fuel (S (List.length stdin)) fuel);
        [lia | exact Hs].
    + intros line _ Hline.
      rewrite (view_loop_asked_again _ _ _ _ _ _ _ Hline). exact Hs.
Qed.

Lemma view_records_spec fuel clock st stdin k :
  (List.length stdin < fuel)%nat ->
  exists s,
    view_records fuel clock st stdin k = Some s
    /\ (List.length (unread s) <= List.length stdin)%nat
    /\ table s = run_all st (performed s).
Proof.
  intros Hfuel. unfold view_records.
  destruct (is_nil (listing st)).
  - eexists. split; [reflexivity |]. simpl. auto.
  - destruct (view_loop_spec fuel clock (listing st) st stdin k Hfuel
                (listing_keys st)) as (s & Hs & Hlen & Htab & _).
    exists s. auto.
Qed.

(** The menu loop, given more fuel than lines: it ends, leaves no more
    lines than it was given, and its table is the one produced by the
    operations it performed, one after the other. *)
Lemma main_loop_spec :
  forall fuel read_csv clock st stdin k,
    (List.length stdin < fuel)%nat ->
    exists s,
      main_loop fuel read_csv clock st stdin k = Some s
      /\ (List.length (unread s) <= List.length stdin)%nat
      /\ table s = run_all st (performed s).
Proof.
  induction fuel as [| fuel IH]; intros read_csv clock st stdin k Hfuel;
    [lia |].
  destruct stdin as [| line rest]; cbn [main_loop].
  - eexists. split; [reflexivity |]. simpl. auto.
  - simpl in Hfuel.
    assert (Hskip : exists s,
               main_loop fuel read_csv clock st rest k = Some s
               /\ (List.length (unread s) <= List.length (line :: rest))%nat
               /\ table s = run_all st (performed s)).
    { destruct (IH read_csv clock st rest k) as (s & Hs & Hlen & Htab); [lia |].
      exists s. split; [exact Hs |]. split; [simpl; lia | exact Htab]. }
    destruct (String.eqb (strip line) "1").
    { destruct rest as [| path rest'].
      - eexists. split; [reflexivity |]. simpl. split; [lia | reflexivity].
      - destruct (import_csv st path read_csv (clock k)) as [o st'] eqn:E.
        assert (Hrun : st' = snd (run st (ImportCsv path read_csv (clock k)))).
        { simpl. rewrite E. reflexivity. }
        assert (Hcont : exists s,
                   option_map (log (ImportCsv path read_csv (clock k)))
                     (main_loop fuel read_csv clock st' rest' (S k)) = Some s
                   /\ (List.length (unread s)
                       <= List.length (line :: path :: rest'))%nat
                   /\ table s = run_all st (performed s)).
        { destruct (IH read_csv clock st' rest' (S k)) as (s & Hs & Hlen & Htab);
            [simpl in Hfuel; lia |].
          rewrite Hs. eexists. split; [reflexivity |]. simpl.
          split; [lia | rewrite Htab, Hrun; reflexivity]. }
        destruct o; try exact Hcont.
        eexists. split; [reflexivity |]. simpl. split; [lia | exact Hrun]. }
    destruct (String.eqb (strip line) "2"); [exact Hskip |].
    destruct (String.eqb (strip line) "3").
    { destruct (view_records_spec fuel clock st rest k) as (v & Hv & Hlen & Htab);
        [lia |].
      rewrite Hv.
      assert (Hcont : exists s,
                 option_map (log_all (performed v))
                   (main_loop fuel read_csv clock (table v) (unread v)
                      (k + List.length (performed v))) = Some s
                 /\ (List.length (unread s) <= List.length (line :: rest))%nat
                 /\ table s = run_all st (performed s)).
      { destruct (IH read_csv clock (table v) (unread v)
                    (k + List.length (performed v))%nat)
          as (s & Hs & Hlen' & Htab'); [lia |].
        rewrite Hs. eexists. split; [reflexivity |]. simpl.
        split; [lia | rewrite Htab', Htab, run_all_app; reflexivity]. }
      destruct (ended v); try exact Hcont.
      exists v. split; [reflexivity |]. split; [simpl; lia | exact Htab]. }
    destruct (String.eqb (strip line) "4").
    { pose proof (leftover_add rest) as Hleft.
      destruct (add_record st rest (clock k)) as [o st'] eqn:E.
      assert (Hrun : st' = snd (run st (AddRecord rest (clock k)))).
      { simpl. rewrite E. reflexivity. }
      assert (Hcont : exists s,
                 option_map (log (AddRecord rest (clock k)))
                   (main_loop fuel read_csv clock st'
                      (leftover add_prompts rest) (S k)) = Some s
                 /\ (List.length (unread s) <= List.length (line :: rest))%nat
                 /\ table s = run_all st (performed s)).
      { destruct (IH read_csv clock st' (leftover add_prompts rest) (S k))
          as (s & Hs & Hlen & Htab); [lia |].
        rewrite Hs. eexists. split; [reflexivity |]. simpl.
        split; [lia | rewrite Htab, Hrun; reflexivity]. }
      destruct o; try exact Hcont.
      eexists. split; [reflexivity |]. simpl. split; [lia | exact Hrun]. }
    destruct (String.eqb (strip line) "5"); [| exact Hskip].
    eexists. split; [reflexivity |]. simpl. split; [lia | reflexivity].
Qed.

(** Whatever is typed at the menu and the prompts, whatever the files
    hold and whatever the clock reads, a session of [main] on an empty
    table comes to an end once its input is finite (by option 5, or by an
    exception when the lines run out or an operation raises); the table
    it leaves is the one produced by the imports, edits and adds it
    performed, one after the other; and that table satisfies the
    conditional invariants, holds well-formed records only, and has the
    keys 1 to n.  More fuel than lines gives the same session. *)
Theorem main_session :
  forall read_csv clock stdin,
    exists s,
      main read_csv clock empty_store stdin = Some s
      /\ table s = run_all empty_store (performed s)
      /\ store_inv (table s)
      /\ store_wf (table s)
      /\ ids_consecutive (table s)
      /\ (forall fuel, (List.length stdin < fuel)%nat ->
                       main_loop fuel read_csv clock empty_store stdin 0
                       = Some s).
Proof.
  intros read_csv clock stdin. unfold main.
  destruct (main_loop_spec (S (List.length stdin)) read_csv clock empty_store
              stdin 0) as (s & Hs & _ & Htab); [lia |].
  exists s. split; [exact Hs |]. split; [exact Htab |]. rewrite Htab.
  split; [apply run_all_inv; constructor |].
  split; [apply run_all_wf; constructor |].
  split; [apply run_all_ids; exact empty_store_ids |].
  intros fuel Hfuel.
  apply (main_loop_more_fuel (S (List.length stdin)) fuel); [lia | exact Hs].
Qed.

Lemma order_by_id_sorted : forall l a,
  map id l = map Z.of_nat (seq a (List.length l)) -> order_by_id l = l.
Proof.
  induction l as [| x l IH]; intros a H; [reflexivity |].
  simpl in H. injection H as Hx Hl. simpl.
  rewrite (IH (S a) Hl).
  destruct l as [| y l']; [reflexivity |].
  simpl in Hl. injection Hl as Hy _. simpl.
  assert (E : Z.leb (id x) (id y) = true) by (apply Z.leb_le; lia).
  rewrite E. reflexivity.
Qed.

(** On a table the program built, the listing of [view_records] shows the
    records in the order of the table, and the number shown beside a
    record, its position counted from 1, is the key of that record. *)
Theorem listing_numbers_are_keys :
  forall history,
    let st := run_all empty_store history in
    listing st = map (fun h => (id h, address (data h))) (rows st)
    /\ map fst (listing st)
       = map Z.of_nat (seq 1 (List.length (rows st))).
Proof.
  intros history st.
  destruct (run_all_ids history empty_store empty_store_ids) as [Hids _].
  fold st in Hids.
  assert (E : listing st = map (fun h => (id h, address (data h))) (rows st)).
  { unfold listing. rewrite (order_by_id_sorted (rows st) 1 Hids).
    reflexivity. }
  split; [exact E |]. rewrite E, map_map. simpl. exact Hids.
Qed.

(** ** When an import succeeds *)

Lemma inserted_row_filled r r' :
  numeric_row r = Ok r' ->
  not_null_ok (boolean_row r') = true ->
  required_filled r = true.
Proof.
  intros Hnum Hnn.
  apply numeric_row_spec in Hnum as (Ha & Hc & Hrow).
  rewrite Hrow in Hnn. unfold not_null_ok in Hnn. simpl in Hnn.
  repeat match type of Hnn with
         | (_ && _)%bool = true => apply andb_prop in Hnn as [Hnn ?]
         end.
  unfold required_filled.
  rewrite (filled_back _ _ Ha), (filled_back _ _ Hc) by assumption.
  repeat match goal with
         | H : notna ?x = true |- context [notna ?x] => rewrite H
         end.
  reflexivity.
Qed.

(** [import_csv] reports success exactly when the file has every required
    column and each of its rows passes every validation stage, has its
    required cells filled and has counts that fit in 64 bits. *)
Theorem import_csv_succeeds_iff :
  forall st line read_csv ts input_df,
    is_blank (strip line) = false ->
    read_csv (strip line) = Some input_df ->
    fst (import_csv st line read_csv ts) = Done <->
    missing_columns_of input_df = []
    /\ Forall (fun r => row_passes r = true /\ required_filled r = true
                        /\ counts_bind r = true)
              (raw_rows input_df).
Proof.
  intros st line read_csv ts input_df Hb Hread.
  rewrite (import_csv_reads st line read_csv ts input_df Hb Hread). split.
  - intros H.
    destruct (import_frame st input_df ts) as [o st'] eqn:E.
    simpl in H. subst o.
    apply import_frame_done in E as (Hmiss & Hall & numeric & Hnum & Hex).
    split; [exact Hmiss |].
    apply executemany_appends in Hex as (new & _ & Hnew).
    rewrite Forall_forall in Hall |- *. intros r Hr.
    split; [apply Hall; exact Hr |].
    destruct (Forall2_in_l _ _ _ Hnum r Hr) as (r' & Hr' & Hrr').
    destruct (Forall2_in_l _ _ _ Hnew (boolean_row r', ts, ts))
      as (h & _ & _ & _ & _ & Hnn & Hbind).
    { apply in_map_iff. exists (boolean_row r'). split; [reflexivity |].
      apply in_map; exact Hr'. }
    split; [eapply inserted_row_filled; eassumption
           | eapply bound_row_back; eassumption].
  - intros [Hmiss Hall].
    destruct (import_frame_succeeds st input_df ts Hmiss)
      as (st' & new & -> & _).
    + eapply Forall_impl; [| exact Hall]. intros r H. apply H.
    + eapply Forall_impl; [| exact Hall]. intros r H. apply H.
    + eapply Forall_impl; [| exact Hall]. intros r H. apply H.
    + reflexivity.
Qed.

(** ** Adding, then looking up *)

Lemma add_record_done st stdin ts st' :
  add_record st stdin ts = (Done, st') ->
  exists r rest,
    add_prompts stdin = Ok (r, rest)
    /\ st' = {| rows := rows st ++
                        [ {| id := next_id st; data := r;
                             created_at := ts; updated_at := ts |} ];
                next_id := next_id st + 1 |}.
Proof.
  unfold add_record.
  destruct (add_prompts stdin) as [[r rest] | e] eqn:E; [| discriminate].
  destruct (insert st r ts ts) as [s1 | e] eqn:Hins; [| discriminate].
  intros H. injection H as <-. exists r, rest. split; [reflexivity |].
  pose proof (insert_appends _ _ _ _ _ Hins) as (Hnn & _ & _ & Hb).
  rewrite (insert_kept st r ts ts Hb Hnn (add_prompts_kept stdin r rest E))
    in Hins.
  injection Hins as <-. reflexivity.
Qed.

(** After a completed [add_record] on a table the program built, the new
    record is found under the key it was given, with the collected values
    and the one time stamp, and every record that was there before is
    still found, unchanged, under its own key. *)
Theorem add_then_get :
  forall history stdin ts st',
    let st := run_all empty_store history in
    add_record st stdin ts = (Done, st') ->
    exists r rest,
      add_prompts stdin = Ok (r, rest)
      /\ get st' (next_id st)
         = Some {| id := next_id st; data := r;
                   created_at := ts; updated_at := ts |}
      /\ Forall (fun h => get st' (id h) = Some h) (rows st).
Proof.
  intros history stdin ts st' st Hdone.
  pose proof (run_all_ids (history ++ [AddRecord stdin ts]) empty_store
                empty_store_ids) as [Hids _].
  rewrite run_all_app in Hids. fold st in Hids.
  change (run_all st [AddRecord stdin ts])
    with (snd (add_record st stdin ts)) in Hids.
  rewrite Hdone in Hids. simpl in Hids.
  destruct (add_record_done _ _ _ _ Hdone) as (r & rest & Hp & ->).
  simpl in Hids.
  assert (Hnd : NoDup (map id (rows st ++
                 [ {| id := next_id st; data := r;
                      created_at := ts; updated_at := ts |} ]))).
  { rewrite Hids. apply seq_ids_nodup. }
  exists r, rest. split; [exact Hp |]. split.
  - apply (find_by_unique_id _
             {| id := next_id st; data := r;
                created_at := ts; updated_at := ts |} Hnd).
    apply in_or_app. right. left. reflexivity.
  - rewrite Forall_forall. intros h Hh.
    apply (find_by_unique_id _ h Hnd). apply in_or_app. left. exact Hh.
Qed.

(** ** Reading the rows of a successful import *)

Lemma Forall2_cons_inv {A B : Type} (R : A -> B -> Prop) a l l' :
  Forall2 R (a :: l) l' ->
  exists b t, l' = b :: t /\ R a b /\ Forall2 R l t.
Proof. intros H. inversion H; subst. eauto. Qed.

Lemma Forall2_nil_inv {A B : Type} (R : A -> B -> Prop) (l' : list B) :
  Forall2 R [] l' -> l' = [].
Proof. intros H. inversion H. reflexivity. Qed.

Lemma persists_data ts r h a c :
  persists ts r h ->
  to_numeric (adults r) = Ok a -> to_numeric (children r) = Ok c ->
  data h = persisted r a c.
Proof.
  intros (a' & c' & Ha' & Hc' & Hd & _) Ha Hc.
  rewrite Ha in Ha'. rewrite Hc in Hc'.
  injection Ha' as <-. injection Hc' as <-. exact Hd.
Qed.

(** The statement that a true trigger with a null dependent field stops
    the import fails whatever the reading of texts as numbers: a file
    whose only row has pets = yes and a blank dogs cell is imported. *)
Lemma must_be_boolean_fails : ~ must_be_boolean_enforced.
Proof.
  intros H.
  destruct (H empty_store "batch.csv"
              (reads (sample_frame [unanswered_dogs_row])) 100
              (sample_frame [unanswered_dogs_row])
              (row_fields CSV_COLUMNS unanswered_dogs_row)
              eq_refl eq_refl (or_introl eq_refl)
              (or_introl (conj eq_refl eq_refl))) as [n Hn].
  vm_compute in Hn. discriminate Hn.
Qed.

End Pandas.

(** * Instances

    The theorems above hold for every reading of texts as numbers.  The
    instances below take [plain_digits]; none of their files has a text
    in a count column. *)

(** C3 as stated fails: a file whose only row has pets = yes and a blank
    dogs cell is imported; the import does not stop on a true trigger
    whose dependent field is null. *)
Lemma must_be_boolean_not_enforced : ~ must_be_boolean_enforced plain_digits.
Proof. exact (must_be_boolean_fails plain_digits). Qed.

Lemma import_csv_true_trigger_unconstrained_witness :
  exists st' h,
    import_csv plain_digits empty_store "batch.csv"
      (reads (sample_frame [unanswered_dogs_row])) 100 = (Done, st')
    /\ rows st' = [h]
    /\ address (data h) = VText sample_address
    /\ adults (data h) = VInt 2
    /\ pets (data h) = VInt 1
    /\ dogs (data h) = VNull.
Proof.
  destruct (import_csv_true_trigger_unconstrained plain_digits empty_store
              "batch.csv" (reads (sample_frame [unanswered_dogs_row])) 100
              (sample_frame [unanswered_dogs_row]) eq_refl eq_refl eq_refl)
    as (st' & new & Hdone & Hrows & _ & Hnew).
  - constructor; [| constructor].
    repeat split; vm_compute; reflexivity.
  - constructor; [| constructor].
    split; [left; reflexivity | right; reflexivity].
  - apply Forall2_cons_inv in Hnew as (h & t & -> & Hh & Ht).
    apply Forall2_nil_inv in Ht. subst t.
    exists st', h. split; [exact Hdone |]. split; [exact Hrows |].
    rewrite (persists_data plain_digits 100 _ h (VInt 2) (VInt 1) Hh
               eq_refl eq_refl).
    repeat split.
Defined.

Lemma import_csv_all_or_nothing_witness :
  snd (import_csv plain_digits empty_store "batch.csv"
         (reads (sample_frame [plain_row; dogs_no_pets_row])) 100)
  = empty_store
  /\ exists h1 h2,
       rows (snd (import_csv plain_digits empty_store "batch.csv"
                    (reads (sample_frame [plain_row; unanswered_dogs_row]))
                    100))
       = [h1; h2]
       /\ address (data h1) = VText sample_address
       /\ adults (data h1) = VInt 2 /\ children (data h1) = VInt 1
       /\ pets (data h1) = VInt 0 /\ dogs (data h1) = VNull
       /\ pets (data h2) = VInt 1
       /\ created_at h1 = 100 /\ updated_at h2 = 100.
Proof.
  split.
  - destruct (import_csv_all_or_nothing plain_digits empty_store "batch.csv"
                (reads (sample_frame [plain_row; dogs_no_pets_row])) 100
                (sample_frame [plain_row; dogs_no_pets_row])
                eq_refl eq_refl) as [H _].
    apply H. right.
    exists (row_fields CSV_COLUMNS dogs_no_pets_row).
    split; [right; left; reflexivity | vm_compute; reflexivity].
  - destruct (import_csv_all_or_nothing plain_digits empty_store "batch.csv"
                (reads (sample_frame [plain_row; unanswered_dogs_row])) 100
                (sample_frame [plain_row; unanswered_dogs_row])
                eq_refl eq_refl) as [_ H].
    destruct (H ltac:(vm_compute; reflexivity))
      as (_ & _ & new & Hrows & _ & Hstamps & Hnew).
    apply Forall2_cons_inv in Hnew as (h1 & t1 & -> & Hh1 & Hnew).
    apply Forall2_cons_inv in Hnew as (h2 & t2 & -> & Hh2 & Hnew).
    apply Forall2_nil_inv in Hnew. subst t2.
    exists h1, h2. split; [exact Hrows |].
    rewrite (persists_data plain_digits 100 _ h1 (VInt 2) (VInt 1) Hh1
               eq_refl eq_refl),
      (persists_data plain_digits 100 _ h2 (VInt 2) (VInt 1) Hh2
         eq_refl eq_refl).
    inversion Hstamps as [| ? ? [Hc1 _] Hrest]; subst.
    inversion Hrest as [| ? ? [_ Hu2] _]; subst.
    repeat split; assumption.
Defined.

Lemma import_csv_dogs_without_pets_witness :
  exists invalid,
    import_csv plain_digits empty_store "batch.csv"
      (reads (sample_frame [plain_row; dogs_no_pets_row])) 100
    = (Rejected (DogsWithoutPets invalid), empty_store)
    /\ In (1%nat, (VInt 0, VInt 1)) invalid.
Proof.
  destruct (import_csv_dogs_without_pets plain_digits empty_store "batch.csv"
              (reads (sample_frame [plain_row; dogs_no_pets_row])) 100
              (sample_frame [plain_row; dogs_no_pets_row]) 1
              (row_fields CSV_COLUMNS dogs_no_pets_row)
              eq_refl eq_refl eq_refl eq_refl eq_refl) as [_ H].
  apply H.
  - reflexivity.
  - repeat constructor.
  - repeat constructor.
Defined.

Lemma created_at_not_after_updated_at_witness :
  Forall (fun h => created_at h <= updated_at h)
         (rows (run_all plain_digits empty_store
                  [ AddRecord sample_answers 100;
                    EditRecord 1 blank_answers 160 ])).
Proof.
  apply (created_at_not_after_updated_at plain_digits
           [ AddRecord sample_answers 100; EditRecord 1 blank_answers 160 ]
           100).
  simpl. lia.
Defined.

Lemma edit_record_outcome_witness :
  exists st',
    edit_record one_record_store 1
      ("7 Elm St, Bend, OR 97701" :: "3" :: repeat EmptyString 15) 200
    = (Done, st')
    /\ option_map (fun h => (address (data h), adults (data h),
                            children (data h), updated_at h)) (get st' 1)
       = Some (VText "7 Elm St, Bend, OR 97701", VInt 3, VInt 0, 200).
Proof.
  destruct (edit_record_outcome plain_digits [AddRecord sample_answers 100] 1
              ("7 Elm St, Bend, OR 97701" :: "3" :: repeat EmptyString 15)
              200 eq_refl)
    as [[Hg _]
       | [(h & r & rest & st' & Hg & Hp & _ & Hdone & Hget)
         | [(h & e & _ & _ & _ & Hend)
           | (h & r & rest & z & _ & _ & _ & _ & Hend)]]].
  - vm_compute in Hg. discriminate Hg.
  - exists st'. split; [exact Hdone |]. rewrite Hget.
    vm_compute in Hg. injection Hg as <-.
    vm_compute in Hp. injection Hp as <- _. reflexivity.
  - vm_compute in Hend. discriminate Hend.
  - vm_compute in Hend. discriminate Hend.
Defined.

Lemma edit_address_only_witness :
  exists st',
    edit_record (run_all plain_digits empty_store
                   [AddRecord sample_answers 100]) 1
      ("7 Elm St, Bend, OR 97701" :: repeat EmptyString 16) 200
    = (Done, st')
    /\ option_map (fun h => (address (data h), adults (data h),
                            created_at h, updated_at h)) (get st' 1)
       = Some (VText "7 Elm St, Bend, OR 97701", VInt 2, 100, 200).
Proof.
  destruct (edit_address_only plain_digits [AddRecord sample_answers 100] 1
              {| id := 1;
                 data := stored (row_fields CSV_COLUMNS
                   [ VText sample_address; VInt 2; VInt 0; VInt 1;
                     VText EmptyString; VInt 0; VNull; VInt 0; VInt 0; VInt 0;
                     VText EmptyString; VText EmptyString; VText EmptyString;
                     VText EmptyString; VText EmptyString; VText EmptyString;
                     VText EmptyString ]);
                 created_at := 100; updated_at := 100 |}
              "7 Elm St, Bend, OR 97701" 200 eq_refl eq_refl)
    as (st' & Hdone & Hget & _).
  exists st'. split; [exact Hdone |]. rewrite Hget. reflexivity.
Defined.

Lemma edit_nothing_changes_only_updated_at_witness :
  exists st',
    edit_record (run_all plain_digits empty_store
                   [AddRecord sample_answers 100]) 1
      (repeat EmptyString 17) 200
    = (Done, st')
    /\ option_map (fun h => (address (data h), created_at h, updated_at h))
         (get st' 1)
       = Some (VText sample_address, 100, 200).
Proof.
  destruct (edit_nothing_changes_only_updated_at plain_digits
              [AddRecord sample_answers 100] 1
              {| id := 1;
                 data := stored (row_fields CSV_COLUMNS
                   [ VText sample_address; VInt 2; VInt 0; VInt 1;
                     VText EmptyString; VInt 0; VNull; VInt 0; VInt 0; VInt 0;
                     VText EmptyString; VText EmptyString; VText EmptyString;
                     VText EmptyString; VText EmptyString; VText EmptyString;
                     VText EmptyString ]);
                 created_at := 100; updated_at := 100 |}
              200 eq_refl)
    as (st' & Hdone & Hget & _).
  exists st'. split; [exact Hdone |]. rewrite Hget. reflexivity.
Defined.

Lemma import_csv_non_text_address_witness :
  import_csv plain_digits empty_store "batch.csv"
    (reads (sample_frame
              [ plain_row;
                [ VNull; VInt 2; VInt 1; VText "no"; VNull; VText "no"; VNull;
                  VText "no"; VText "no"; VText "yes"; VNull; VNull; VNull;
                  VNull; VNull; VNull; VNull ] ])) 100
  = (Uncaught TypeError, empty_store).
Proof.
  apply (import_csv_non_text_address plain_digits empty_store "batch.csv" _
           100
           (sample_frame
              [ plain_row;
                [ VNull; VInt 2; VInt 1; VText "no"; VNull; VText "no"; VNull;
                  VText "no"; VText "no"; VText "yes"; VNull; VNull; VNull;
                  VNull; VNull; VNull; VNull ] ])
           (row_fields CSV_COLUMNS
              [ VNull; VInt 2; VInt 1; VText "no"; VNull; VText "no"; VNull;
                VText "no"; VText "no"; VText "yes"; VNull; VNull; VNull;
                VNull; VNull; VNull; VNull ])
           eq_refl eq_refl eq_refl).
  - right; left; reflexivity.
  - intros s H. discriminate H.
Defined.

Lemma import_csv_numeric_phone_witness :
  import_csv plain_digits empty_store "batch.csv"
    (reads (sample_frame
              [ [ VText sample_address; VInt 2; VInt 1; VText "no"; VNull;
                  VText "no"; VNull; VText "no"; VText "no"; VText "yes";
                  VInt 5551234567; VNull; VNull; VNull; VNull; VNull;
                  VNull ] ])) 100
  = (Uncaught TypeError, empty_store).
Proof.
  apply (import_csv_numeric_phone plain_digits empty_store "batch.csv" _ 100
           (sample_frame
              [ [ VText sample_address; VInt 2; VInt 1; VText "no"; VNull;
                  VText "no"; VNull; VText "no"; VText "no"; VText "yes";
                  VInt 5551234567; VNull; VNull; VNull; VNull; VNull;
                  VNull ] ])
           (row_fields CSV_COLUMNS
              [ VText sample_address; VInt 2; VInt 1; VText "no"; VNull;
                VText "no"; VNull; VText "no"; VText "no"; VText "yes";
                VInt 5551234567; VNull; VNull; VNull; VNull; VNull; VNull ])
           eq_refl eq_refl eq_refl).
  - repeat constructor.
  - left; reflexivity.
  - left. eexists; reflexivity.
Defined.

Lemma import_csv_succeeds_iff_witness :
  fst (import_csv plain_digits empty_store "batch.csv"
         (reads (sample_frame [plain_row; unanswered_dogs_row])) 100)
  = Done.
Proof.
  apply (import_csv_succeeds_iff plain_digits empty_store "batch.csv"
           (reads (sample_frame [plain_row; unanswered_dogs_row])) 100
           (sample_frame [plain_row; unanswered_dogs_row]) eq_refl eq_refl).
  split; [reflexivity |].
  constructor; [| constructor; [| constructor]];
    repeat split; vm_compute; reflexivity.
Defined.

Lemma add_then_get_witness :
  exists r rest,
    add_prompts sample_answers = Ok (r, rest)
    /\ option_map (fun h => (id h, data h, created_at h, updated_at h))
         (get (snd (add_record
                      (run_all plain_digits empty_store
                         [AddRecord sample_answers 100])
                      sample_answers 130)) 2)
       = Some (2, r, 130, 130).
Proof.
  destruct (add_then_get plain_digits [AddRecord sample_answers 100]
              sample_answers 130
              (snd (add_record
                      (run_all plain_digits empty_store
                         [AddRecord sample_answers 100])
                      sample_answers 130)))
    as (r & rest & Hp & Hget & _).
  - vm_compute. reflexivity.
  - exists r, rest. split; [exact Hp |].
    change (next_id (run_all plain_digits empty_store
                       [AddRecord sample_answers 100]))
      with 2 in Hget.
    rewrite Hget. reflexivity.
Defined.
